(** * DesktopUtils: single-instance lock, scratch area and mailto registration

    A shallow embedding of [src/desktop/DesktopUtils.ts], and the properties
    its specification states of it.

    The class receives its collaborators ([fs], [electron], [cryptoFunctions])
    through its constructor and otherwise talks to [child_process], timers and
    the log.  Every such interaction is a [Call]; a method is a program
    ([Prog]) that issues calls, receives the answers of its environment and
    finally resolves or rejects.  Two semantics are given to programs:
    - [exec p t o]: [p] can issue the calls of trace [t], receive the answers
      recorded in [t] and finish with outcome [o].  The answers are arbitrary,
      so a statement over [exec] holds against every environment;
    - [run handle p w]: [p] run against one environment [handle] from world
      [w].  [Mem] is such an environment, with an in-memory file system.

    Embedded: the constructor, [registerAsMailtoHandler],
    [unregisterAsMailtoHandler], [singleInstanceLockOverridden],
    [makeSingleInstance], [_executeRegistryScript], [_writeToDisk],
    [doRegisterMailtoOnWin32WithCurrentUser],
    [doUnregisterMailtoOnWin32WithCurrentUser], [_openDefaultAppsSettings],
    [getTutanotaTempPath], [deleteTutanotaTempDir] and [getLockFilePath];
    then [touch], with its two calls passed as a record, and the function
    [isRectContainedInRect].

    The file has two parts: the definitions (values, calls, programs, the
    methods, the in-memory environment, the vocabulary of traces), then the
    properties. *)

From Stdlib Require Import ZArith Eqdep.
From Stdlib.Strings Require Import Byte Ascii String.
From stdpp Require Import base option strings list gmap.

Local Open Scope Z_scope.
Local Open Scope string_scope.
Local Open Scope list_scope.

(** ** Values *)

(** A file-system path, kept as the list of its segments: [path.join] of
    plain segments is concatenation. *)
Abbreviation Path := (list string).

Definition path_join (p : Path) (segments : list string) : Path := p ++ segments.

(** A JavaScript [Error]: its class name, its message and the optional
    [code] that Node sets on file-system errors. *)
Record JsError : Type := {
  err_name : string;
  message : string;
  code : option string
}.

Definition Error (msg : string) : JsError :=
  {| err_name := "Error"; message := msg; code := None |}.

Definition ProgrammingError (msg : string) : JsError :=
  {| err_name := "ProgrammingError"; message := msg; code := None |}.

#[global] Instance JsError_eq_dec : EqDecision JsError.
Proof. solve_decision. Defined.

(** What a fallible call answers. *)
Inductive Result (A : Type) : Type :=
| Ok (a : A)
| Failed (e : JsError).
Arguments Ok {A} a.
Arguments Failed {A} e.

(** How a method ends: a promise resolves or rejects, a synchronous method
    returns or throws.  [Uncaught]: an exception was thrown out of reach of
    the method, inside an event callback or by the emitter of an "error"
    event that nobody listens to, so the promise of the method is never
    settled. *)
Inductive Outcome (A : Type) : Type :=
| Resolved (a : A)
| Rejected (e : JsError)
| Uncaught (e : JsError).
Arguments Resolved {A} a.
Arguments Rejected {A} e.
Arguments Uncaught {A} e.

(** ** Calls to the environment *)

Record WriteOpts : Type := { w_encoding : string; w_mode : option Z }.
Record MkdirOpts : Type := { recursive : bool; m_mode : option Z }.
Record SpawnOpts : Type := { stdio : list string; detached : bool }.

(** An argument on a command line: text, or a path. *)
Inductive Arg : Type :=
| AStr (s : string)
| APath (p : Path).

(** The arguments of a child process's "exit" event. *)
Record ExitStatus : Type := { exit_code : option Z; exit_signal : option string }.

(** What a child process lets its parent know: "exit" when it was started
    and has ended, "error" when it could not be started. *)
Inductive ChildEvent : Type :=
| OnExit (status : ExitStatus)
| OnError (e : JsError).

Inductive Call : Type -> Type :=
(* FsExports *)
| ReadFile (p : Path) (encoding : string) : Call (Result string)
| WriteFile (p : Path) (data : string) (opts : WriteOpts) : Call (Result unit)
| Mkdir (p : Path) (opts : MkdirOpts) : Call (Result unit)
| MkdirSync (p : Path) (opts : MkdirOpts) : Call (Result unit)
| ReaddirSync (p : Path) : Call (Result (list string))
| RmSync (p : Path) (rm_recursive : bool) : Call (Result unit)
| UnlinkSync (p : Path) : Call (Result unit)
(* ElectronExports: app and shell *)
| RequestSingleInstanceLock : Call bool
| Quit : Call unit
| SetAsDefaultProtocolClient (protocol : string) : Call bool
| RemoveAsDefaultProtocolClient (protocol : string) : Call bool
| OpenExternal (url : string) : Call (Result unit)
(* CryptoFunctions *)
| RandomBytes (n : nat) : Call (list byte)
(* child_process: spawn and the wait for the event of the child, which is
   the answer *)
| Spawn (command : string) (args : list Arg) (opts : SpawnOpts) : Call ChildEvent
(* delay of @tutao/tutanota-utils (a timer), log.debug of ./DesktopLog and
   console.error *)
| Delay (ms : Z) : Call unit
| LogDebug (msg : string) : Call unit
| ConsoleError (msg : list string) : Call unit.

(** One step of a trace: a call and the answer it received. *)
Inductive Entry : Type :=
| Ev {X : Type} (c : Call X) (x : X).

(** ** Programs *)

(** [Ret]: return, or resolve.  [Throw]: throw, or reject.  [Escape]: an
    exception out of reach of any handler of the method, thrown inside an
    event callback or by an emitter.  [Vis c k]: issue [c] and go on as [k]
    of its answer. *)
Inductive Prog (A : Type) : Type :=
| Ret (a : A)
| Throw (e : JsError)
| Escape (e : JsError)
| Vis {X : Type} (c : Call X) (k : X -> Prog A).
Arguments Ret {A} a.
Arguments Throw {A} e.
Arguments Escape {A} e.
Arguments Vis {A X} c k.

Fixpoint bind {A B : Type} (p : Prog A) (f : A -> Prog B) : Prog B :=
  match p with
  | Ret a => f a
  | Throw e => Throw e
  | Escape e => Escape e
  | Vis c k => Vis c (fun x => bind (k x) f)
  end.

#[global] Instance Prog_ret : MRet Prog := fun _ a => Ret a.
#[global] Instance Prog_bind : MBind Prog := fun _ _ f p => bind p f.

(** [try { p } catch (e) { h e }], and [p.catch(h)] on a promise. *)
Fixpoint try_catch {A : Type} (p : Prog A) (h : JsError -> Prog A) : Prog A :=
  match p with
  | Ret a => Ret a
  | Throw e => h e
  | Escape e => Escape e
  | Vis c k => Vis c (fun x => try_catch (k x) h)
  end.

(** A call that cannot fail. *)
Definition call {X : Type} (c : Call X) : Prog X := Vis c Ret.

(** A call that can fail: a failure is thrown (a synchronous call) or rejects
    the awaited promise. *)
Definition await {X : Type} (c : Call (Result X)) : Prog X :=
  Vis c (fun r => match r with Ok x => Ret x | Failed e => Throw e end).

(** ** Semantics against every environment *)

Fixpoint exec {A : Type} (p : Prog A) (t : list Entry) (o : Outcome A) : Prop :=
  match p with
  | Ret a => t = [] /\ o = Resolved a
  | Throw e => t = [] /\ o = Rejected e
  | Escape e => t = [] /\ o = Uncaught e
  | Vis c k => exists x t', t = Ev c x :: t' /\ exec (k x) t' o
  end.

(** ** Semantics against one environment *)

Section Run.
Context {W : Type} (handle : forall X : Type, Call X -> W -> X * W).

(** The outcome, the final world and the history: every call with its
    answer, paired with the world it was issued in. *)
Fixpoint run {A : Type} (p : Prog A) (w : W) : Outcome A * W * list (W * Entry) :=
  match p with
  | Ret a => (Resolved a, w, [])
  | Throw e => (Rejected e, w, [])
  | Escape e => (Uncaught e, w, [])
  | Vis c k =>
      let a := handle _ c w in
      let r := run (k a.1) a.2 in
      (r.1.1, r.1.2, (w, Ev c a.1) :: r.2)
  end.

Definition outcome {A : Type} (r : Outcome A * W * list (W * Entry)) : Outcome A := r.1.1.
Definition final {A : Type} (r : Outcome A * W * list (W * Entry)) : W := r.1.2.
Definition history {A : Type} (r : Outcome A * W * list (W * Entry)) : list (W * Entry) := r.2.
Definition trace {A : Type} (r : Outcome A * W * list (W * Entry)) : list Entry := (history r).*2.
End Run.

(** ** Encoders of [@tutao/tutanota-utils] *)

(** [uint8ArrayToBase64], [base64ToBase64Url] and [uint8ArrayToHex] are
    imported from [@tutao/tutanota-utils], whose source is missing.  The
    spec names their results "URL-safe-base64 encoded" and
    "hex-encoded". *)

(** The digits of standard base64 and of lower-case hexadecimal. *)
Definition base64Alphabet : string :=
  "ABCDEFGHIJKLMNOPQRSTUVWXYZabcdefghijklmnopqrstuvwxyz0123456789+/".

Definition hexDigits : string := "0123456789abcdef".

Definition charAt (alphabet : string) (i : Z) : ascii :=
  match String.get (Z.to_nat i) alphabet with
  | Some c => c
  | None => "?"%char
  end.

Definition byteToZ (b : byte) : Z := Z.of_N (Byte.to_N b).

(** The [i]-th group of six bits, counted from the most significant, of a
    24-bit group. *)
Definition sextet (group : Z) (i : Z) : ascii :=
  charAt base64Alphabet (Z.land (Z.shiftr group (18 - 6 * i)) 63).

(** Modelled from the spec: [uint8ArrayToBase64] is missing; standard base64,
    three bytes to four digits, padded with [=]. *)
Fixpoint uint8ArrayToBase64 (bytes : list byte) : string :=
  match bytes with
  | [] => ""
  | [a] =>
      let g := Z.shiftl (byteToZ a) 16 in
      String (sextet g 0) (String (sextet g 1) "==")
  | [a; b] =>
      let g := Z.lor (Z.shiftl (byteToZ a) 16) (Z.shiftl (byteToZ b) 8) in
      String (sextet g 0) (String (sextet g 1) (String (sextet g 2) "="))
  | a :: b :: c :: rest =>
      let g := Z.lor (Z.lor (Z.shiftl (byteToZ a) 16) (Z.shiftl (byteToZ b) 8)) (byteToZ c) in
      String (sextet g 0) (String (sextet g 1) (String (sextet g 2) (String (sextet g 3)
        (uint8ArrayToBase64 rest))))
  end.

(** Modelled from the spec: [base64ToBase64Url] is missing; the URL-safe
    variant writes [-] for [+] and [_] for [/] and drops the padding. *)
Fixpoint base64ToBase64Url (base64 : string) : string :=
  match base64 with
  | EmptyString => EmptyString
  | String c rest =>
      if Ascii.eqb c "+" then String "-" (base64ToBase64Url rest)
      else if Ascii.eqb c "/" then String "_" (base64ToBase64Url rest)
      else if Ascii.eqb c "=" then base64ToBase64Url rest
      else String c (base64ToBase64Url rest)
  end.

(** Modelled from the spec: [uint8ArrayToHex] is missing; two lower-case
    hexadecimal digits per byte. *)
Fixpoint uint8ArrayToHex (bytes : list byte) : string :=
  match bytes with
  | [] => ""
  | b :: rest =>
      String (charAt hexDigits (Z.shiftr (byteToZ b) 4))
        (String (charAt hexDigits (Z.land (byteToZ b) 15)) (uint8ArrayToHex rest))
  end.

(** The characters of the two encodings. *)
Definition isUrlSafe (c : ascii) : bool :=
  existsb (Ascii.eqb c)
    (list_ascii_of_string "ABCDEFGHIJKLMNOPQRSTUVWXYZabcdefghijklmnopqrstuvwxyz0123456789-_").

Definition isHexDigit (c : ascii) : bool :=
  existsb (Ascii.eqb c) (list_ascii_of_string hexDigits).

(** What [base64ToBase64Url] writes for a base64 digit. *)
Definition urlChar (c : ascii) : ascii :=
  if Ascii.eqb c "+" then "-"%char else if Ascii.eqb c "/" then "_"%char else c.

(** ** The process and the collaborators that are plain values *)

(** Modelled from the spec: [RegistryRoot] and the script builders of
    [./reg-templater] are missing from the sources; the spec treats the
    generated script as an opaque string, so the builders are fields of
    [Env]. *)
Inductive RegistryRoot : Type :=
| LOCAL_MACHINE
| CURRENT_USER.

Record RegistryTemplateDefinition : Type := {
  t_execPath : Path;
  t_dllPath : Path;
  t_logPath : Path;
  t_tmpPath : Path
}.

(** What the methods read without side effect: [process.platform],
    [process.execPath], [electron.app.getVersion()], [electron.app.getName()],
    [electron.app.getPath("temp")], and the two script builders. *)
Record Env : Type := {
  platform : string;
  execPath : Path;
  appVersion : string;
  appName : string;
  tempPath : Path;
  makeRegisterKeysScript : RegistryRoot -> RegistryTemplateDefinition -> string;
  makeUnregisterKeysScript : RegistryRoot -> string
}.

(** Modelled from the spec: [swapFilename] of [./PathUtils] is missing from
    the sources; the spec describes it as "swapping the executable's filename
    while keeping its directory". *)
Definition swapFilename (p : Path) (file : string) : Path :=
  path_join (removelast p) [file].

(** The instance: [topLevelTempDir] is a constant, [randomDirectoryName] is
    set by the constructor. *)
Record DesktopUtils : Type := { randomDirectoryName : string }.

Definition topLevelTempDir : string := "tutanota".

(** An octal literal, from its digits: [octal [7; 0; 0]] is [0o700]. *)
Definition octal (digits : list Z) : Z :=
  fold_left (fun acc d => acc * 8 + d) digits 0.

(** [e.code === c] *)
Definition codeIs (e : JsError) (c : string) : bool :=
  match code e with
  | Some c' => String.eqb c' c
  | None => false
  end.

(** [for (const x of l) body(x)] *)
Fixpoint forOf {A : Type} (l : list A) (body : A -> Prog unit) : Prog unit :=
  match l with
  | [] => Ret tt
  | x :: rest => bind (body x) (fun _ => forOf rest body)
  end.

(** Modelled from the spec: [noOp] of [@tutao/tutanota-utils] is missing; as
    the handler of [.catch] it swallows the failure (the spec, 4.1 step 1). *)
Definition noOp (e : JsError) : Prog unit := Ret tt.

(** ** The methods of [DesktopUtils] *)

(** Each method is written as in the source, statement by statement: [await]
    and [.then] are sequencing, [.catch] and [try]/[catch] are [try_catch].
    The constructor (lines 19-25) draws the random directory name. *)

Definition constructor : Prog DesktopUtils :=
  bytes ← call (RandomBytes 16);
  mret {| randomDirectoryName := base64ToBase64Url (uint8ArrayToBase64 bytes) |}.

Section Methods.
Context (env : Env) (this : DesktopUtils).

(** Lines 266-270. *)
Definition getLockFilePath : Path :=
  path_join (tempPath env) ["tutanota_desktop_lockfile"].

(** Lines 87-95. *)
Definition singleInstanceLockOverridden : Prog bool :=
  let lockfilePath := getLockFilePath in
  try_catch
    (version ← await (ReadFile lockfilePath "utf8");
     await (WriteFile lockfilePath (appVersion env) {| w_encoding := "utf8"; w_mode := None |});;
     mret (negb (String.eqb version (appVersion env))))
    (fun _ => mret false).

(** Lines 108-135. *)
Definition makeSingleInstance : Prog bool :=
  let lockfilePath := getLockFilePath in
  try_catch
    (await (WriteFile lockfilePath (appVersion env) {| w_encoding := "utf8"; w_mode := None |}))
    noOp;;
  granted ← call RequestSingleInstanceLock;
  if granted : bool then mret true
  else
    call (Delay 1500);;
    canStay ← singleInstanceLockOverridden;
    (if canStay : bool
     then call RequestSingleInstanceLock;; mret tt
     else call Quit);;
    mret canStay.

(** Lines 237-244. *)
Definition getTutanotaTempPath : Prog Path :=
  let directory := path_join (tempPath env) [topLevelTempDir; randomDirectoryName this] in
  await (MkdirSync directory {| recursive := true; m_mode := Some (octal [7; 0; 0]) |});;
  mret (path_join directory []).

(** Lines 167-179. *)
Definition _writeToDisk (contents : string) : Prog Path :=
  bytes ← call (RandomBytes 12);
  let filename := uint8ArrayToHex bytes in
  dir ← getTutanotaTempPath;
  let tmpPath := path_join dir ["reg"] in
  await (Mkdir tmpPath {| recursive := true; m_mode := None |});;
  let filePath := path_join tmpPath [filename] in
  await (WriteFile filePath contents {| w_encoding := "utf-8"; w_mode := Some (octal [4; 0; 0]) |});;
  mret filePath.

(** Lines 142-160.  The promise of the method is the one of [defer]: it is
    settled in the "exit" callback, after [unlinkSync]; an exception of
    [unlinkSync] leaves the callback and the promise is never settled.  The
    child has no listener for "error": when the process cannot be started
    the emitter throws, the "exit" callback never runs and the promise is
    never settled either. *)
Definition _executeRegistryScript (script : string) : Prog unit :=
  file ← _writeToDisk script;
  event ← call (Spawn "reg.exe" [AStr "import"; APath file]
                  {| stdio := ["ignore"; "inherit"; "inherit"]; detached := false |});
  match event with
  | OnError e => Escape e
  | OnExit status =>
      (* the "exit" callback *)
      unlinked ← call (UnlinkSync file);
      match unlinked with
      | Failed e => Escape e
      | Ok _ =>
          if bool_decide (exit_code status = Some 0)
          then mret tt
          else Throw (Error "couldn't execute registry script")
      end
  end.

(** Lines 214-221. *)
Definition _openDefaultAppsSettings : Prog unit :=
  try_catch
    (await (OpenExternal "ms-settings:defaultapps"))
    (fun e => call (ConsoleError ["failed to open default apps settings page:"; message e])).

(** Lines 181-202. *)
Definition doRegisterMailtoOnWin32WithCurrentUser : Prog unit :=
  if negb (String.eqb (platform env) "win32") then Throw (ProgrammingError "Not win32")
  else
    let execPath := execPath env in
    let dllPath := swapFilename execPath "mapirs.dll" in
    let appData := path_join ["%USERPROFILE%"] ["AppData"] in
    let logPath := path_join appData ["Roaming"; appName env; "logs"] in
    let tmpPath := path_join appData ["Local"; "Temp"; topLevelTempDir; "attach"] in
    let tmpRegScript :=
      makeRegisterKeysScript env CURRENT_USER
        {| t_execPath := execPath; t_dllPath := dllPath; t_logPath := logPath; t_tmpPath := tmpPath |} in
    _executeRegistryScript tmpRegScript;;
    call (SetAsDefaultProtocolClient "mailto");;
    _openDefaultAppsSettings.

(** Lines 204-212. *)
Definition doUnregisterMailtoOnWin32WithCurrentUser : Prog unit :=
  if negb (String.eqb (platform env) "win32") then Throw (ProgrammingError "Not win32")
  else
    call (RemoveAsDefaultProtocolClient "mailto");;
    let tmpRegScript := makeUnregisterKeysScript env CURRENT_USER in
    _executeRegistryScript tmpRegScript;;
    _openDefaultAppsSettings.

(** Lines 44-62. *)
Definition registerAsMailtoHandler : Prog unit :=
  call (LogDebug "trying to register mailto...");;
  if String.eqb (platform env) "win32" then doRegisterMailtoOnWin32WithCurrentUser
  else if String.eqb (platform env) "darwin" then
    didRegister ← call (SetAsDefaultProtocolClient "mailto");
    if negb didRegister then Throw (Error "Could not register as mailto handler")
    else mret tt
  else if String.eqb (platform env) "linux" then
    Throw (Error "Registering protocols on Linux does not work")
  else Throw (Error ("Invalid process.platform: " ++ platform env)).

(** Lines 64-81. *)
Definition unregisterAsMailtoHandler : Prog unit :=
  call (LogDebug "trying to unregister mailto...");;
  if String.eqb (platform env) "win32" then doUnregisterMailtoOnWin32WithCurrentUser
  else if String.eqb (platform env) "darwin" then
    didUnregister ← call (RemoveAsDefaultProtocolClient "mailto");
    if negb didUnregister then Throw (Error "Could not unregister as mailto handler")
    else mret tt
  else if String.eqb (platform env) "linux" then
    Throw (Error "Registering protocols on Linux does not work")
  else Throw (Error ("Invalid process.platform: " ++ platform env)).

(** Lines 246-264. *)
Definition deleteTutanotaTempDir : Prog unit :=
  let topLvlTmpDir := path_join (tempPath env) [topLevelTempDir] in
  try_catch
    (tmps ← await (ReaddirSync topLvlTmpDir);
     forOf tmps (fun tmp =>
       let tmpSubPath := path_join topLvlTmpDir [tmp] in
       try_catch
         (await (RmSync tmpSubPath true))
         (fun e => if negb (codeIs e "ENOENT") && negb (codeIs e "EACCES") then Throw e else mret tt)))
    (fun e => if negb (codeIs e "ENOENT") then Throw e else mret tt).
End Methods.

(** ** An environment with an in-memory file system *)

(** The file system is a finite map from paths to nodes; the root [[]] is a
    directory that is always there.  A call fails for the reasons of the
    POSIX call behind it that this state can express: a missing or
    ill-kinded node, or a missing owner permission on a file.  The mode of a
    directory is recorded and not looked at: every directory can be listed,
    searched and changed, as for a user who owns the whole tree with all
    permissions on its directories; what an operation does in another tree
    is said by the statements over [exec], against every answer.  The other
    collaborators answer from lists that the world carries, so that every
    sequence of answers is the behaviour of some world. *)
Module Mem.

Inductive Node : Type :=
| File (content : string) (mode : Z)
| Dir (mode : Z).

Record World : Type := {
  files : gmap Path Node;
  umask : Z;                           (* process.umask() *)
  entropy : list byte;                 (* what randomBytes will deliver *)
  lockGrants : list bool;              (* answers to requestSingleInstanceLock *)
  protocolGrants : list bool;          (* answers to set/removeAsDefaultProtocolClient *)
  exits : list ChildEvent;             (* how the coming child processes end *)
  settings : list (Result unit);       (* answers to shell.openExternal *)
  clock : Z;                           (* milliseconds spent waiting *)
  quitted : bool                       (* app.quit() was called *)
}.

Definition withFiles (f : gmap Path Node) (w : World) : World :=
  {| files := f; umask := umask w; entropy := entropy w; lockGrants := lockGrants w;
     protocolGrants := protocolGrants w; exits := exits w; settings := settings w;
     clock := clock w; quitted := quitted w |}.

Definition fsError (c : string) : JsError :=
  {| err_name := "Error"; message := c; code := Some c |}.

(** The permission bits a new node gets: the requested ones, or the
    default of the call, without the bits of the umask. *)
Definition effectiveMode (requested : option Z) (dflt : Z) (mask : Z) : Z :=
  Z.ldiff (default dflt requested) mask.

Definition ownerRead : Z := octal [4; 0; 0].
Definition ownerWrite : Z := octal [2; 0; 0].
Definition groupOther : Z := octal [0; 7; 7].

Definition allows (mode bits : Z) : bool := negb (Z.eqb (Z.land mode bits) 0).

Definition isDir (fs : gmap Path Node) (p : Path) : bool :=
  match p with
  | [] => true
  | _ => match fs !! p with Some (Dir _) => true | _ => false end
  end.

Definition readFile (p : Path) (fs : gmap Path Node) : Result string :=
  match fs !! p with
  | Some (File content mode) =>
      if allows mode ownerRead then Ok content else Failed (fsError "EACCES")
  | Some (Dir _) => Failed (fsError "EISDIR")
  | None => Failed (fsError (if isDir fs p then "EISDIR" else "ENOENT"))
  end.

(** [open(p, O_WRONLY | O_CREAT | O_TRUNC, mode)] and a write: the mode
    matters only when the file is created. *)
Definition writeFile (p : Path) (data : string) (mode : Z) (fs : gmap Path Node)
  : Result unit * gmap Path Node :=
  match fs !! p with
  | Some (File _ old) =>
      if allows old ownerWrite then (Ok tt, <[p := File data old]> fs)
      else (Failed (fsError "EACCES"), fs)
  | Some (Dir _) => (Failed (fsError "EISDIR"), fs)
  | None =>
      match p with
      | [] => (Failed (fsError "EISDIR"), fs)
      | _ =>
          if isDir fs (removelast p) then (Ok tt, <[p := File data mode]> fs)
          else (Failed (fsError "ENOENT"), fs)
      end
  end.

(** [mkdir] with [recursive: true]: walks down from [base], creating what
    is missing, each new directory with [mode]. *)
Fixpoint mkdirp (mode : Z) (base rest : Path) (fs : gmap Path Node)
  : Result unit * gmap Path Node :=
  match rest with
  | [] => (Ok tt, fs)
  | s :: rest' =>
      let p := base ++ [s] in
      match fs !! p with
      | Some (Dir _) => mkdirp mode p rest' fs
      | Some (File _ _) =>
          (Failed (fsError (match rest' with [] => "EEXIST" | _ => "ENOTDIR" end)), fs)
      | None => mkdirp mode p rest' (<[p := Dir mode]> fs)
      end
  end.

Definition mkdir (p : Path) (recursive : bool) (mode : Z) (fs : gmap Path Node)
  : Result unit * gmap Path Node :=
  if recursive then mkdirp mode [] p fs
  else
    match p, fs !! p with
    | [], _ | _, Some _ => (Failed (fsError "EEXIST"), fs)
    | _, None =>
        if isDir fs (removelast p) then (Ok tt, <[p := Dir mode]> fs)
        else (Failed (fsError "ENOENT"), fs)
    end.

(** [childName dir k]: the name of [k] when [k] lies directly in [dir]. *)
Fixpoint childName (dir k : Path) : option string :=
  match dir, k with
  | [], [name] => Some name
  | d :: dir', s :: k' => if decide (d = s) then childName dir' k' else None
  | _, _ => None
  end.

(** [readdir]: the names in a directory, whatever the mode of the
    directory. *)
Definition readdir (p : Path) (fs : gmap Path Node) : Result (list string) :=
  if isDir fs p then Ok (omap (childName p) (map_to_list fs).*1)
  else Failed (fsError (match fs !! p with Some _ => "ENOTDIR" | None => "ENOENT" end)).

(** [rm]: a file goes; a directory goes with everything below it, and
    only when [recursive] is set.  No mode is looked at, so of the failures
    of the OS only the one of a missing node is there. *)
Definition rm (p : Path) (recursive : bool) (fs : gmap Path Node)
  : Result unit * gmap Path Node :=
  match fs !! p with
  | None => (Failed (fsError "ENOENT"), fs)
  | Some (File _ _) => (Ok tt, delete p fs)
  | Some (Dir _) =>
      if recursive then (Ok tt, filter (λ kv, ¬ (p `prefix_of` kv.1)) fs)
      else (Failed (fsError "ERR_FS_EISDIR"), fs)
  end.

Definition unlink (p : Path) (fs : gmap Path Node) : Result unit * gmap Path Node :=
  match fs !! p with
  | None => (Failed (fsError (if isDir fs p then "EPERM" else "ENOENT")), fs)
  | Some (File _ _) => (Ok tt, delete p fs)
  | Some (Dir _) => (Failed (fsError "EPERM"), fs)
  end.

Definition succeeded : ExitStatus := {| exit_code := Some 0; exit_signal := None |}.

Definition handle (X : Type) (c : Call X) (w : World) : X * World :=
  match c in Call X return X * World with
  | ReadFile p _ => (readFile p (files w), w)
  | WriteFile p data opts =>
      let r := writeFile p data (effectiveMode (w_mode opts) (octal [6; 6; 6]) (umask w)) (files w) in
      (r.1, withFiles r.2 w)
  | Mkdir p opts | MkdirSync p opts =>
      let r := mkdir p (recursive opts) (effectiveMode (m_mode opts) (octal [7; 7; 7]) (umask w)) (files w) in
      (r.1, withFiles r.2 w)
  | ReaddirSync p => (readdir p (files w), w)
  | RmSync p recursive => let r := rm p recursive (files w) in (r.1, withFiles r.2 w)
  | UnlinkSync p => let r := unlink p (files w) in (r.1, withFiles r.2 w)
  | RequestSingleInstanceLock =>
      (hd true (lockGrants w),
       {| files := files w; umask := umask w; entropy := entropy w; lockGrants := tl (lockGrants w);
          protocolGrants := protocolGrants w; exits := exits w; settings := settings w;
          clock := clock w; quitted := quitted w |})
  | Quit =>
      (tt,
       {| files := files w; umask := umask w; entropy := entropy w; lockGrants := lockGrants w;
          protocolGrants := protocolGrants w; exits := exits w; settings := settings w;
          clock := clock w; quitted := true |})
  | SetAsDefaultProtocolClient _ | RemoveAsDefaultProtocolClient _ =>
      (hd true (protocolGrants w),
       {| files := files w; umask := umask w; entropy := entropy w; lockGrants := lockGrants w;
          protocolGrants := tl (protocolGrants w); exits := exits w; settings := settings w;
          clock := clock w; quitted := quitted w |})
  | OpenExternal _ =>
      (hd (Ok tt) (settings w),
       {| files := files w; umask := umask w; entropy := entropy w; lockGrants := lockGrants w;
          protocolGrants := protocolGrants w; exits := exits w; settings := tl (settings w);
          clock := clock w; quitted := quitted w |})
  | RandomBytes n =>
      (take n (entropy w ++ replicate n x00),
       {| files := files w; umask := umask w; entropy := drop n (entropy w); lockGrants := lockGrants w;
          protocolGrants := protocolGrants w; exits := exits w; settings := settings w;
          clock := clock w; quitted := quitted w |})
  | Spawn _ _ _ =>
      (hd (OnExit succeeded) (exits w),
       {| files := files w; umask := umask w; entropy := entropy w; lockGrants := lockGrants w;
          protocolGrants := protocolGrants w; exits := tl (exits w); settings := settings w;
          clock := clock w; quitted := quitted w |})
  | Delay ms =>
      (tt,
       {| files := files w; umask := umask w; entropy := entropy w; lockGrants := lockGrants w;
          protocolGrants := protocolGrants w; exits := exits w; settings := settings w;
          clock := clock w + ms; quitted := quitted w |})
  | LogDebug _ | ConsoleError _ => (tt, w)
  end.

(** The modes that the calls of [DesktopUtils] end up with in world [w]. *)
Definition scratchMode (w : World) : Z :=
  effectiveMode (Some (octal [7; 0; 0])) (octal [7; 7; 7]) (umask w).

Definition regDirMode (w : World) : Z := effectiveMode None (octal [7; 7; 7]) (umask w).

Definition scriptMode (w : World) : Z :=
  effectiveMode (Some (octal [4; 0; 0])) (octal [6; 6; 6]) (umask w).

(** What [randomBytes n] answers in world [w]. *)
Definition nextBytes (n : nat) (w : World) : list byte := take n (entropy w ++ replicate n x00).

End Mem.

(** ** Vocabulary for traces *)

Section TraceVocabulary.
Context (env : Env).

(** The two calls on the lock file, with their answers. *)
Definition lockRead (r : Result string) : Entry :=
  Ev (ReadFile (getLockFilePath env) "utf8") r.

Definition lockWrite (r : Result unit) : Entry :=
  Ev (WriteFile (getLockFilePath env) (appVersion env) {| w_encoding := "utf8"; w_mode := None |}) r.

Definition lockRequest (granted : bool) : Entry := Ev RequestSingleInstanceLock granted.

(** A second instance that is refused the OS lock, waits, finds [observed]
    in the lock file, overwrites it and asks for the OS lock again. *)
Definition refusedThenRetried (w : Result unit) (observed : string) (granted : bool) : list Entry :=
  [lockWrite w; lockRequest false; Ev (Delay 1500) tt;
   lockRead (Ok observed); lockWrite (Ok tt); lockRequest granted].

(** The calls of the purge: the listing of the top-level directory and
    the recursive removal of one entry. *)
Definition topLvlTmpDir : Path := path_join (tempPath env) [topLevelTempDir].

Definition listing (r : Result (list string)) : Entry := Ev (ReaddirSync topLvlTmpDir) r.

Definition removal (tmp : string) (r : Result unit) : Entry :=
  Ev (RmSync (path_join topLvlTmpDir [tmp]) true) r.

Definition removals (tmps : list string) (rs : list (Result unit)) : list Entry :=
  zip_with removal tmps rs.
End TraceVocabulary.

(** The body of the loop of [deleteTutanotaTempDir]. *)
Definition removeEntry (env : Env) (tmp : string) : Prog unit :=
  let tmpSubPath := path_join (topLvlTmpDir env) [tmp] in
  try_catch
    (await (RmSync tmpSubPath true))
    (fun e => if negb (codeIs e "ENOENT") && negb (codeIs e "EACCES") then Throw e else mret tt).

(** A failure of a removal that the purge swallows. *)
Definition tolerated (e : JsError) : bool := codeIs e "ENOENT" || codeIs e "EACCES".

(** An answer of a removal after which the purge goes on. *)
Definition passes (r : Result unit) : bool :=
  match r with
  | Ok _ => true
  | Failed e => tolerated e
  end.

(** How a sweep over [tmps] ends, given the answers [rs] of its removals:
    either every entry was tried and every failure was a tolerated one, or
    the sweep stopped at the first failure that is not tolerated. *)
Definition sweepEnds (tmps : list string) (rs : list (Result unit)) (o : Outcome unit) : Prop :=
  (length rs = length tmps /\ Forall (fun r => passes r = true) rs /\ o = Resolved tt) \/
  (exists pre e,
      rs = pre ++ [Failed e] /\ (length rs <= length tmps)%nat /\
      Forall (fun r => passes r = true) pre /\ tolerated e = false /\ o = Rejected e).

(** The calls of the scratch area and of the staging of a script. *)
Section StagingVocabulary.
Context (env : Env) (this : DesktopUtils).

Definition scratchDir : Path :=
  path_join (tempPath env) [topLevelTempDir; randomDirectoryName this].

Definition scratchMkdir (r : Result unit) : Entry :=
  Ev (MkdirSync scratchDir {| recursive := true; m_mode := Some (octal [7; 0; 0]) |}) r.

Definition regDir : Path := path_join scratchDir ["reg"].

Definition regMkdir (r : Result unit) : Entry :=
  Ev (Mkdir regDir {| recursive := true; m_mode := None |}) r.

(** Where the script is staged, given the twelve random bytes. *)
Definition scriptPath (bytes : list byte) : Path := path_join regDir [uint8ArrayToHex bytes].

Definition scriptWrite (bytes : list byte) (contents : string) (r : Result unit) : Entry :=
  Ev (WriteFile (scriptPath bytes) contents
        {| w_encoding := "utf-8"; w_mode := Some (octal [4; 0; 0]) |}) r.

(** The calls of [_writeToDisk] up to its first failure, and its outcome. *)
Definition stagingEnds (contents : string) (bytes : list byte) (r1 r2 r3 : Result unit)
    (t : list Entry) (o : Outcome Path) : Prop :=
  match r1, r2, r3 with
  | Failed e, _, _ => t = [Ev (RandomBytes 12) bytes; scratchMkdir r1] /\ o = Rejected e
  | Ok _, Failed e, _ =>
      t = [Ev (RandomBytes 12) bytes; scratchMkdir r1; regMkdir r2] /\ o = Rejected e
  | Ok _, Ok _, Failed e =>
      t = [Ev (RandomBytes 12) bytes; scratchMkdir r1; regMkdir r2; scriptWrite bytes contents r3] /\
      o = Rejected e
  | Ok _, Ok _, Ok _ =>
      t = [Ev (RandomBytes 12) bytes; scratchMkdir r1; regMkdir r2; scriptWrite bytes contents r3] /\
      o = Resolved (scriptPath bytes)
  end.

Definition regImport (file : Path) (status : ExitStatus) : Entry :=
  Ev (Spawn "reg.exe" [AStr "import"; APath file]
        {| stdio := ["ignore"; "inherit"; "inherit"]; detached := false |}) (OnExit status).

(** The same call when the process could not be started. *)
Definition regImportFailed (file : Path) (e : JsError) : Entry :=
  Ev (Spawn "reg.exe" [AStr "import"; APath file]
        {| stdio := ["ignore"; "inherit"; "inherit"]; detached := false |}) (OnError e).

Definition scriptUnlink (file : Path) (r : Result unit) : Entry := Ev (UnlinkSync file) r.

(** How the execution of a script ends once the helper process has exited
    with [status] and the removal of the staged file has answered. *)
Definition importOutcome (status : ExitStatus) (unlinked : Result unit) : Outcome unit :=
  match unlinked with
  | Failed e => Uncaught e
  | Ok _ =>
      if bool_decide (exit_code status = Some 0) then Resolved tt
      else Rejected (Error "couldn't execute registry script")
  end.
End StagingVocabulary.

(** The calls of the registrar. *)
Definition registerLog : Entry := Ev (LogDebug "trying to register mailto...") tt.
Definition unregisterLog : Entry := Ev (LogDebug "trying to unregister mailto...") tt.
Definition setDefault (granted : bool) : Entry := Ev (SetAsDefaultProtocolClient "mailto") granted.
Definition removeDefault (granted : bool) : Entry := Ev (RemoveAsDefaultProtocolClient "mailto") granted.

(** The attempt to open the settings page: one call, and the log of its
    failure when it fails. *)
Definition settingsAttempt (r : Result unit) : list Entry :=
  match r with
  | Ok _ => [Ev (OpenExternal "ms-settings:defaultapps") r]
  | Failed e =>
      [Ev (OpenExternal "ms-settings:defaultapps") r;
       Ev (ConsoleError ["failed to open default apps settings page:"; message e]) tt]
  end.

(** The scripts that the win32 flows execute. *)
Definition registerScript (env : Env) : string :=
  let appData := path_join ["%USERPROFILE%"] ["AppData"] in
  makeRegisterKeysScript env CURRENT_USER
    {| t_execPath := execPath env;
       t_dllPath := swapFilename (execPath env) "mapirs.dll";
       t_logPath := path_join appData ["Roaming"; appName env; "logs"];
       t_tmpPath := path_join appData ["Local"; "Temp"; topLevelTempDir; "attach"] |}.

Definition unregisterScript (env : Env) : string := makeUnregisterKeysScript env CURRENT_USER.

(** The milliseconds of a [delay], and the time a trace spends waiting. *)
Definition delayOf (e : Entry) : Z :=
  match e with
  | Ev c _ => match c with Delay ms => ms | _ => 0 end
  end.

Definition waited (t : list Entry) : Z := foldr (fun e acc => delayOf e + acc) 0 t.

Definition isSettingsCall (e : Entry) : bool :=
  match e with
  | Ev c _ => match c with OpenExternal _ => true | _ => false end
  end.

(** A call on the file system, or the start of a process. *)
Definition touchesFsOrSpawns (e : Entry) : bool :=
  match e with
  | Ev c _ =>
      match c with
      | ReadFile _ _ | WriteFile _ _ _ | Mkdir _ _ | MkdirSync _ _ | ReaddirSync _
      | RmSync _ _ | UnlinkSync _ | Spawn _ _ _ => true
      | _ => false
      end
  end.

(** How a win32 flow ends, given the execution [ts], [os] of its registry
    script: when the script failed, with that failure; otherwise with the
    calls [after] and the attempt to open the settings page, and normally. *)
Definition win32FlowEnds (before ts : list Entry) (os : Outcome unit) (after : list Entry)
    (t : list Entry) (o : Outcome unit) : Prop :=
  match os with
  | Resolved _ => exists r, t = before ++ ts ++ after ++ settingsAttempt r /\ o = Resolved tt
  | Rejected e => t = before ++ ts /\ o = Rejected e
  | Uncaught e => t = before ++ ts /\ o = Uncaught e
  end.

(** ** A concrete process and a concrete world *)

Definition exampleEnv (os : string) : Env :=
  {| platform := os;
     execPath := ["C:"; "Program Files"; "Tutanota Desktop"; "Tutanota Desktop.exe"];
     appVersion := "3.91.2";
     appName := "tutanota-desktop";
     tempPath := ["tmp"];
     makeRegisterKeysScript := fun _ _ => "register mailto";
     makeUnregisterKeysScript := fun _ => "unregister mailto" |}.

Definition exampleBytes : list byte :=
  [x00; x10; x20; x30; x40; x50; x60; x70; x80; x90; xa0; xb0; xc0; xd0; xe0; xff].

Definition exampleThis : DesktopUtils :=
  {| randomDirectoryName := base64ToBase64Url (uint8ArrayToBase64 exampleBytes) |}.

Definition exitedWith (n : Z) : ExitStatus := {| exit_code := Some n; exit_signal := None |}.

Definition killedBy (signal : string) : ExitStatus :=
  {| exit_code := None; exit_signal := Some signal |}.

(** A world with an empty temp directory, the usual umask, and a helper
    process that will be killed. *)
Definition exampleWorld : Mem.World :=
  {| Mem.files := {[ ["tmp"] := Mem.Dir (octal [7; 7; 7]) ]};
     Mem.umask := octal [0; 2; 2];
     Mem.entropy := [xde; xad; xbe; xef; x00; x01; x02; x03; x04; x05; x06; x07];
     Mem.lockGrants := [false; false];
     Mem.protocolGrants := [];
     Mem.exits := [OnExit (killedBy "SIGKILL")];
     Mem.settings := [Failed (Error "no handler for ms-settings")];
     Mem.clock := 0;
     Mem.quitted := false |}.

(** The error of a [spawn] that does not find its executable, and the
    example world with a helper process that cannot be started. *)
Definition spawnENOENT : JsError :=
  {| err_name := "Error"; message := "spawn reg.exe ENOENT"; code := Some "ENOENT" |}.

Definition helperlessWorld : Mem.World :=
  {| Mem.files := Mem.files exampleWorld;
     Mem.umask := Mem.umask exampleWorld;
     Mem.entropy := Mem.entropy exampleWorld;
     Mem.lockGrants := Mem.lockGrants exampleWorld;
     Mem.protocolGrants := Mem.protocolGrants exampleWorld;
     Mem.exits := [OnError spawnENOENT];
     Mem.settings := Mem.settings exampleWorld;
     Mem.clock := Mem.clock exampleWorld;
     Mem.quitted := Mem.quitted exampleWorld |}.

(** The staged script of the example world. *)
Definition exampleScript : Path :=
  scriptPath (exampleEnv "win32") exampleThis (Mem.nextBytes 12 exampleWorld).

(** A registration on win32 in which the helper process succeeds and the
    settings page cannot be opened. *)
Definition exampleStaging : list Entry :=
  let env := exampleEnv "win32" in
  let bytes := Mem.nextBytes 12 exampleWorld in
  [Ev (RandomBytes 12) bytes; scratchMkdir env exampleThis (Ok tt); regMkdir env exampleThis (Ok tt);
   scriptWrite env exampleThis bytes (registerScript env) (Ok tt)].

Definition exampleRegistration : list Entry :=
  [registerLog] ++
  (exampleStaging ++ [regImport exampleScript (exitedWith 0); scriptUnlink exampleScript (Ok tt)]) ++
  [setDefault true] ++ settingsAttempt (Failed (Error "no handler for ms-settings")).


(** ** [isRectContainedInRect] *)

(** Electron's [Rectangle]: the origin and the size, four integers. *)
Module Rect.
Record Rectangle : Type := { x : Z; y : Z; width : Z; height : Z }.
End Rect.

Abbreviation Rectangle := Rect.Rectangle.

(** Lines 279-286.  The sums are sums of integers far below 2^53, where
    the arithmetic of the source is the one of [Z]. *)
Definition isRectContainedInRect (closestRect lastBounds : Rectangle) : bool :=
  (Rect.x lastBounds >=? Rect.x closestRect - 10)%Z &&
  (Rect.y lastBounds >=? Rect.y closestRect - 10)%Z &&
  (Rect.width lastBounds + Rect.x lastBounds <=? Rect.width closestRect + 10)%Z &&
  (Rect.height lastBounds + Rect.y lastBounds <=? Rect.height closestRect + 10)%Z.

(** [inner] lies within [outer] grown by [margin] on each of its four
    sides. *)
Definition withinMargin (margin : Z) (outer inner : Rectangle) : Prop :=
  Rect.x outer - margin <= Rect.x inner /\
  Rect.y outer - margin <= Rect.y inner /\
  Rect.x inner + Rect.width inner <= Rect.x outer + Rect.width outer + margin /\
  Rect.y inner + Rect.height inner <= Rect.y outer + Rect.height outer + margin.

(** A display of 1920 by 1080 at the origin, the same display to the right
    of it and a third one further right, and a window. *)
Definition primaryDisplay : Rectangle :=
  {| Rect.x := 0; Rect.y := 0; Rect.width := 1920; Rect.height := 1080 |}.

Definition secondDisplay : Rectangle :=
  {| Rect.x := 1920; Rect.y := 0; Rect.width := 1920; Rect.height := 1080 |}.

Definition thirdDisplay : Rectangle :=
  {| Rect.x := 3840; Rect.y := 0; Rect.width := 1920; Rect.height := 1080 |}.

Definition exampleWindow : Rectangle :=
  {| Rect.x := 200; Rect.y := 100; Rect.width := 1280; Rect.height := 800 |}.

(** ** [touch] *)

(** [touch] makes two synchronous calls of [FsExports], which answer with
    a file descriptor and with nothing; either can throw.  The world of the
    two calls is passed along. *)
Record FsSync (W : Type) : Type := {
  openSync : Path -> string -> W -> Result Z * W;
  closeSync : Z -> W -> Result unit * W
}.
Arguments openSync {W} _ _ _ _.
Arguments closeSync {W} _ _ _.

(** Lines 40-42. *)
Definition touch {W : Type} (fs : FsSync W) (path : Path) (w : W) : Result unit * W :=
  match openSync fs path "a" w with
  | (Ok fd, w1) => closeSync fs fd w1
  | (Failed e, w1) => (Failed e, w1)
  end.

(** The permission of the owner of a directory to search it, and the three
    permissions together. *)
Definition ownerSearch : Z := octal [1; 0; 0].


(** The in-memory file system with a table of open descriptors.  Here the
    mode of a directory is looked at: a path is resolved through
    directories that their owner may search, and a file is created in a
    directory that its owner may write. *)
Module MemFd.

Record World : Type := {
  disk : Mem.World;
  descriptors : gmap Z Path            (* the open descriptors and their files *)
}.

Definition opened (p : Path) (w : World) : Result Z * World :=
  let fd := fresh (dom (descriptors w)) in
  (Ok fd, {| disk := disk w; descriptors := <[fd := p]> (descriptors w) |}).

(** The walk from [base] down the directories [dirs]: it ends with ENOENT
    at a segment that is not there, with ENOTDIR at one that is a file, and
    with EACCES at a directory that its owner may not search. *)
Fixpoint walk (fs : gmap Path Mem.Node) (base dirs : Path) : Result unit :=
  match dirs with
  | [] => Ok tt
  | s :: dirs' =>
      match fs !! (base ++ [s]) with
      | Some (Mem.Dir mode) =>
          if Mem.allows mode ownerSearch then walk fs (base ++ [s]) dirs'
          else Failed (Mem.fsError "EACCES")
      | Some (Mem.File _ _) => Failed (Mem.fsError "ENOTDIR")
      | None => Failed (Mem.fsError "ENOENT")
      end
  end.

(** Whether an entry may be added to the directory [dir]: to the root, and
    to a directory that its owner may write. *)
Definition mayAddTo (fs : gmap Path Mem.Node) (dir : Path) : bool :=
  match dir with
  | [] => true
  | _ =>
      match fs !! dir with
      | Some (Mem.Dir mode) => Mem.allows mode Mem.ownerWrite
      | _ => false
      end
  end.

(** [open] for writing: [O_WRONLY | O_CREAT], with [O_TRUNC] for flag "w"
    and [O_APPEND] for flag "a".  The directories above [p] are walked
    first.  A file that is there needs the write permission of its owner
    and is emptied when [truncate] is set; a file that is not there is
    created empty, with the default mode 0o666 without the bits of the
    umask, when an entry may be added to the directory. *)
Definition openForWriting (truncate : bool) (p : Path) (w : World) : Result Z * World :=
  let fs := Mem.files (disk w) in
  match p with
  | [] => (Failed (Mem.fsError "EISDIR"), w)
  | _ =>
      match walk fs [] (removelast p) with
      | Failed e => (Failed e, w)
      | Ok _ =>
          match fs !! p with
          | Some (Mem.File content mode) =>
              if Mem.allows mode Mem.ownerWrite then
                opened p
                  {| disk :=
                       Mem.withFiles (if truncate then <[p := Mem.File "" mode]> fs else fs) (disk w);
                     descriptors := descriptors w |}
              else (Failed (Mem.fsError "EACCES"), w)
          | Some (Mem.Dir _) => (Failed (Mem.fsError "EISDIR"), w)
          | None =>
              if mayAddTo fs (removelast p) then
                opened p
                  {| disk :=
                       Mem.withFiles
                         (<[p := Mem.File ""
                                   (Mem.effectiveMode None (octal [6; 6; 6]) (Mem.umask (disk w)))]> fs)
                         (disk w);
                     descriptors := descriptors w |}
              else (Failed (Mem.fsError "EACCES"), w)
          end
      end
  end.

Definition openForReading (p : Path) (w : World) : Result Z * World :=
  let fs := Mem.files (disk w) in
  match walk fs [] (removelast p) with
  | Failed e => (Failed e, w)
  | Ok _ =>
      match fs !! p with
      | Some (Mem.File _ mode) =>
          if Mem.allows mode Mem.ownerRead then opened p w else (Failed (Mem.fsError "EACCES"), w)
      | Some (Mem.Dir _) => opened p w
      | None => if Mem.isDir fs p then opened p w else (Failed (Mem.fsError "ENOENT"), w)
      end
  end.

Definition fs : FsSync World :=
  {| openSync := fun p flags w =>
       if String.eqb flags "a" then openForWriting false p w
       else if String.eqb flags "w" then openForWriting true p w
       else if String.eqb flags "r" then openForReading p w
       else (Failed {| err_name := "TypeError"; message := "ERR_INVALID_ARG_VALUE";
                       code := Some "ERR_INVALID_ARG_VALUE" |}, w);
     closeSync := fun fd w =>
       match descriptors w !! fd with
       | Some _ => (Ok tt, {| disk := disk w; descriptors := delete fd (descriptors w) |})
       | None => (Failed (Mem.fsError "EBADF"), w)
       end |}.

End MemFd.

(** ** Two instances *)

(** The environment of an instance that starts while another instance,
    [peer], is running: while the starting instance waits, the running one
    runs its own [singleInstanceLockOverridden], and so sees what the
    starting one wrote (the comment of lines 117-120). *)
Definition besidePeer (peer : Env) (X : Type) (c : Call X) (w : Mem.World) : X * Mem.World :=
  match c in Call X return X * Mem.World with
  | Delay ms =>
      Mem.handle _ (Delay ms) (final (run Mem.handle (singleInstanceLockOverridden peer) w))
  | c' => Mem.handle _ c' w
  end.

(** ** More vocabulary for traces *)

(** A call of [setAsDefaultProtocolClient] or [removeAsDefaultProtocolClient]. *)
Definition isProtocolCall (e : Entry) : bool :=
  match e with
  | Ev c _ =>
      match c with
      | SetAsDefaultProtocolClient _ | RemoveAsDefaultProtocolClient _ => true
      | _ => false
      end
  end.

(** A path strictly below [dir]. *)
Definition below (dir q : Path) : Prop := exists name rest, q = dir ++ name :: rest.


(** What leaves the promise of [_executeRegistryScript] unsettled: the
    helper process that cannot be started, and the staged file that cannot
    be removed. *)
Definition unsettles (file : Path) (e : JsError) (entry : Entry) : Prop :=
  entry = regImportFailed file e \/ entry = scriptUnlink file (Failed e).

(** A running instance of another version, and a world in which the lock
    file is there and the OS lock is held by that instance. *)
Definition olderEnv : Env :=
  {| platform := "linux";
     execPath := ["opt"; "tutanota-desktop"; "tutanota-desktop"];
     appVersion := "3.90.0";
     appName := "tutanota-desktop";
     tempPath := ["tmp"];
     makeRegisterKeysScript := fun _ _ => "register mailto";
     makeUnregisterKeysScript := fun _ => "unregister mailto" |}.

Definition lockedWorld : Mem.World :=
  {| Mem.files :=
       {[ ["tmp"] := Mem.Dir (octal [7; 7; 7]);
          ["tmp"; "tutanota_desktop_lockfile"] := Mem.File "3.90.0" (octal [6; 4; 4]);
          ["tmp"; "tutanota"] := Mem.Dir (octal [7; 0; 0]);
          ["tmp"; "tutanota"; "stale"] := Mem.Dir (octal [7; 0; 0]);
          ["tmp"; "tutanota"; "stale"; "mail.eml"] := Mem.File "Subject: hello" (octal [6; 0; 0]) ]};
     Mem.umask := octal [0; 2; 2];
     Mem.entropy := [];
     Mem.lockGrants := [false; true];
     Mem.protocolGrants := [];
     Mem.exits := [];
     Mem.settings := [];
     Mem.clock := 0;
     Mem.quitted := false |}.

(** A world in which the top-level directory may not be changed and holds
    a regular file. *)
Definition readOnlyDirWorld : Mem.World :=
  Mem.withFiles
    {[ ["tmp"] := Mem.Dir (octal [7; 7; 7]);
       ["tmp"; "tutanota"] := Mem.Dir (octal [5; 0; 0]);
       ["tmp"; "tutanota"; "notes.txt"] := Mem.File "notes" (octal [6; 0; 0]) ]}
    lockedWorld.

(** The same files, with the three standard descriptors open. *)
Definition lockedFdWorld : MemFd.World :=
  {| MemFd.disk := lockedWorld;
     MemFd.descriptors := {[ 0 := ["dev"; "stdin"]; 1 := ["dev"; "stdout"]; 2 := ["dev"; "stderr"] ]} |}.

(** The same world with a lock file that its owner may neither read nor
    write, and one with a regular file in the place of the top-level
    directory. *)
Definition unreadableWorld : Mem.World :=
  Mem.withFiles
    {[ ["tmp"] := Mem.Dir (octal [7; 7; 7]);
       ["tmp"; "tutanota_desktop_lockfile"] := Mem.File "3.90.0" (octal [0; 0; 0]) ]}
    lockedWorld.

Definition blockedWorld : Mem.World :=
  Mem.withFiles
    {[ ["tmp"] := Mem.Dir (octal [7; 7; 7]);
       ["tmp"; "tutanota"] := Mem.File "not a directory" (octal [6; 4; 4]) ]}
    lockedWorld.

(** A registration on win32 in which the helper process succeeds and the
    removal of the staged script fails. *)
Definition exampleImport (unlinked : Result unit) : list Entry :=
  exampleStaging ++ [regImport exampleScript (exitedWith 0); scriptUnlink exampleScript unlinked].
(** * Properties *)

(** ** The encoders *)

Example base64_Man : uint8ArrayToBase64 ["M"; "a"; "n"]%byte = "TWFu".
Proof. reflexivity. Qed.

Example base64_Ma : uint8ArrayToBase64 ["M"; "a"]%byte = "TWE=".
Proof. reflexivity. Qed.

Example base64url_ff : base64ToBase64Url (uint8ArrayToBase64 [xff; xfe; xfb]%byte) = "__77".
Proof. reflexivity. Qed.

Example hex_00ff : uint8ArrayToHex [x00; xff; x1a]%byte = "00ff1a".
Proof. reflexivity. Qed.


Lemma charAt_base64 (n : nat) :
  (n < 64)%nat ->
  Ascii.eqb (charAt base64Alphabet (Z.of_nat n)) "=" = false /\
  isUrlSafe (urlChar (charAt base64Alphabet (Z.of_nat n))) = true.
Proof.
  intros Hn.
  do 64 (destruct n as [|n]; [by vm_compute|]). lia.
Qed.

Lemma sextet_digit (g i : Z) :
  Ascii.eqb (sextet g i) "=" = false /\ isUrlSafe (urlChar (sextet g i)) = true.
Proof.
  unfold sextet. set (x := Z.shiftr g (18 - 6 * i)).
  assert (0 <= Z.land x 63 < 64) as Hv.
  { change 63 with (Z.ones 6). rewrite Z.land_ones by lia. apply Z.mod_pos_bound. lia. }
  rewrite <- (Z2Nat.id (Z.land x 63)) by lia.
  apply charAt_base64. lia.
Qed.

Lemma base64ToBase64Url_digit (c : ascii) (s : string) :
  Ascii.eqb c "=" = false ->
  base64ToBase64Url (String c s) = String (urlChar c) (base64ToBase64Url s).
Proof.
  intros Hc. simpl. unfold urlChar. rewrite Hc.
  by destruct (Ascii.eqb c "+"), (Ascii.eqb c "/").
Qed.

(** The name derived from sixteen bytes: twenty-two characters, none of
    them outside the URL-safe alphabet, so it is one path segment. *)
Lemma base64url_of_16_bytes (bytes : list byte) :
  length bytes = 16%nat ->
  String.length (base64ToBase64Url (uint8ArrayToBase64 bytes)) = 22%nat /\
  Forall (fun c => isUrlSafe c = true)
    (list_ascii_of_string (base64ToBase64Url (uint8ArrayToBase64 bytes))).
Proof.
  intros Hlen.
  do 16 (destruct bytes as [|? bytes]; [done|]). destruct bytes; [|done].
  cbn [uint8ArrayToBase64].
  rewrite !base64ToBase64Url_digit by apply sextet_digit.
  change (base64ToBase64Url "==") with "".
  split; [reflexivity|].
  cbn [list_ascii_of_string]. repeat constructor; apply sextet_digit.
Qed.

Lemma hex_pair (b : byte) :
  isHexDigit (charAt hexDigits (Z.shiftr (byteToZ b) 4)) = true /\
  isHexDigit (charAt hexDigits (Z.land (byteToZ b) 15)) = true.
Proof. destruct b; by vm_compute. Qed.

(** The name derived from [n] bytes: [2 * n] hexadecimal digits. *)
Lemma uint8ArrayToHex_digits (bytes : list byte) :
  String.length (uint8ArrayToHex bytes) = (2 * length bytes)%nat /\
  Forall (fun c => isHexDigit c = true) (list_ascii_of_string (uint8ArrayToHex bytes)).
Proof.
  induction bytes as [|b bytes [IHlen IHall]]; [by split; [|constructor]|].
  cbn [uint8ArrayToHex String.length list_ascii_of_string length]. split.
  - rewrite IHlen. lia.
  - destruct (hex_pair b). by repeat constructor.
Qed.

(** ** Executions of composed programs *)

Section ExecFacts.
Context {A B : Type}.

Lemma exec_bind (p : Prog A) (f : A -> Prog B) (t : list Entry) (o : Outcome B) :
  exec (bind p f) t o <->
  (exists a t1 t2, t = t1 ++ t2 /\ exec p t1 (Resolved a) /\ exec (f a) t2 o) \/
  (exists e, exec p t (Rejected e) /\ o = Rejected e) \/
  (exists e, exec p t (Uncaught e) /\ o = Uncaught e).
Proof.
  revert t. induction p as [a|e|e|X c k IH]; intros t; simpl.
  - split.
    + intros H. left. exists a, [], t. auto.
    + intros [(a' & t1 & t2 & -> & [-> Ha] & H)|[(e & [_ He] & _)|(e & [_ He] & _)]];
        try discriminate.
      injection Ha as <-. exact H.
  - split.
    + intros [-> ->]. right. left. eauto.
    + intros [(a' & t1 & t2 & _ & [_ Ha] & _)|[(e' & [-> He] & ->)|(e' & [_ He] & _)]];
        try discriminate.
      injection He as <-. auto.
  - split.
    + intros [-> ->]. right. right. eauto.
    + intros [(a' & t1 & t2 & _ & [_ Ha] & _)|[(e' & [_ He] & _)|(e' & [-> He] & ->)]];
        try discriminate.
      injection He as <-. auto.
  - split.
    + intros (x & t' & -> & H). apply IH in H.
      destruct H as [(a & t1 & t2 & -> & H1 & H2)|[(e & H1 & ->)|(e & H1 & ->)]].
      * left. exists a, (Ev c x :: t1), t2. split; [done|]. split; [|done]. eauto.
      * right. left. exists e. split; [|done]. eauto.
      * right. right. exists e. split; [|done]. eauto.
    + intros [(a & t1 & t2 & -> & (x & t' & -> & H1) & H2)
             |[(e & (x & t' & -> & H1) & ->)|(e & (x & t' & -> & H1) & ->)]];
        exists x; eexists; (split; [reflexivity|]); apply IH.
      * left. eauto 6.
      * right. left. eauto.
      * right. right. eauto.
Qed.
End ExecFacts.

Section ExecCatch.
Context {A : Type}.

Lemma exec_try_catch (p : Prog A) (h : JsError -> Prog A) (t : list Entry) (o : Outcome A) :
  exec (try_catch p h) t o <->
  (exists a, exec p t (Resolved a) /\ o = Resolved a) \/
  (exists e t1 t2, t = t1 ++ t2 /\ exec p t1 (Rejected e) /\ exec (h e) t2 o) \/
  (exists e, exec p t (Uncaught e) /\ o = Uncaught e).
Proof.
  revert t. induction p as [a|e|e|X c k IH]; intros t; simpl.
  - split.
    + intros [-> ->]. left. eauto.
    + intros [(a' & [-> Ha] & ->)|[(e & t1 & t2 & _ & [_ He] & _)|(e & [_ He] & _)]];
        try discriminate.
      injection Ha as <-. auto.
  - split.
    + intros H. right. left. exists e, [], t. auto.
    + intros [(a' & [_ Ha] & _)|[(e' & t1 & t2 & -> & [-> He] & H)|(e' & [_ He] & _)]];
        try discriminate.
      injection He as <-. exact H.
  - split.
    + intros [-> ->]. right. right. eauto.
    + intros [(a' & [_ Ha] & _)|[(e' & t1 & t2 & _ & [_ He] & _)|(e' & [-> He] & ->)]];
        try discriminate.
      injection He as <-. auto.
  - split.
    + intros (x & t' & -> & H). apply IH in H.
      destruct H as [(a & H1 & ->)|[(e & t1 & t2 & -> & H1 & H2)|(e & H1 & ->)]].
      * left. exists a. split; [|done]. eauto.
      * right. left. exists e, (Ev c x :: t1), t2. split; [done|]. split; [|done]. eauto.
      * right. right. exists e. split; [|done]. eauto.
    + intros [(a & (x & t' & -> & H1) & ->)
             |[(e & t1 & t2 & -> & (x & t' & -> & H1) & H2)|(e & (x & t' & -> & H1) & ->)]];
        exists x; eexists; (split; [reflexivity|]); apply IH.
      * left. eauto.
      * right. left. eauto 6.
      * right. right. eauto.
Qed.
End ExecCatch.

Lemma Ev_inj {X : Type} (c : Call X) (x y : X) : Ev c x = Ev c y -> x = y.
Proof. intros H. injection H as H. by apply inj_pair2 in H. Qed.

(** The outcome is a function of the answers received. *)
Lemma exec_functional {A : Type} (p : Prog A) (t : list Entry) (o1 o2 : Outcome A) :
  exec p t o1 -> exec p t o2 -> o1 = o2.
Proof.
  revert t. induction p as [a|e|e|X c k IH]; intros t; simpl.
  1-3: intros [_ ->] [_ ->]; reflexivity.
  intros (x1 & t1 & -> & H1) (x2 & t2 & Heq & H2).
  injection Heq as Hc <-. apply inj_pair2 in Hc. subst x2. eauto.
Qed.

(** [await c] under a handler: the answer [Ok x] resolves to [x], a failure
    runs the handler. *)
Lemma exec_catch_await {X : Type} (c : Call (Result X)) (h : JsError -> Prog X)
    (t : list Entry) (o : Outcome X) :
  exec (try_catch (await c) h) t o <->
  (exists x, t = [Ev c (Ok x)] /\ o = Resolved x) \/
  (exists e t', t = Ev c (Failed e) :: t' /\ exec (h e) t' o).
Proof.
  simpl. split.
  - intros ([x|e] & t' & -> & H); simpl in H.
    + destruct H as [-> ->]. left. eauto.
    + right. eauto.
  - intros [(x & -> & ->)|(e & t' & -> & H)].
    + exists (Ok x). eexists. split; [reflexivity|]. simpl. done.
    + exists (Failed e). eexists. split; [reflexivity|]. simpl. done.
Qed.

(** ** LockCoordinator *)

Section LockCoordinator.
Context (env : Env).

(** The executions of [singleInstanceLockOverridden], against every
    environment. *)
Lemma exec_singleInstanceLockOverridden (t : list Entry) (o : Outcome bool) :
  exec (singleInstanceLockOverridden env) t o <->
  (exists e, t = [lockRead env (Failed e)] /\ o = Resolved false) \/
  (exists observed e,
      t = [lockRead env (Ok observed); lockWrite env (Failed e)] /\ o = Resolved false) \/
  (exists observed canStay,
      t = [lockRead env (Ok observed); lockWrite env (Ok tt)] /\ o = Resolved canStay /\
      (canStay = true <-> observed <> appVersion env)).
Proof.
  unfold singleInstanceLockOverridden, lockRead, lockWrite. simpl. split.
  - intros ([observed|e] & t1 & -> & H); simpl in H.
    + destruct H as ([[]|e] & t2 & -> & [-> ->]).
      * right. right. exists observed, (negb (observed =? appVersion env))%string.
        split; [done|]. split; [done|].
        rewrite negb_true_iff. apply String.eqb_neq.
      * right. left. eauto.
    + destruct H as [-> ->]. left. eauto.
  - intros [(e & -> & ->)|[(observed & e & -> & ->)|(observed & canStay & -> & -> & Hc)]].
    + exists (Failed e). eexists. split; [reflexivity|]. simpl. done.
    + exists (Ok observed). eexists. split; [reflexivity|]. simpl.
      exists (Failed e). eexists. split; [reflexivity|]. simpl. done.
    + exists (Ok observed). eexists. split; [reflexivity|]. simpl.
      exists (Ok tt). eexists. split; [reflexivity|]. simpl. split; [done|].
      f_equal. destruct canStay; symmetry.
      * apply negb_true_iff, String.eqb_neq. tauto.
      * apply negb_false_iff, String.eqb_eq.
        destruct (decide (observed = appVersion env)) as [|Hne]; [done|].
        apply Hc in Hne. discriminate.
Qed.

Lemma singleInstanceLockOverridden_resolves (t : list Entry) (o : Outcome bool) :
  exec (singleInstanceLockOverridden env) t o -> exists canStay, o = Resolved canStay.
Proof.
  unfold singleInstanceLockOverridden. simpl.
  intros ([observed|e] & t1 & -> & H); simpl in H.
  - destruct H as ([[]|e] & t2 & -> & [-> ->]); eauto.
  - destruct H as [-> ->]. eauto.
Qed.

Lemma singleInstanceLockOverridden_differs (observed : string) :
  observed <> appVersion env ->
  exec (singleInstanceLockOverridden env)
    [lockRead env (Ok observed); lockWrite env (Ok tt)] (Resolved true).
Proof.
  intros Hne. exists (Ok observed). eexists. split; [reflexivity|]. simpl.
  exists (Ok tt). eexists. split; [reflexivity|]. simpl. split; [done|].
  f_equal. symmetry. by apply negb_true_iff, String.eqb_neq.
Qed.

(** The first step: the write of the own version, whose failure is
    swallowed. *)
Lemma best_effort_write (t : list Entry) (o : Outcome unit) :
  exec (try_catch (await (WriteFile (getLockFilePath env) (appVersion env)
                            {| w_encoding := "utf8"; w_mode := None |})) noOp) t o <->
  exists w, t = [lockWrite env w] /\ o = Resolved tt.
Proof.
  rewrite exec_catch_await. unfold lockWrite. split.
  - intros [([] & -> & ->)|(e & t' & -> & [-> ->])]; eauto.
  - intros ([[]|e] & -> & ->); [left; eauto|right]. exists e, []. done.
Qed.

Opaque singleInstanceLockOverridden.

(** The executions of [makeSingleInstance], against every environment. *)
Lemma exec_makeSingleInstance (t : list Entry) (o : Outcome bool) :
  exec (makeSingleInstance env) t o <->
  exists w,
    (t = [lockWrite env w; lockRequest true] /\ o = Resolved true) \/
    (exists tc canStay last,
        exec (singleInstanceLockOverridden env) tc (Resolved canStay) /\
        t = [lockWrite env w; lockRequest false; Ev (Delay 1500) tt] ++ tc ++ [last] /\
        o = Resolved canStay /\
        if canStay then exists granted, last = lockRequest granted else last = Ev Quit tt).
Proof.
  unfold makeSingleInstance, mbind, Prog_bind, mret, Prog_ret. split.
  - intros H. apply exec_bind in H.
    destruct H as [(a & t1 & t2 & -> & H1 & H2)|[(e & H1 & _)|(e & H1 & _)]].
    2,3: apply best_effort_write in H1 as (w & _ & ?); discriminate.
    apply best_effort_write in H1 as (w & -> & _). exists w.
    destruct H2 as ([] & t' & -> & H2); simpl in H2.
    + destruct H2 as [-> ->]. left. done.
    + right. destruct H2 as ([] & t2 & -> & H2); simpl in H2.
      apply exec_bind in H2.
      destruct H2 as [(canStay & tc & t3 & -> & Hc & H3)|[(e & Hc & _)|(e & Hc & _)]].
      2,3: apply singleInstanceLockOverridden_resolves in Hc as [? ?]; discriminate.
      exists tc, canStay.
      destruct canStay.
      * destruct H3 as (granted & t4 & -> & [-> ->]). exists (lockRequest granted). eauto.
      * destruct H3 as ([] & t4 & -> & [-> ->]). exists (Ev Quit tt). eauto.
  - intros (w & [[-> ->]|(tc & canStay & last & Hc & -> & -> & Hlast)]).
    + apply exec_bind. left. exists tt, [lockWrite env w], [lockRequest true].
      split; [done|]. split; [apply best_effort_write; eauto|].
      exists true. eexists. split; [reflexivity|]. done.
    + apply exec_bind. left.
      exists tt, [lockWrite env w], ([lockRequest false; Ev (Delay 1500) tt] ++ tc ++ [last]).
      split; [done|]. split; [apply best_effort_write; eauto|].
      exists false. eexists. split; [reflexivity|].
      exists tt. eexists. split; [reflexivity|]. simpl.
      apply exec_bind. left. exists canStay, tc, [last]. split; [done|]. split; [done|].
      destruct canStay.
      * destruct Hlast as [granted ->]. exists granted, []. done.
      * subst last. exists tt, []. done.
Qed.

(** C9.  When the first request of the OS lock is refused and the lock file
    is found to hold another version, [makeSingleInstance] requests the OS
    lock once more and resolves to [true] whatever that second request
    answers, also when it is refused again. *)
Theorem makeSingleInstance_ignores_retry_result
    (w : Result unit) (observed : string) (granted : bool) (o : Outcome bool) :
  observed <> appVersion env ->
  exec (makeSingleInstance env) (refusedThenRetried env w observed granted) o <->
  o = Resolved true.
Proof.
  intros Hne.
  assert (exec (makeSingleInstance env) (refusedThenRetried env w observed granted) (Resolved true))
    as Hrun.
  { unfold makeSingleInstance, mbind, Prog_bind, mret, Prog_ret, refusedThenRetried.
    apply exec_bind. left.
    exists tt, [lockWrite env w]. eexists. split; [reflexivity|].
    split; [apply best_effort_write; eauto|].
    exists false. eexists. split; [reflexivity|].
    exists tt. eexists. split; [reflexivity|]. simpl.
    apply exec_bind. left.
    exists true, [lockRead env (Ok observed); lockWrite env (Ok tt)], [lockRequest granted].
    split; [done|]. split; [by apply singleInstanceLockOverridden_differs|].
    exists granted, []. done. }
  split.
  - intros H. exact (exec_functional _ _ _ _ H Hrun).
  - intros ->. exact Hrun.
Qed.
End LockCoordinator.

(** ** ScratchAreaManager: the purge *)

Section Purge.
Context (env : Env).

Lemma exec_removeEntry (tmp : string) (t : list Entry) (o : Outcome unit) :
  exec (removeEntry env tmp) t o <->
  exists r, t = [removal env tmp r] /\
    o = match r with
        | Ok _ => Resolved tt
        | Failed e => if tolerated e then Resolved tt else Rejected e
        end.
Proof.
  unfold removeEntry. rewrite exec_catch_await. unfold removal, tolerated. split.
  - intros [([] & -> & ->)|(e & t' & -> & H)].
    + exists (Ok tt). done.
    + exists (Failed e).
      destruct (codeIs e "ENOENT"), (codeIs e "EACCES"); simpl in *;
        destruct H as [-> ->]; done.
  - intros ([[]|e] & -> & ->).
    + left. eauto.
    + right. exists e, [].
      destruct (codeIs e "ENOENT"), (codeIs e "EACCES"); simpl; done.
Qed.

Lemma removals_nil_r (tmps : list string) : removals env tmps [] = [].
Proof. by destruct tmps. Qed.

Lemma exec_sweep (tmps : list string) (t : list Entry) (o : Outcome unit) :
  exec (forOf tmps (removeEntry env)) t o <->
  exists rs, t = removals env tmps rs /\ sweepEnds tmps rs o.
Proof.
  revert t. induction tmps as [|tmp rest IH]; intros t.
  - simpl. split.
    + intros [-> ->]. exists []. split; [done|]. left. done.
    + intros (rs & -> & [(Hlen & _ & ->)|(pre & e & -> & Hlen & _)]).
      * done.
      * rewrite length_app in Hlen. simpl in Hlen. lia.
  - change (forOf (tmp :: rest) (removeEntry env))
      with (bind (removeEntry env tmp) (fun _ => forOf rest (removeEntry env))).
    rewrite exec_bind. setoid_rewrite exec_removeEntry. setoid_rewrite IH. split.
    + intros [(a & t1 & t2 & -> & (r & -> & Hr) & (rs & -> & Hrs))
             |[(e & (r & -> & Hr) & ->)|(e & (r & -> & Hr) & ->)]].
      * exists (r :: rs). split; [done|].
        assert (passes r = true) as Hp.
        { destruct r as [[]|e]; [done|]. simpl. by destruct (tolerated e). }
        destruct Hrs as [(Hlen & Hall & ->)|(pre & e & -> & Hlen & Hall & He & ->)].
        -- left. simpl. auto.
        -- right. exists (r :: pre), e. simpl. repeat split; auto. lia.
      * exists [r]. split; [simpl; by rewrite removals_nil_r|]. right.
        destruct r as [[]|e']; [done|].
        destruct (tolerated e') eqn:He'; [done|]. injection Hr as ->.
        exists [], e'. simpl. repeat split; auto. lia.
      * destruct r as [[]|e']; [done|]. by destruct (tolerated e').
    + intros (rs & -> & Hrs). destruct rs as [|r rs].
      { destruct Hrs as [(Hlen & _)|(pre & e & Hnil & _)]; [done|].
        by destruct pre. }
      destruct Hrs as [(Hlen & Hall & ->)|(pre & e & Hrs & Hlen & Hall & He & ->)].
      * left. exists tt, [removal env tmp r], (removals env rest rs).
        split; [done|]. apply Forall_cons in Hall as [Hp Hall]. split.
        -- exists r. split; [done|]. destruct r as [[]|e]; [done|].
           simpl in Hp. by rewrite Hp.
        -- exists rs. split; [done|]. left. simpl in Hlen. auto.
      * destruct pre as [|d pre]; simpl in Hrs; injection Hrs as -> ->.
        -- right. left. exists e. split; [|done].
           exists (Failed e). split; [simpl; by rewrite removals_nil_r|]. by rewrite He.
        -- left. exists tt, [removal env tmp d], (removals env rest (pre ++ [Failed e])).
           split; [done|]. apply Forall_cons in Hall as [Hp Hall]. split.
           ++ exists d. split; [done|]. destruct d as [[]|e']; [done|].
              simpl in Hp. by rewrite Hp.
           ++ eexists. split; [done|]. right. exists pre, e.
              simpl in Hlen. repeat split; auto. lia.
Qed.

(** The executions of [deleteTutanotaTempDir], against every environment. *)
Lemma exec_deleteTutanotaTempDir (t : list Entry) (o : Outcome unit) :
  exec (deleteTutanotaTempDir env) t o <->
  (exists e, t = [listing env (Failed e)] /\
             o = if codeIs e "ENOENT" then Resolved tt else Rejected e) \/
  (exists tmps rs, t = listing env (Ok tmps) :: removals env tmps rs /\ sweepEnds tmps rs o).
Proof.
  unfold deleteTutanotaTempDir, mbind, Prog_bind. simpl.
  fold (topLvlTmpDir env). fold (removeEntry env). unfold listing. split.
  - intros ([tmps|e] & t' & -> & H); simpl in H.
    + right. exists tmps. apply exec_try_catch in H.
      destruct H as [(a & H & ->)|[(e & t1 & t2 & -> & H & Hh)|(e & H & ->)]];
        apply exec_sweep in H as (rs & -> & Hrs).
      * exists rs. split; [done|].
        destruct Hrs as [(? & ? & Ho)|(? & ? & ? & ? & ? & ? & Ho)]; [|done].
        left. destruct a. auto.
      * exists rs.
        destruct Hrs as [(? & ? & Ho)|(pre & e' & -> & Hlen & Hall & He & Ho)]; [done|].
        injection Ho as <-.
        assert (codeIs e "ENOENT" = false) as Hno.
        { unfold tolerated in He. by destruct (codeIs e "ENOENT"). }
        rewrite Hno in Hh. simpl in Hh. destruct Hh as [-> ->].
        rewrite app_nil_r. split; [done|]. right. exists pre, e. auto.
      * destruct Hrs as [(? & ? & Ho)|(? & ? & ? & ? & ? & ? & Ho)]; done.
    + left. exists e. destruct (codeIs e "ENOENT"); simpl in H; destruct H as [-> ->]; done.
  - intros [(e & -> & ->)|(tmps & rs & -> & Hrs)].
    + exists (Failed e). eexists. split; [reflexivity|]. simpl.
      destruct (codeIs e "ENOENT"); done.
    + exists (Ok tmps). eexists. split; [reflexivity|]. simpl.
      apply exec_try_catch.
      destruct Hrs as [(Hlen & Hall & ->)|(pre & e & -> & Hlen & Hall & He & ->)].
      * left. exists tt. split; [|done]. apply exec_sweep. exists rs. split; [done|].
        left. auto.
      * right. left. exists e, (removals env tmps (pre ++ [Failed e])), [].
        split; [by rewrite app_nil_r|]. split.
        -- apply exec_sweep. eexists. split; [done|]. right. exists pre, e. auto.
        -- assert (codeIs e "ENOENT" = false) as Hno.
           { unfold tolerated in He. by destruct (codeIs e "ENOENT"). }
           rewrite Hno. done.
Qed.
End Purge.

(** ** Staging and executing a registry script *)

Section Staging.
Context (env : Env) (this : DesktopUtils).

Lemma exec_getTutanotaTempPath (t : list Entry) (o : Outcome Path) :
  exec (getTutanotaTempPath env this) t o <->
  exists r, t = [scratchMkdir env this r] /\
    o = match r with Ok _ => Resolved (scratchDir env this) | Failed e => Rejected e end.
Proof.
  unfold getTutanotaTempPath, scratchMkdir, mbind, Prog_bind. simpl.
  fold (scratchDir env this).
  change (path_join (scratchDir env this) []) with (scratchDir env this ++ []).
  rewrite app_nil_r. split.
  - intros ([[]|e] & t' & -> & [-> ->]); eexists; split; reflexivity.
  - intros ([[]|e] & -> & ->); eexists; eexists; (split; [reflexivity|]); done.
Qed.

Lemma exec_writeToDisk (contents : string) (t : list Entry) (o : Outcome Path) :
  exec (_writeToDisk env this contents) t o <->
  exists bytes r1 r2 r3, stagingEnds env this contents bytes r1 r2 r3 t o.
Proof.
  unfold _writeToDisk, getTutanotaTempPath, mbind, Prog_bind, stagingEnds. simpl.
  fold (scratchDir env this).
  change (path_join (scratchDir env this) []) with (scratchDir env this ++ []).
  rewrite app_nil_r. fold (regDir env this).
  unfold scratchMkdir, regMkdir, scriptWrite, scriptPath. split.
  - intros (bytes & t1 & -> & r1 & t2 & -> & H). exists bytes, r1.
    destruct r1 as [[]|e1]; simpl in H.
    + destruct H as (r2 & t3 & -> & H). exists r2.
      destruct r2 as [[]|e2]; simpl in H.
      * destruct H as (r3 & t4 & -> & H). exists r3.
        destruct r3 as [[]|e3]; simpl in H; destruct H as [-> ->]; done.
      * exists (Ok tt). destruct H as [-> ->]. done.
    + exists (Ok tt), (Ok tt). destruct H as [-> ->]. done.
  - intros (bytes & r1 & r2 & r3 & H).
    destruct r1 as [[]|e1]; [destruct r2 as [[]|e2]; [destruct r3 as [[]|e3]|]|];
      destruct H as [-> ->];
      repeat (eexists; eexists; (split; [reflexivity|]); simpl); done.
Qed.

Lemma exec_executeRegistryScript (script : string) (t : list Entry) (o : Outcome unit) :
  exec (_executeRegistryScript env this script) t o <->
  exists ts ofile,
    exec (_writeToDisk env this script) ts ofile /\
    match ofile with
    | Resolved file =>
        (exists status unlinked,
            t = ts ++ [regImport file status; scriptUnlink file unlinked] /\
            o = importOutcome status unlinked) \/
        (exists e, t = ts ++ [regImportFailed file e] /\ o = Uncaught e)
    | Rejected e => t = ts /\ o = Rejected e
    | Uncaught e => t = ts /\ o = Uncaught e
    end.
Proof.
  unfold _executeRegistryScript, mbind, Prog_bind. rewrite exec_bind. split.
  - intros [(file & t1 & t2 & -> & H1 & H2)|[(e & H1 & ->)|(e & H1 & ->)]].
    + exists t1, (Resolved file). split; [done|].
      destruct H2 as ([status|e] & t3 & -> & H2); simpl in H2.
      * left. destruct H2 as (unlinked & t4 & -> & H2). simpl in H2.
        exists status, unlinked. unfold importOutcome.
        destruct unlinked as [[]|e]; [destruct (bool_decide _)|]; destruct H2 as [-> ->]; done.
      * right. destruct H2 as [-> ->]. eauto.
    + exists t, (Rejected e). done.
    + exists t, (Uncaught e). done.
  - intros (ts & [file|e|e] & Hs & H).
    + left. exists file, ts. destruct H as [(status & unlinked & -> & ->)|(e & -> & ->)].
      * eexists. split; [reflexivity|]. split; [done|].
        exists (OnExit status). eexists. split; [reflexivity|]. simpl.
        exists unlinked. eexists. split; [reflexivity|]. simpl. unfold importOutcome.
        destruct unlinked as [[]|e]; [destruct (bool_decide _)|]; done.
      * eexists. split; [reflexivity|]. split; [done|].
        exists (OnError e). eexists. split; [reflexivity|]. simpl. done.
    + destruct H as [-> ->]. right. left. eauto.
    + destruct H as [-> ->]. right. right. eauto.
Qed.

(** The staging and the execution of a script never open the settings
    page. *)
Lemma executeRegistryScript_no_settings (script : string) (t : list Entry) (o : Outcome unit) :
  exec (_executeRegistryScript env this script) t o ->
  Forall (fun e => isSettingsCall e = false) t.
Proof.
  intros H. apply exec_executeRegistryScript in H as (ts & ofile & Hs & H).
  apply exec_writeToDisk in Hs as (bytes & r1 & r2 & r3 & Hs).
  assert (Forall (fun e => isSettingsCall e = false) ts) as Hts.
  { unfold stagingEnds in Hs.
    destruct r1 as [[]|?]; [destruct r2 as [[]|?]; [destruct r3 as [[]|?]|]|];
      destruct Hs as [-> _]; repeat constructor. }
  destruct ofile as [file|e|e].
  - destruct H as [(status & unlinked & -> & _)|(e & -> & _)];
      (apply Forall_app; split; [done|]); repeat constructor.
  - by destruct H as [-> _].
  - by destruct H as [-> _].
Qed.
End Staging.

(** ** ProtocolHandlerRegistrar *)

Section Registrar.
Context (env : Env) (this : DesktopUtils).

Lemma exec_openDefaultAppsSettings (t : list Entry) (o : Outcome unit) :
  exec _openDefaultAppsSettings t o <-> exists r, t = settingsAttempt r /\ o = Resolved tt.
Proof.
  unfold _openDefaultAppsSettings. rewrite exec_catch_await. split.
  - intros [([] & -> & ->)|(e & t' & -> & H)].
    + exists (Ok tt). done.
    + destruct H as ([] & t'' & -> & [-> ->]). exists (Failed e). done.
  - intros ([[]|e] & -> & ->).
    + left. eauto.
    + right. exists e. eexists. split; [reflexivity|]. exists tt, []. done.
Qed.

Opaque _executeRegistryScript _openDefaultAppsSettings.

Lemma exec_doRegister (t : list Entry) (o : Outcome unit) :
  platform env = "win32" ->
  exec (doRegisterMailtoOnWin32WithCurrentUser env this) t o <->
  exists ts os granted,
    exec (_executeRegistryScript env this (registerScript env)) ts os /\
    win32FlowEnds [] ts os [setDefault granted] t o.
Proof.
  intros Hwin. unfold doRegisterMailtoOnWin32WithCurrentUser, mbind, Prog_bind.
  rewrite Hwin. simpl negb. cbv iota. fold (registerScript env).
  rewrite exec_bind. split.
  - intros [(a & t1 & t2 & -> & H1 & H2)|[(e & H1 & ->)|(e & H1 & ->)]].
    + destruct H2 as (granted & t3 & -> & H2). simpl in H2.
      apply exec_openDefaultAppsSettings in H2 as (r & -> & ->).
      exists t1, (Resolved a), granted. split; [done|]. exists r. done.
    + exists t, (Rejected e), true. done.
    + exists t, (Uncaught e), true. done.
  - intros (ts & [a|e|e] & granted & Hs & Hend); simpl in Hend.
    + destruct Hend as (r & -> & ->). left.
      exists a, ts, (setDefault granted :: settingsAttempt r). split; [done|]. split; [done|].
      exists granted. eexists. split; [reflexivity|]. simpl.
      apply exec_openDefaultAppsSettings. eauto.
    + destruct Hend as [-> ->]. right. left. eauto.
    + destruct Hend as [-> ->]. right. right. eauto.
Qed.

Lemma exec_doUnregister (t : list Entry) (o : Outcome unit) :
  platform env = "win32" ->
  exec (doUnregisterMailtoOnWin32WithCurrentUser env this) t o <->
  exists ts os granted,
    exec (_executeRegistryScript env this (unregisterScript env)) ts os /\
    win32FlowEnds [removeDefault granted] ts os [] t o.
Proof.
  intros Hwin. unfold doUnregisterMailtoOnWin32WithCurrentUser, mbind, Prog_bind.
  rewrite Hwin. simpl negb. cbv iota. fold (unregisterScript env). split.
  - intros (granted & t1 & -> & H). simpl in H. apply exec_bind in H.
    destruct H as [(a & t2 & t3 & -> & H1 & H2)|[(e & H1 & ->)|(e & H1 & ->)]].
    + apply exec_openDefaultAppsSettings in H2 as (r & -> & ->).
      exists t2, (Resolved a), granted. split; [done|]. exists r. done.
    + exists t1, (Rejected e), granted. done.
    + exists t1, (Uncaught e), granted. done.
  - intros (ts & os & granted & Hs & Hend).
    assert (exists t', t = removeDefault granted :: t' /\
              exec (bind (_executeRegistryScript env this (unregisterScript env))
                      (fun _ => _openDefaultAppsSettings)) t' o) as (t' & -> & H).
    { destruct os as [a|e|e]; simpl in Hend.
      - destruct Hend as (r & -> & ->). eexists. split; [reflexivity|].
        apply exec_bind. left. exists a, ts, (settingsAttempt r).
        split; [done|]. split; [done|]. apply exec_openDefaultAppsSettings. eauto.
      - destruct Hend as [-> ->]. eexists. split; [reflexivity|].
        apply exec_bind. right. left. eauto.
      - destruct Hend as [-> ->]. eexists. split; [reflexivity|].
        apply exec_bind. right. right. eauto. }
    exists granted, t'. done.
Qed.

Opaque doRegisterMailtoOnWin32WithCurrentUser doUnregisterMailtoOnWin32WithCurrentUser.

Lemma exec_register_win32 (t : list Entry) (o : Outcome unit) :
  platform env = "win32" ->
  exec (registerAsMailtoHandler env this) t o <->
  exists t', t = registerLog :: t' /\ exec (doRegisterMailtoOnWin32WithCurrentUser env this) t' o.
Proof.
  intros Hwin. unfold registerAsMailtoHandler, mbind, Prog_bind. rewrite Hwin. simpl. split.
  - intros ([] & t' & -> & H). eauto.
  - intros (t' & -> & H). exists tt. eauto.
Qed.

Lemma exec_unregister_win32 (t : list Entry) (o : Outcome unit) :
  platform env = "win32" ->
  exec (unregisterAsMailtoHandler env this) t o <->
  exists t', t = unregisterLog :: t' /\ exec (doUnregisterMailtoOnWin32WithCurrentUser env this) t' o.
Proof.
  intros Hwin. unfold unregisterAsMailtoHandler, mbind, Prog_bind. rewrite Hwin. simpl. split.
  - intros ([] & t' & -> & H). eauto.
  - intros (t' & -> & H). exists tt. eauto.
Qed.

(** A win32 flow that called the settings page has resolved. *)
Lemma win32FlowEnds_settings (before ts : list Entry) (os : Outcome unit) (after t : list Entry)
    (o : Outcome unit) :
  Forall (fun e => isSettingsCall e = false) before ->
  Forall (fun e => isSettingsCall e = false) ts ->
  win32FlowEnds before ts os after t o ->
  (exists e, e ∈ t /\ isSettingsCall e = true) -> o = Resolved tt.
Proof.
  intros Hb Hts Hend (e & Hin & He). destruct os as [a|e'|e']; simpl in Hend.
  - by destruct Hend as (r & _ & ->).
  - destruct Hend as [-> _]. apply elem_of_app in Hin as [Hin|Hin].
    + rewrite Forall_forall in Hb. apply Hb in Hin. congruence.
    + rewrite Forall_forall in Hts. apply Hts in Hin. congruence.
  - destruct Hend as [-> _]. apply elem_of_app in Hin as [Hin|Hin].
    + rewrite Forall_forall in Hb. apply Hb in Hin. congruence.
    + rewrite Forall_forall in Hts. apply Hts in Hin. congruence.
Qed.

(** C8.  On win32, [registerAsMailtoHandler] and [unregisterAsMailtoHandler]
    fail only with the failure of their registry script, before the
    settings page is touched.  Once the script has been executed they end
    with the attempt to open the settings page ("ms-settings:defaultapps");
    when the attempt fails the failure is written with [console.error] and
    swallowed: the operation resolves whatever the attempt answers.  So an
    operation whose trace has a call of the settings page has resolved. *)
Theorem settings_page_is_best_effort (t : list Entry) (o : Outcome unit) :
  platform env = "win32" ->
  (exec (registerAsMailtoHandler env this) t o <->
   exists ts os granted,
     exec (_executeRegistryScript env this (registerScript env)) ts os /\
     win32FlowEnds [registerLog] ts os [setDefault granted] t o) /\
  (exec (unregisterAsMailtoHandler env this) t o <->
   exists ts os granted,
     exec (_executeRegistryScript env this (unregisterScript env)) ts os /\
     win32FlowEnds [unregisterLog; removeDefault granted] ts os [] t o) /\
  (exec (registerAsMailtoHandler env this) t o \/ exec (unregisterAsMailtoHandler env this) t o ->
   (exists e, e ∈ t /\ isSettingsCall e = true) -> o = Resolved tt).
Proof.
  intros Hwin.
  assert (exec (registerAsMailtoHandler env this) t o <->
          exists ts os granted,
            exec (_executeRegistryScript env this (registerScript env)) ts os /\
            win32FlowEnds [registerLog] ts os [setDefault granted] t o) as Hreg.
  { rewrite exec_register_win32 by done. split.
    - intros (t' & -> & H). apply exec_doRegister in H as (ts & os & granted & Hs & Hend); [|done].
      exists ts, os, granted. split; [done|].
      destruct os as [a|e|e]; simpl in *.
      + destruct Hend as (r & -> & ->). eauto.
      + by destruct Hend as [-> ->].
      + by destruct Hend as [-> ->].
    - intros (ts & os & granted & Hs & Hend).
      assert (exists t', t = registerLog :: t' /\ win32FlowEnds [] ts os [setDefault granted] t' o)
        as (t' & -> & Hend').
      { destruct os as [a|e|e]; simpl in *.
        - destruct Hend as (r & -> & ->). eexists. split; [reflexivity|]. eauto.
        - destruct Hend as [-> ->]. eauto.
        - destruct Hend as [-> ->]. eauto. }
      exists t'. split; [done|]. apply exec_doRegister; [done|]. eauto. }
  assert (exec (unregisterAsMailtoHandler env this) t o <->
          exists ts os granted,
            exec (_executeRegistryScript env this (unregisterScript env)) ts os /\
            win32FlowEnds [unregisterLog; removeDefault granted] ts os [] t o) as Hunreg.
  { rewrite exec_unregister_win32 by done. split.
    - intros (t' & -> & H). apply exec_doUnregister in H as (ts & os & granted & Hs & Hend); [|done].
      exists ts, os, granted. split; [done|].
      destruct os as [a|e|e]; simpl in *.
      + destruct Hend as (r & -> & ->). eauto.
      + by destruct Hend as [-> ->].
      + by destruct Hend as [-> ->].
    - intros (ts & os & granted & Hs & Hend).
      assert (exists t', t = unregisterLog :: t' /\
                win32FlowEnds [removeDefault granted] ts os [] t' o) as (t' & -> & Hend').
      { destruct os as [a|e|e]; simpl in *.
        - destruct Hend as (r & -> & ->). eexists. split; [reflexivity|]. eauto.
        - destruct Hend as [-> ->]. eauto.
        - destruct Hend as [-> ->]. eauto. }
      exists t'. split; [done|]. apply exec_doUnregister; [done|]. eauto. }
  split; [exact Hreg|]. split; [exact Hunreg|].
  intros [H|H] Hcall.
  - apply Hreg in H as (ts & os & granted & Hs & Hend).
    apply executeRegistryScript_no_settings in Hs.
    eapply win32FlowEnds_settings; [| |exact Hend|exact Hcall]; [|done].
    repeat constructor.
  - apply Hunreg in H as (ts & os & granted & Hs & Hend).
    apply executeRegistryScript_no_settings in Hs.
    eapply win32FlowEnds_settings; [| |exact Hend|exact Hcall]; [|done].
    repeat constructor.
Qed.

(** C5.  [registerAsMailtoHandler] and [unregisterAsMailtoHandler] choose
    among four branches by [process.platform].  On "win32" they run the
    registry flow.  On "darwin" they make one call of the OS and throw
    exactly when it answers [false].  On "linux" they throw at once: only
    the debug log line was written, the file system was not touched and no
    process was started.  On any other platform they throw at once an error
    whose message ends with the platform. *)
Theorem mailto_platform_dispatch (t : list Entry) (o : Outcome unit) :
  (platform env = "win32" ->
   (exec (registerAsMailtoHandler env this) t o <->
    exists t', t = registerLog :: t' /\
               exec (doRegisterMailtoOnWin32WithCurrentUser env this) t' o) /\
   (exec (unregisterAsMailtoHandler env this) t o <->
    exists t', t = unregisterLog :: t' /\
               exec (doUnregisterMailtoOnWin32WithCurrentUser env this) t' o)) /\
  (platform env = "darwin" ->
   (exec (registerAsMailtoHandler env this) t o <->
    exists granted, t = [registerLog; setDefault granted] /\
      o = if granted then Resolved tt
          else Rejected (Error "Could not register as mailto handler")) /\
   (exec (unregisterAsMailtoHandler env this) t o <->
    exists granted, t = [unregisterLog; removeDefault granted] /\
      o = if granted then Resolved tt
          else Rejected (Error "Could not unregister as mailto handler"))) /\
  (platform env = "linux" ->
   (exec (registerAsMailtoHandler env this) t o <->
    t = [registerLog] /\ o = Rejected (Error "Registering protocols on Linux does not work")) /\
   (exec (unregisterAsMailtoHandler env this) t o <->
    t = [unregisterLog] /\ o = Rejected (Error "Registering protocols on Linux does not work")) /\
   (exec (registerAsMailtoHandler env this) t o \/
    exec (unregisterAsMailtoHandler env this) t o ->
    Forall (fun e => touchesFsOrSpawns e = false) t)) /\
  (platform env <> "win32" -> platform env <> "darwin" -> platform env <> "linux" ->
   (exec (registerAsMailtoHandler env this) t o <->
    t = [registerLog] /\ o = Rejected (Error ("Invalid process.platform: " ++ platform env))) /\
   (exec (unregisterAsMailtoHandler env this) t o <->
    t = [unregisterLog] /\ o = Rejected (Error ("Invalid process.platform: " ++ platform env)))).
Proof.
  split; [|split; [|split]].
  - intros Hwin. split; [by apply exec_register_win32|by apply exec_unregister_win32].
  - intros Hp. unfold registerAsMailtoHandler, unregisterAsMailtoHandler, mbind, Prog_bind.
    rewrite Hp. simpl. unfold registerLog, unregisterLog, setDefault, removeDefault. split; split.
    + intros ([] & t1 & -> & [] & t2 & -> & [-> ->]); eexists; split; reflexivity.
    + intros ([] & -> & ->); exists tt; eexists; (split; [reflexivity|]);
        eexists; eexists; (split; [reflexivity|]); done.
    + intros ([] & t1 & -> & [] & t2 & -> & [-> ->]); eexists; split; reflexivity.
    + intros ([] & -> & ->); exists tt; eexists; (split; [reflexivity|]);
        eexists; eexists; (split; [reflexivity|]); done.
  - intros Hp.
    assert (forall l msg, exec (bind (call (LogDebug l)) (fun _ => Throw (Error msg))) t o <->
              t = [Ev (LogDebug l) tt] /\ o = Rejected (Error msg)) as Hthrow.
    { intros l msg. simpl. split.
      - intros ([] & t' & -> & [-> ->]). done.
      - intros [-> ->]. exists tt, []. done. }
    unfold registerAsMailtoHandler, unregisterAsMailtoHandler, mbind, Prog_bind.
    rewrite Hp. change ("linux" =? "win32")%string with false.
    change ("linux" =? "darwin")%string with false. change ("linux" =? "linux")%string with true.
    cbv iota. split; [apply Hthrow|]. split; [apply Hthrow|].
    intros [H|H]; apply Hthrow in H as [-> _]; repeat constructor.
  - intros Hw Hd Hl.
    apply String.eqb_neq in Hw, Hd, Hl.
    unfold registerAsMailtoHandler, unregisterAsMailtoHandler, mbind, Prog_bind.
    rewrite Hw, Hd, Hl. simpl. unfold registerLog, unregisterLog. split; split.
    + intros ([] & t' & -> & [-> ->]). done.
    + intros [-> ->]. exists tt, []. done.
    + intros ([] & t' & -> & [-> ->]). done.
    + intros [-> ->]. exists tt, []. done.
Qed.
End Registrar.

(** ** Runs of composed programs *)

Section RunFacts.
Context {W : Type} (handle : forall X : Type, Call X -> W -> X * W).

Lemma run_bind {A B : Type} (p : Prog A) (f : A -> Prog B) (w : W) :
  run handle (bind p f) w =
  let r1 := run handle p w in
  match outcome r1 with
  | Resolved a =>
      let r2 := run handle (f a) (final r1) in
      (outcome r2, final r2, history r1 ++ history r2)
  | Rejected e => (Rejected e, final r1, history r1)
  | Uncaught e => (Uncaught e, final r1, history r1)
  end.
Proof.
  unfold outcome, final, history.
  revert w. induction p as [a|e|e|X c k IH]; intros w; simpl.
  - by destruct (run handle (f a) w) as [[o w'] hs].
  - reflexivity.
  - reflexivity.
  - rewrite IH. simpl.
    by destruct (run handle (k (handle X c w).1) (handle X c w).2).1.1.
Qed.

Lemma run_try_catch {A : Type} (p : Prog A) (h : JsError -> Prog A) (w : W) :
  run handle (try_catch p h) w =
  let r1 := run handle p w in
  match outcome r1 with
  | Resolved a => (Resolved a, final r1, history r1)
  | Rejected e =>
      let r2 := run handle (h e) (final r1) in
      (outcome r2, final r2, history r1 ++ history r2)
  | Uncaught e => (Uncaught e, final r1, history r1)
  end.
Proof.
  unfold outcome, final, history.
  revert w. induction p as [a|e|e|X c k IH]; intros w; simpl.
  - reflexivity.
  - by destruct (run handle (h e) w) as [[o w'] hs].
  - reflexivity.
  - rewrite IH. simpl.
    by destruct (run handle (k (handle X c w).1) (handle X c w).2).1.1.
Qed.

Lemma run_call_bind {X B : Type} (c : Call X) (f : X -> Prog B) (w : W) :
  run handle (bind (call c) f) w =
  let a := handle _ c w in
  let r := run handle (f a.1) a.2 in
  (outcome r, final r, (w, Ev c a.1) :: history r).
Proof. reflexivity. Qed.

Lemma run_await_bind {X B : Type} (c : Call (Result X)) (f : X -> Prog B) (w : W) :
  run handle (bind (await c) f) w =
  let a := handle _ c w in
  match a.1 with
  | Ok x =>
      let r := run handle (f x) a.2 in
      (outcome r, final r, (w, Ev c a.1) :: history r)
  | Failed e => (Rejected e, a.2, [(w, Ev c a.1)])
  end.
Proof. simpl. by destruct (handle _ c w).1. Qed.

(** A run is an execution: what holds of every execution holds of the run
    against any environment. *)
Lemma run_exec {A : Type} (p : Prog A) (w : W) :
  exec p (trace (run handle p w)) (outcome (run handle p w)).
Proof.
  unfold trace, outcome, history.
  revert w. induction p as [a|e|e|X c k IH]; intros w; simpl; [done..|].
  exists (handle X c w).1. eexists. split; [reflexivity|]. apply IH.
Qed.
End RunFacts.

(** ** The in-memory file system *)

Lemma ldiff_land_0 (a u b : Z) : Z.land a b = 0 -> Z.land (Z.ldiff a u) b = 0.
Proof.
  intros H. apply Z.bits_inj'. intros n Hn.
  rewrite Z.land_spec, Z.ldiff_spec, Z.bits_0.
  assert (Z.testbit (Z.land a b) n = false) as Hab by (rewrite H; apply Z.bits_0).
  rewrite Z.land_spec in Hab.
  destruct (Z.testbit a n), (Z.testbit b n), (Z.testbit u n); simpl in *; congruence.
Qed.

Section MemFs.
Import Mem.
Implicit Types (fs : gmap Path Node) (p q : Path).

(** [mkdirp] never replaces a node. *)
Lemma mkdirp_preserves mode base rest fs q n :
  fs !! q = Some n -> (mkdirp mode base rest fs).2 !! q = Some n.
Proof.
  revert base fs. induction rest as [|s rest IH]; intros pre fs Hq; simpl; [done|].
  destruct (fs !! (pre ++ [s])) as [[c m|m]|] eqn:E; simpl; auto.
  apply IH. rewrite lookup_insert_ne; [done|]. congruence.
Qed.

(** Every node that [mkdirp] adds is a directory with the given mode. *)
Lemma mkdirp_new_mode mode base rest fs q :
  fs !! q = None ->
  (mkdirp mode base rest fs).2 !! q = None \/
  (mkdirp mode base rest fs).2 !! q = Some (Dir mode).
Proof.
  revert base fs. induction rest as [|s rest IH]; intros pre fs Hq; simpl; [auto|].
  destruct (fs !! (pre ++ [s])) as [[c m|m]|] eqn:E; simpl; auto.
  destruct (decide (pre ++ [s] = q)) as [<-|Hne].
  - right. apply mkdirp_preserves. by rewrite lookup_insert_eq.
  - apply IH. by rewrite lookup_insert_ne.
Qed.

(** After a successful [mkdirp] every directory on the way is there. *)
Lemma mkdirp_dirs mode base rest fs fs' :
  mkdirp mode base rest fs = (Ok tt, fs') ->
  forall pre suf, rest = pre ++ suf -> pre <> [] -> isDir fs' (base ++ pre) = true.
Proof.
  revert base fs. induction rest as [|s rest IH]; intros dn fs H pre suf Hrest Hpre.
  { by destruct pre. }
  destruct pre as [|s' pre]; [done|]. injection Hrest as <- ->. simpl in H.
  assert (exists m, fs' !! (dn ++ [s]) = Some (Dir m)) as [m Hm].
  { destruct (fs !! (dn ++ [s])) as [[c m|m]|] eqn:E; [done| |].
    - exists m. replace fs' with (mkdirp mode (dn ++ [s]) (pre ++ suf) fs).2 by by rewrite H.
      by apply mkdirp_preserves.
    - exists mode.
      replace fs' with (mkdirp mode (dn ++ [s]) (pre ++ suf) (<[dn ++ [s] := Dir mode]> fs)).2
        by by rewrite H.
      apply mkdirp_preserves. by rewrite lookup_insert_eq. }
  destruct pre as [|s'' pre].
  - unfold isDir. rewrite Hm. by destruct (dn ++ [s]).
  - replace (dn ++ s :: s'' :: pre) with ((dn ++ [s]) ++ s'' :: pre) by by rewrite <- app_assoc.
    destruct (fs !! (dn ++ [s])) as [[c m'|m']|] eqn:E; [done|..];
      eapply IH; eauto.
Qed.

(** A second [mkdirp] of the same path finds everything in place. *)
Lemma mkdirp_idempotent mode mode' base rest fs fs' :
  mkdirp mode base rest fs = (Ok tt, fs') -> mkdirp mode' base rest fs' = (Ok tt, fs').
Proof.
  revert base fs. induction rest as [|s rest IH]; intros dn fs H; simpl in *.
  { by injection H as ->. }
  destruct (fs !! (dn ++ [s])) as [[c m|m]|] eqn:E; [done| |].
  - assert (fs' !! (dn ++ [s]) = Some (Dir m)) as ->.
    { replace fs' with (mkdirp mode (dn ++ [s]) rest fs).2 by by rewrite H.
      by apply mkdirp_preserves. }
    eauto.
  - assert (fs' !! (dn ++ [s]) = Some (Dir mode)) as ->.
    { replace fs' with (mkdirp mode (dn ++ [s]) rest (<[dn ++ [s] := Dir mode]> fs)).2
        by by rewrite H.
      apply mkdirp_preserves. by rewrite lookup_insert_eq. }
    eauto.
Qed.

(** A successful [writeFile] leaves the data at [p], in a file that keeps
    its mode when it was there and has the requested mode when it is new. *)
Lemma writeFile_ok p data mode fs fs' :
  writeFile p data mode fs = (Ok tt, fs') ->
  exists m, fs' = <[p := File data m]> fs /\
            (fs !! p = None -> m = mode) /\
            (forall c old, fs !! p = Some (File c old) -> m = old).
Proof.
  unfold writeFile. destruct (fs !! p) as [[c old|m]|] eqn:E.
  - destruct (allows old ownerWrite); [|done]. intros [= <-].
    exists old. split; [done|]. split; [done|]. by intros ? ? [= _ ->].
  - done.
  - destruct p as [|s p]; [done|]. destruct (isDir fs _); [|done]. intros [= <-].
    exists mode. done.
Qed.

Lemma unlink_file p c m fs :
  fs !! p = Some (File c m) -> unlink p fs = (Ok tt, delete p fs).
Proof. unfold unlink. by intros ->. Qed.

(** A recursive [rm] fails only when there is nothing to remove.  It
    leaves nothing at [p], nothing below a directory [p], and adds
    nothing. *)
Lemma rm_recursive p fs :
  ((rm p true fs).1 = Ok tt \/ (rm p true fs).1 = Failed (fsError "ENOENT")) /\
  (rm p true fs).2 !! p = None /\
  (rm p true fs).2 ⊆ fs /\
  (forall m q, fs !! p = Some (Dir m) -> p `prefix_of` q -> (rm p true fs).2 !! q = None).
Proof.
  unfold rm. destruct (fs !! p) as [[c m|m]|] eqn:E; simpl.
  - split; [auto|]. split; [apply lookup_delete_eq|]. split; [apply delete_subseteq|done].
  - split; [auto|]. split; [|split].
    + apply map_lookup_filter_None. right. intros n _ Hn. by apply Hn.
    + apply map_filter_subseteq.
    + intros _ q _ Hpre. apply map_lookup_filter_None. right. intros n _ Hn. by apply Hn.
  - split; [auto|]. done.
Qed.

Lemma childName_Some dir k name : childName dir k = Some name <-> k = dir ++ [name].
Proof.
  revert k. induction dir as [|d dir IH]; intros k; simpl.
  - destruct k as [|s [|s' k]]; split; intros H; try done; by simplify_eq.
  - destruct k as [|s k]; [split; [done|intros H; by destruct dir]|].
    destruct (decide (d = s)) as [->|Hne].
    + rewrite IH. split; [by intros ->|by intros [= ->]].
    + split; [done|]. intros [= <- _]. done.
Qed.

(** The listing of a directory names exactly the nodes directly in it. *)
Lemma readdir_dir p fs :
  isDir fs p = true ->
  exists names, readdir p fs = Ok names /\
                forall name, name ∈ names <-> is_Some (fs !! (p ++ [name])).
Proof.
  intros Hdir. unfold readdir. rewrite Hdir. eexists. split; [reflexivity|].
  intros name. rewrite list_elem_of_omap. split.
  - intros (k & Hk & Hname). apply childName_Some in Hname as ->.
    apply list_elem_of_fmap in Hk as ([k n] & -> & Hkn).
    apply elem_of_map_to_list in Hkn. simpl. eauto.
  - intros [n Hn]. exists (p ++ [name]). split; [|by apply childName_Some].
    apply list_elem_of_fmap. exists (p ++ [name], n). split; [done|].
    by apply elem_of_map_to_list.
Qed.
End MemFs.

(** ** The methods in the in-memory environment *)

Section MemRuns.
Import Mem.
Context (env : Env) (this : DesktopUtils).

Opaque effectiveMode octal.

Lemma waited_app (t1 t2 : list Entry) : waited (t1 ++ t2) = waited t1 + waited t2.
Proof.
  unfold waited. induction t1 as [|e t1 IH]; simpl; [done|]. rewrite IH. lia.
Qed.

(** The clock of the world moves with the [Delay] calls only. *)
Lemma run_clock {A : Type} (p : Prog A) (w : World) :
  clock (final (run handle p w)) = clock w + waited (trace (run handle p w)).
Proof.
  unfold final, trace, history.
  revert w. induction p as [a|e|e|X c k IH]; intros w; cbn [run fst snd fmap list_fmap];
    [unfold waited; simpl; lia..|].
  change (waited (?e :: ?t)) with (delayOf e + waited t).
  rewrite IH. destruct c; cbn [delayOf handle fst snd clock withFiles]; lia.
Qed.

(** C2.  Against every environment, [singleInstanceLockOverridden] reads the
    lock file and then overwrites it with the own version.  It always
    resolves: to [false] when the read fails (nothing is written then) or
    the write fails, and otherwise to [true] exactly when the content read
    differs from the own version.  On the in-memory file system, a lock file
    that can be read and written holds the own version afterwards. *)
Theorem singleInstanceLockOverridden_spec :
  (forall t o,
      exec (singleInstanceLockOverridden env) t o <->
      (exists e, t = [lockRead env (Failed e)] /\ o = Resolved false) \/
      (exists observed e,
          t = [lockRead env (Ok observed); lockWrite env (Failed e)] /\ o = Resolved false) \/
      (exists observed canStay,
          t = [lockRead env (Ok observed); lockWrite env (Ok tt)] /\ o = Resolved canStay /\
          (canStay = true <-> observed <> appVersion env))) /\
  (forall w observed m,
      files w !! getLockFilePath env = Some (File observed m) ->
      allows m ownerRead = true -> allows m ownerWrite = true ->
      run handle (singleInstanceLockOverridden env) w =
      (Resolved (negb (String.eqb observed (appVersion env))),
       withFiles (<[getLockFilePath env := File (appVersion env) m]> (files w)) w,
       [(w, lockRead env (Ok observed)); (w, lockWrite env (Ok tt))])).
Proof.
  split; [apply exec_singleInstanceLockOverridden|].
  intros w observed m Hfile Hr Hw. unfold singleInstanceLockOverridden, mbind, Prog_bind.
  cbn [try_catch await bind run handle fst snd].
  unfold readFile. rewrite Hfile, Hr. cbn [try_catch bind run handle fst snd].
  unfold writeFile. rewrite Hfile, Hw. cbn [try_catch bind run handle fst snd mret Prog_ret].
  reflexivity.
Qed.

(** C1.  Against every environment, [makeSingleInstance] first writes the
    own version to the lock file, whatever the write answers.  It then
    requests the OS lock.  If the lock is granted it resolves to [true] at
    once, without waiting.  Otherwise it waits 1500 ms, runs
    [singleInstanceLockOverridden], and resolves to the result [canStay] of
    that check after one more call: one further request of the OS lock when
    [canStay] is true, [app.quit()] when it is false.  In the in-memory
    environment the time spent waiting is 0 ms when the first request is
    granted and 1500 ms when it is refused. *)
Theorem makeSingleInstance_algorithm :
  (forall t o,
      exec (makeSingleInstance env) t o <->
      exists w,
        (t = [lockWrite env w; lockRequest true] /\ o = Resolved true) \/
        (exists tc canStay last,
            exec (singleInstanceLockOverridden env) tc (Resolved canStay) /\
            t = [lockWrite env w; lockRequest false; Ev (Delay 1500) tt] ++ tc ++ [last] /\
            o = Resolved canStay /\
            if canStay then exists granted, last = lockRequest granted else last = Ev Quit tt)) /\
  (forall w,
      let r := run handle (makeSingleInstance env) w in
      (hd true (lockGrants w) = true /\ outcome r = Resolved true /\ clock (final r) = clock w) \/
      (hd true (lockGrants w) = false /\ clock (final r) = clock w + 1500)).
Proof.
  split; [apply exec_makeSingleInstance|].
  intros w r. subst r. rewrite run_clock.
  pose proof (run_exec handle (makeSingleInstance env) w) as Hexec.
  assert (exists a, (history (run handle (makeSingleInstance env) w)).*2 !! 1%nat =
                      Some (lockRequest (hd true (lockGrants a)) ) /\ lockGrants a = lockGrants w)
    as (a & Hsecond & Ha).
  { unfold makeSingleInstance, mbind, Prog_bind. rewrite run_bind. cbn zeta.
    unfold history at 1. cbn [try_catch await run handle fst snd].
    set (w1 := withFiles _ w).
    exists w1. split; [|done].
    by destruct (writeFile _ _ _ _).1. }
  fold (trace (run handle (makeSingleInstance env) w)) in Hsecond.
  apply exec_makeSingleInstance in Hexec
    as (wr & [[Ht Ho]|(tc & canStay & last & Hc & Ht & Ho & Hlast)]);
    rewrite Ht in Hsecond |- *; cbn [lookup list_lookup] in Hsecond;
    apply (inj Some), Ev_inj in Hsecond; rewrite Ha in Hsecond.
  - left. split; [done|]. split; [done|]. unfold waited, lockWrite, lockRequest. simpl. lia.
  - right. split; [done|].
    assert (waited tc = 0) as Htc.
    { apply exec_singleInstanceLockOverridden in Hc
        as [(e & -> & _)|[(observed & e & -> & _)|(observed & b & -> & _)]]; reflexivity. }
    assert (waited [last] = 0) as Hl.
    { destruct canStay; [destruct Hlast as [g ->]|subst last]; reflexivity. }
    rewrite !waited_app, Htc, Hl. unfold waited, lockWrite, lockRequest. simpl. lia.
Qed.

Lemma run_getTutanotaTempPath (w : World) :
  run handle (getTutanotaTempPath env this) w =
  let m := mkdirp (scratchMode w) [] (scratchDir env this) (files w) in
  (match m.1 with Ok _ => Resolved (scratchDir env this) | Failed e => Rejected e end,
   withFiles m.2 w, [(w, scratchMkdir env this m.1)]).
Proof.
  unfold getTutanotaTempPath, mbind, Prog_bind. rewrite run_await_bind.
  fold (scratchDir env this).
  change (path_join (scratchDir env this) []) with (scratchDir env this ++ []).
  rewrite app_nil_r. unfold mkdir, scratchMode. simpl.
  by destruct (mkdirp _ _ _ _).1 as [[]|e].
Qed.

Lemma run_writeToDisk (contents : string) (w : World) :
  let bytes := nextBytes 12 w in
  let w0 := (handle _ (RandomBytes 12) w).2 in
  let m1 := mkdirp (scratchMode w) [] (scratchDir env this) (files w) in
  let m2 := mkdirp (regDirMode w) [] (regDir env this) m1.2 in
  let m3 := writeFile (scriptPath env this bytes) contents (scriptMode w) m2.2 in
  run handle (_writeToDisk env this contents) w =
  match m1.1, m2.1, m3.1 with
  | Failed e, _, _ =>
      (Rejected e, withFiles m1.2 w0,
       [(w, Ev (RandomBytes 12) bytes); (w0, scratchMkdir env this m1.1)])
  | Ok _, Failed e, _ =>
      (Rejected e, withFiles m2.2 w0,
       [(w, Ev (RandomBytes 12) bytes); (w0, scratchMkdir env this m1.1);
        (withFiles m1.2 w0, regMkdir env this m2.1)])
  | Ok _, Ok _, Failed e =>
      (Rejected e, withFiles m3.2 w0,
       [(w, Ev (RandomBytes 12) bytes); (w0, scratchMkdir env this m1.1);
        (withFiles m1.2 w0, regMkdir env this m2.1);
        (withFiles m2.2 w0, scriptWrite env this bytes contents m3.1)])
  | Ok _, Ok _, Ok _ =>
      (Resolved (scriptPath env this bytes), withFiles m3.2 w0,
       [(w, Ev (RandomBytes 12) bytes); (w0, scratchMkdir env this m1.1);
        (withFiles m1.2 w0, regMkdir env this m2.1);
        (withFiles m2.2 w0, scriptWrite env this bytes contents m3.1)])
  end.
Proof.
  intros bytes w0 m1 m2 m3.
  unfold _writeToDisk, mbind, Prog_bind.
  rewrite run_call_bind. cbn zeta. fold w0.
  change (handle (list byte) (RandomBytes 12) w).1 with bytes.
  rewrite run_bind, run_getTutanotaTempPath. cbn zeta.
  change (scratchMode w0) with (scratchMode w). change (files w0) with (files w). fold m1.
  cbn [outcome final history fst snd].
  destruct m1.1 as [[]|e1] eqn:E1; cbn [outcome final history fst snd app]; [|done].
  rewrite run_await_bind. cbn zeta. fold (regDir env this).
  change (handle _ (Mkdir (regDir env this) {| recursive := true; m_mode := None |})
            (withFiles m1.2 w0))
    with (m2.1, withFiles m2.2 w0).
  cbn [fst snd].
  destruct m2.1 as [[]|e2] eqn:E2; cbn [outcome final history fst snd app]; [|done].
  rewrite run_await_bind. cbn zeta. fold (scriptPath env this bytes).
  change (handle _ (WriteFile (scriptPath env this bytes) contents
                      {| w_encoding := "utf-8"; w_mode := Some (octal [4; 0; 0]) |})
            (withFiles m2.2 w0))
    with (m3.1, withFiles m3.2 w0).
  cbn [fst snd].
  by destruct m3.1 as [[]|e3] eqn:E3.
Qed.

Lemma scratchDir_layout :
  scratchDir env this = tempPath env ++ ["tutanota"; randomDirectoryName this].
Proof. reflexivity. Qed.

Lemma scriptPath_layout (bytes : list byte) :
  scriptPath env this bytes =
  tempPath env ++ ["tutanota"; randomDirectoryName this; "reg"; uint8ArrayToHex bytes].
Proof.
  unfold scriptPath, regDir, scratchDir, path_join. by rewrite <- !app_assoc.
Qed.

Lemma scratchDir_not_root : scratchDir env this <> [].
Proof. rewrite scratchDir_layout. by destruct (tempPath env). Qed.

Lemma nextBytes_length (n : nat) (w : World) : length (nextBytes n w) = n.
Proof.
  unfold nextBytes. rewrite length_take, length_app, length_replicate. lia.
Qed.

Lemma allows_false (m bits : Z) : Z.land m bits = 0 -> allows m bits = false.
Proof. unfold allows. by intros ->. Qed.

Lemma scratchMode_private (w : World) :
  scratchMode w = Z.ldiff (octal [7; 0; 0]) (umask w) /\
  allows (scratchMode w) groupOther = false.
Proof.
  split; [reflexivity|]. apply allows_false.
  change (scratchMode w) with (Z.ldiff (octal [7; 0; 0]) (umask w)).
  apply ldiff_land_0. by vm_compute.
Qed.

Lemma scriptMode_read_only (w : World) :
  scriptMode w = Z.ldiff (octal [4; 0; 0]) (umask w) /\
  allows (scriptMode w) groupOther = false /\
  allows (scriptMode w) ownerWrite = false.
Proof.
  split; [reflexivity|].
  change (scriptMode w) with (Z.ldiff (octal [4; 0; 0]) (umask w)).
  split; apply allows_false, ldiff_land_0; by vm_compute.
Qed.

(** C6.  The random directory name is derived in the constructor, from one
    call [randomBytes(16)], as the URL-safe base64 encoding of the bytes.
    The encoding of sixteen bytes has twenty-two characters, all of them
    URL-safe.  [getTutanotaTempPath] draws no randomness: a call that
    returns, returns [<temp>/tutanota/<randomDirectoryName>], the same path
    every time.  On the in-memory file system the directory is there after
    a call that returned, and a further call returns the same path and
    leaves the world as it is: the directory is not created a second
    time. *)
Theorem scratch_accessor_idempotent :
  (forall t o,
      exec constructor t o <->
      exists bytes,
        t = [Ev (RandomBytes 16) bytes] /\
        o = Resolved {| randomDirectoryName := base64ToBase64Url (uint8ArrayToBase64 bytes) |}) /\
  (forall bytes,
      length bytes = 16%nat ->
      String.length (base64ToBase64Url (uint8ArrayToBase64 bytes)) = 22%nat /\
      Forall (fun c => isUrlSafe c = true)
        (list_ascii_of_string (base64ToBase64Url (uint8ArrayToBase64 bytes)))) /\
  (forall t o p,
      exec (getTutanotaTempPath env this) t o -> o = Resolved p ->
      p = tempPath env ++ ["tutanota"; randomDirectoryName this] /\
      t = [scratchMkdir env this (Ok tt)]) /\
  (forall w p,
      outcome (run handle (getTutanotaTempPath env this) w) = Resolved p ->
      let w1 := final (run handle (getTutanotaTempPath env this) w) in
      isDir (files w1) p = true /\
      run handle (getTutanotaTempPath env this) w1 =
      (Resolved p, w1, [(w1, scratchMkdir env this (Ok tt))])).
Proof.
  split; [|split; [exact base64url_of_16_bytes|split]].
  - intros t o. unfold constructor, mbind, Prog_bind. simpl. split.
    + intros (bytes & t' & -> & [-> ->]). eauto.
    + intros (bytes & -> & ->). exists bytes, []. done.
  - intros t o p H Ho. apply exec_getTutanotaTempPath in H as ([[]|e] & -> & ->); [|done].
    by injection Ho as <-.
  - intros w p. rewrite run_getTutanotaTempPath. cbn zeta. cbn [outcome final fst snd].
    destruct (mkdirp (scratchMode w) [] (scratchDir env this) (files w)) as [[[]|e] fs1] eqn:E;
      cbn [fst snd]; [|done].
    intros [= <-]. split.
    + apply (mkdirp_dirs _ _ _ _ _ E (scratchDir env this) []).
      * by rewrite app_nil_r.
      * apply scratchDir_not_root.
    + rewrite run_getTutanotaTempPath. cbn zeta.
      change (scratchMode (withFiles fs1 w)) with (scratchMode w).
      change (files (withFiles fs1 w)) with fs1.
      by rewrite (mkdirp_idempotent _ (scratchMode w) _ _ _ _ E).
Qed.

(** C7.  Against every environment, [getTutanotaTempPath] asks for mode
    0o700 and [_writeToDisk] writes the script with mode 0o400 to
    [<scratch dir>/reg/<hex of the 12 random bytes>], a name of 24
    hexadecimal digits.  On the in-memory file system a scratch directory
    that is new has no permission bit for group or others, and a staged
    script that is new has none for group or others and is not writable by
    its owner. *)
Theorem new_artifacts_are_private :
  (forall w p,
      files w !! scratchDir env this = None ->
      outcome (run handle (getTutanotaTempPath env this) w) = Resolved p ->
      exists m,
        files (final (run handle (getTutanotaTempPath env this) w)) !! p = Some (Dir m) /\
        m = Z.ldiff (octal [7; 0; 0]) (umask w) /\
        allows m groupOther = false) /\
  (forall contents t o file,
      exec (_writeToDisk env this contents) t o -> o = Resolved file ->
      exists bytes,
        file = tempPath env ++ ["tutanota"; randomDirectoryName this; "reg"; uint8ArrayToHex bytes] /\
        t = [Ev (RandomBytes 12) bytes; scratchMkdir env this (Ok tt); regMkdir env this (Ok tt);
             scriptWrite env this bytes contents (Ok tt)]) /\
  (forall w contents file,
      outcome (run handle (_writeToDisk env this contents) w) = Resolved file ->
      length (nextBytes 12 w) = 12%nat /\
      file = scriptPath env this (nextBytes 12 w) /\
      String.length (uint8ArrayToHex (nextBytes 12 w)) = 24%nat /\
      (files w !! file = None ->
       exists m,
         files (final (run handle (_writeToDisk env this contents) w)) !! file =
           Some (File contents m) /\
         m = Z.ldiff (octal [4; 0; 0]) (umask w) /\
         allows m groupOther = false /\
         allows m ownerWrite = false)).
Proof.
  split; [|split].
  - intros w p Hnew. rewrite run_getTutanotaTempPath. cbn zeta. cbn [outcome final fst snd].
    destruct (mkdirp (scratchMode w) [] (scratchDir env this) (files w)) as [[[]|e] fs1] eqn:E;
      cbn [fst snd]; [|done].
    intros [= <-]. exists (scratchMode w).
    split; [|apply scratchMode_private].
    change (files (withFiles fs1 w)) with fs1.
    assert (isDir fs1 (scratchDir env this) = true) as Hdir.
    { apply (mkdirp_dirs _ _ _ _ _ E (scratchDir env this) []).
      - by rewrite app_nil_r.
      - apply scratchDir_not_root. }
    destruct (mkdirp_new_mode (scratchMode w) [] (scratchDir env this) (files w) _ Hnew)
      as [Hn|Hn]; rewrite E in Hn; simpl in Hn; [|done].
    unfold isDir in Hdir. rewrite Hn in Hdir.
    pose proof scratchDir_not_root. by destruct (scratchDir env this).
  - intros contents t o file H Ho.
    apply exec_writeToDisk in H as (bytes & r1 & r2 & r3 & H). unfold stagingEnds in H.
    destruct r1 as [[]|?]; [destruct r2 as [[]|?]; [destruct r3 as [[]|?]|]|];
      destruct H as [-> ->]; try done.
    injection Ho as <-. exists bytes. split; [apply scriptPath_layout|done].
  - intros w contents file. rewrite run_writeToDisk. cbn [outcome final fst snd].
    set (bytes := nextBytes 12 w).
    destruct (mkdirp (scratchMode w) [] (scratchDir env this) (files w))
      as [[[]|e1] fs1] eqn:E1; cbn [fst snd]; [|done].
    destruct (mkdirp (regDirMode w) [] (regDir env this) fs1)
      as [[[]|e2] fs2] eqn:E2; cbn [fst snd]; [|done].
    destruct (writeFile (scriptPath env this bytes) contents (scriptMode w) fs2)
      as [[[]|e3] fs3] eqn:E3; cbn [fst snd]; [|done].
    intros [= <-]. split; [apply nextBytes_length|]. split; [done|].
    split.
    { rewrite (proj1 (uint8ArrayToHex_digits _)). unfold bytes. by rewrite nextBytes_length. }
    intros Hnew. exists (scriptMode w). split; [|apply scriptMode_read_only].
    cbn [outcome final fst snd]. change (files (withFiles fs3 _)) with fs3.
    assert (fs2 !! scriptPath env this bytes = None) as Hn2.
    { assert (fs2 !! scriptPath env this bytes = None \/
              exists m, fs2 !! scriptPath env this bytes = Some (Dir m)) as [Hn|[m Hn]].
      { destruct (mkdirp_new_mode (scratchMode w) [] (scratchDir env this) (files w) _ Hnew)
          as [Hn|Hn]; rewrite E1 in Hn; simpl in Hn.
        - destruct (mkdirp_new_mode (regDirMode w) [] (regDir env this) fs1 _ Hn)
            as [Hn'|Hn']; rewrite E2 in Hn'; simpl in Hn'; eauto.
        - pose proof (mkdirp_preserves (regDirMode w) [] (regDir env this) fs1 _ _ Hn) as Hn'.
          rewrite E2 in Hn'. simpl in Hn'. eauto. }
      - done.
      - unfold writeFile in E3. by rewrite Hn in E3. }
    apply writeFile_ok in E3 as (m & -> & Hm & _).
    rewrite lookup_insert_eq. f_equal. f_equal. by apply Hm.
Qed.

(** C3.  [_executeRegistryScript] stages the script and starts
    "reg.exe import <file>".  When the process was started and exits, the
    "exit" callback first calls [unlinkSync] on the staged file and, when
    that has returned, settles: it resolves when the exit code is 0 and
    rejects with "couldn't execute registry script" on any other exit code
    and on a signal.  On the in-memory file system the staged file is then
    there, with the script as its content, in the world in which the
    process is started, and it is gone from the final world, on both paths.
    Two paths leave the promise unsettled and the staged file behind.  When
    the process cannot be started, the child emits "error", which has no
    listener: the "exit" callback never runs and [unlinkSync] is not
    called; on the in-memory file system the staged file is still there in
    the final world.  When [unlinkSync] throws inside the callback, the
    promise is not settled either, whatever the exit code.  When the
    staging fails no process is started. *)
Theorem staged_script_cleanup (script : string) :
  (forall t o,
      exec (_executeRegistryScript env this script) t o <->
      exists ts ofile,
        exec (_writeToDisk env this script) ts ofile /\
        match ofile with
        | Resolved file =>
            (exists status unlinked,
                t = ts ++ [regImport file status; scriptUnlink file unlinked] /\
                o = importOutcome status unlinked) \/
            (exists e, t = ts ++ [regImportFailed file e] /\ o = Uncaught e)
        | Rejected e => t = ts /\ o = Rejected e
        | Uncaught e => t = ts /\ o = Uncaught e
        end) /\
  (forall w file status,
      outcome (run handle (_writeToDisk env this script) w) = Resolved file ->
      hd (OnExit succeeded) (exits w) = OnExit status ->
      let staged := run handle (_writeToDisk env this script) w in
      let r := run handle (_executeRegistryScript env this script) w in
      exists wExit,
        history r =
          history staged ++
          [(final staged, regImport file status); (wExit, scriptUnlink file (Ok tt))] /\
        (exists m, files (final staged) !! file = Some (File script m)) /\
        files (final r) !! file = None /\
        outcome r = if bool_decide (exit_code status = Some 0) then Resolved tt
                    else Rejected (Error "couldn't execute registry script")) /\
  (forall w file e,
      outcome (run handle (_writeToDisk env this script) w) = Resolved file ->
      hd (OnExit succeeded) (exits w) = OnError e ->
      let staged := run handle (_writeToDisk env this script) w in
      let r := run handle (_executeRegistryScript env this script) w in
      history r = history staged ++ [(final staged, regImportFailed file e)] /\
      (exists m, files (final r) !! file = Some (File script m)) /\
      outcome r = Uncaught e) /\
  (forall w e,
      outcome (run handle (_writeToDisk env this script) w) = Rejected e ->
      run handle (_executeRegistryScript env this script) w =
      (Rejected e, final (run handle (_writeToDisk env this script) w),
       history (run handle (_writeToDisk env this script) w))).
Proof.
  assert (forall w file os ws hs,
             run handle (_writeToDisk env this script) w = (os, ws, hs) -> os = Resolved file ->
             exists m, files ws !! file = Some (File script m) /\ exits ws = exits w) as Hstage.
  { intros w file os ws hs Erun ->. rewrite run_writeToDisk in Erun.
    destruct (mkdirp (scratchMode w) [] (scratchDir env this) (files w))
      as [[[]|e1] fs1] eqn:E1; cbn [fst snd] in Erun; [|done].
    destruct (mkdirp (regDirMode w) [] (regDir env this) fs1)
      as [[[]|e2] fs2] eqn:E2; cbn [fst snd] in Erun; [|done].
    destruct (writeFile (scriptPath env this (nextBytes 12 w)) script (scriptMode w) fs2)
      as [[[]|e3] fs3] eqn:E3; cbn [fst snd] in Erun; [|done].
    injection Erun as <- <- <-.
    apply writeFile_ok in E3 as (m & -> & _). exists m. split; [|done].
    apply lookup_insert_eq. }
  split; [apply exec_executeRegistryScript|]. split; [|split].
  - intros w file status Hstaged Hexit staged r. subst staged r.
    unfold _executeRegistryScript, mbind, Prog_bind. rewrite run_bind. cbn zeta.
    destruct (run handle (_writeToDisk env this script) w) as [[os ws] hs] eqn:Erun.
    cbn [outcome final history fst snd] in *.
    destruct (Hstage _ _ _ _ _ Erun Hstaged) as (m & Hfile & Hexits). subst os.
    rewrite run_call_bind. cbn zeta. cbn [handle fst snd]. rewrite Hexits, Hexit.
    rewrite run_call_bind. cbn zeta. cbn [handle fst snd files].
    rewrite (unlink_file _ _ _ _ Hfile). cbn [fst snd].
    eexists.
    destruct (bool_decide (exit_code status = Some 0));
      cbn [run outcome final history fst snd mret Prog_ret files withFiles].
    all: split; [reflexivity|]; split; [eauto|]; split; [apply lookup_delete_eq|reflexivity].
  - intros w file e Hstaged Herror staged r. subst staged r.
    unfold _executeRegistryScript, mbind, Prog_bind. rewrite run_bind. cbn zeta.
    destruct (run handle (_writeToDisk env this script) w) as [[os ws] hs] eqn:Erun.
    cbn [outcome final history fst snd] in *.
    destruct (Hstage _ _ _ _ _ Erun Hstaged) as (m & Hfile & Hexits). subst os.
    rewrite run_call_bind. cbn zeta. cbn [handle fst snd]. rewrite Hexits, Herror.
    cbn [run outcome final history fst snd files]. eauto.
  - intros w e Hfail.
    unfold _executeRegistryScript, mbind, Prog_bind. rewrite run_bind. cbn zeta.
    by rewrite Hfail.
Qed.

Lemma run_removeEntry (name : string) (w : World) :
  let m := rm (path_join (topLvlTmpDir env) [name]) true (files w) in
  run handle (removeEntry env name) w =
  (Resolved tt, withFiles m.2 w, [(w, removal env name m.1)]).
Proof.
  intros m. unfold removeEntry. simpl. fold m.
  destruct (rm_recursive (path_join (topLvlTmpDir env) [name]) (files w)) as [[Hm|Hm] _];
    fold m in Hm; rewrite Hm; reflexivity.
Qed.

(** The sweep on the in-memory file system: it never aborts, removes
    every entry it is given and adds nothing. *)
Lemma run_sweep (names : list string) (w : World) :
  let r := run handle (forOf names (removeEntry env)) w in
  outcome r = Resolved tt /\
  files (final r) ⊆ files w /\
  (forall name, name ∈ names ->
      files (final r) !! (topLvlTmpDir env ++ [name]) = None /\
      exists res, removal env name res ∈ trace r).
Proof.
  revert w. induction names as [|n rest IH]; intros w.
  { simpl. split; [done|]. split; [done|]. intros name Hin. by apply elem_of_nil in Hin. }
  change (forOf (n :: rest) (removeEntry env))
    with (bind (removeEntry env n) (fun _ => forOf rest (removeEntry env))).
  cbn zeta. rewrite run_bind, run_removeEntry. cbn zeta. cbn [outcome final history fst snd].
  set (w1 := withFiles (rm (path_join (topLvlTmpDir env) [n]) true (files w)).2 w).
  destruct (IH w1) as (Ho & Hsub & Hall).
  destruct (rm_recursive (path_join (topLvlTmpDir env) [n]) (files w)) as (_ & Hgone & Hrm & _).
  split; [done|]. split; [by etrans|].
  intros name Hin. apply elem_of_cons in Hin as [->|Hin].
  - split.
    + eapply lookup_weaken_None; [exact Hgone|exact Hsub].
    + eexists. unfold trace, history. cbn [snd fmap list_fmap]. apply elem_of_cons. by left.
  - destruct (Hall name Hin) as [Hnone [res Hres]]. split; [done|].
    exists res. unfold trace, history in *. cbn [snd fmap list_fmap]. apply elem_of_cons. by right.
Qed.

Lemma topLvlTmpDir_not_root : topLvlTmpDir env <> [].
Proof. unfold topLvlTmpDir, path_join. by destruct (tempPath env). Qed.

(** C4.  Against every environment, [deleteTutanotaTempDir] lists the
    top-level directory and removes its entries recursively, one after the
    other.  A removal that fails with code ENOENT or EACCES is swallowed and
    the next entry is tried; a removal that fails otherwise ends the sweep,
    which throws that error.  When the listing fails with ENOENT the purge
    returns normally; another failure of the listing is thrown.  On the
    in-memory file system, when the top-level directory is absent the purge
    returns normally after the failed listing and changes nothing. *)
Theorem deleteTutanotaTempDir_spec :
  (forall t o,
      exec (deleteTutanotaTempDir env) t o <->
      (exists e, t = [listing env (Failed e)] /\
                 o = if codeIs e "ENOENT" then Resolved tt else Rejected e) \/
      (exists tmps rs, t = listing env (Ok tmps) :: removals env tmps rs /\ sweepEnds tmps rs o)) /\
  (forall w,
      files w !! topLvlTmpDir env = None ->
      run handle (deleteTutanotaTempDir env) w =
      (Resolved tt, w, [(w, listing env (Failed (fsError "ENOENT")))])).
Proof.
  split; [apply exec_deleteTutanotaTempDir|].
  intros w Habsent. unfold deleteTutanotaTempDir, mbind, Prog_bind.
  fold (topLvlTmpDir env). rewrite run_try_catch, run_await_bind. cbn zeta. cbn [handle fst snd].
  assert (readdir (topLvlTmpDir env) (files w) = Failed (fsError "ENOENT")) as ->.
  { unfold readdir, isDir. rewrite Habsent.
    pose proof topLvlTmpDir_not_root. by destruct (topLvlTmpDir env). }
  reflexivity.
Qed.

Lemma removals_lookup (tmps : list string) (rs : list (Result unit)) (name : string) :
  length rs = length tmps -> name ∈ tmps -> exists res, removal env name res ∈ removals env tmps rs.
Proof.
  revert rs. induction tmps as [|tmp rest IH]; intros rs Hlen Hin.
  { by apply elem_of_nil in Hin. }
  destruct rs as [|r rs]; [done|]. simpl in Hlen.
  apply elem_of_cons in Hin as [->|Hin].
  - exists r. simpl. apply elem_of_cons. by left.
  - destruct (IH rs) as [res Hres]; [lia|done|].
    exists res. simpl. apply elem_of_cons. by right.
Qed.

(** C10.  The purge does not spare the scratch directory of the process
    that runs it.  On the in-memory file system: after a call of
    [getTutanotaTempPath] that returned [p], the directory [p] is there; a
    call of [deleteTutanotaTempDir] then issues the recursive removal of
    [p], named by the own [randomDirectoryName], returns normally, and [p]
    is gone.  Against every environment: a purge that returns normally
    after a listing has issued the removal of every name listed, among them
    the own [randomDirectoryName] when it is listed. *)
Theorem purge_removes_own_scratch_dir :
  (forall w p,
      outcome (run handle (getTutanotaTempPath env this) w) = Resolved p ->
      let w1 := final (run handle (getTutanotaTempPath env this) w) in
      let r := run handle (deleteTutanotaTempDir env) w1 in
      p = path_join (topLvlTmpDir env) [randomDirectoryName this] /\
      isDir (files w1) p = true /\
      outcome r = Resolved tt /\
      (exists res, Ev (RmSync p true) res ∈ trace r) /\
      files (final r) !! p = None) /\
  (forall t tmps,
      exec (deleteTutanotaTempDir env) t (Resolved tt) ->
      head t = Some (listing env (Ok tmps)) ->
      forall name, name ∈ tmps -> exists res, removal env name res ∈ t).
Proof.
  split.
  - intros w p Hp w1 r.
    assert (p = scratchDir env this /\ isDir (files w1) (topLvlTmpDir env) = true /\
            isDir (files w1) (scratchDir env this) = true) as (-> & Htop & Hown).
    { subst w1. revert Hp. rewrite run_getTutanotaTempPath. cbn zeta. cbn [outcome final fst snd].
      destruct (mkdirp (scratchMode w) [] (scratchDir env this) (files w)) as [[[]|e] fs1] eqn:E;
        cbn [fst snd]; [|done].
      intros [= <-]. split; [done|]. change (files (withFiles fs1 w)) with fs1. split.
      - apply (mkdirp_dirs _ _ _ _ _ E (topLvlTmpDir env) [randomDirectoryName this]).
        + unfold scratchDir, topLvlTmpDir, path_join. by rewrite <- app_assoc.
        + apply topLvlTmpDir_not_root.
      - apply (mkdirp_dirs _ _ _ _ _ E (scratchDir env this) []).
        + by rewrite app_nil_r.
        + apply scratchDir_not_root. }
    assert (scratchDir env this = path_join (topLvlTmpDir env) [randomDirectoryName this]) as Hlayout.
    { unfold scratchDir, topLvlTmpDir, path_join. by rewrite <- app_assoc. }
    split; [done|]. split; [done|].
    destruct (readdir_dir _ _ Htop) as (names & Hread & Hnames).
    assert (randomDirectoryName this ∈ names) as Hin.
    { apply Hnames. fold (path_join (topLvlTmpDir env) [randomDirectoryName this]).
      rewrite <- Hlayout. unfold isDir in Hown.
      destruct (files w1 !! scratchDir env this); [done|].
      pose proof scratchDir_not_root. by destruct (scratchDir env this). }
    subst r. unfold deleteTutanotaTempDir, mbind, Prog_bind.
    fold (topLvlTmpDir env). fold (removeEntry env).
    rewrite run_try_catch, run_await_bind. cbn zeta. cbn [handle fst snd]. rewrite Hread.
    destruct (run_sweep names w1) as (Ho & _ & Hall).
    destruct (Hall _ Hin) as [Hgone [res Hres]].
    cbn [outcome final history fst snd]. rewrite Ho. cbn [outcome final history fst snd].
    split; [done|]. split.
    + exists res. rewrite Hlayout. unfold trace, history. cbn [snd fmap list_fmap].
      apply elem_of_cons. right. exact Hres.
    + rewrite Hlayout. exact Hgone.
  - intros t tmps Hexec Hhead name Hname.
    apply exec_deleteTutanotaTempDir in Hexec
      as [(e & -> & _)|(tmps' & rs & -> & Hends)]; simpl in Hhead;
      apply (inj Some), Ev_inj in Hhead; [done|]. injection Hhead as ->.
    destruct Hends as [(Hlen & _ & _)|(pre & e & _ & _ & _ & _ & Hrej)]; [|done].
    destruct (removals_lookup tmps rs name Hlen Hname) as [res Hres].
    exists res. apply elem_of_cons. by right.
Qed.
End MemRuns.

(** ** [isRectContainedInRect] *)

Lemma isRectContainedInRect_true (c l : Rectangle) :
  isRectContainedInRect c l = true <->
  Rect.x c - 10 <= Rect.x l /\ Rect.y c - 10 <= Rect.y l /\
  Rect.width l + Rect.x l <= Rect.width c + 10 /\
  Rect.height l + Rect.y l <= Rect.height c + 10.
Proof.
  unfold isRectContainedInRect. rewrite !andb_true_iff, !Z.geb_le, !Z.leb_le. tauto.
Qed.

(** X1.  [isRectContainedInRect] compares the right and the bottom edge of
    [lastBounds] with the width and the height of [closestRect], not with
    its right and bottom edge.  For a [closestRect] whose origin is not
    negative, a rectangle that is accepted lies within [closestRect] grown
    by 10 on each side; for one whose origin is not positive, every
    rectangle within that margin is accepted.  At the origin (0, 0) the
    function decides exactly that containment. *)
Theorem isRectContainedInRect_geometry (closestRect lastBounds : Rectangle) :
  (0 <= Rect.x closestRect -> 0 <= Rect.y closestRect ->
   isRectContainedInRect closestRect lastBounds = true ->
   withinMargin 10 closestRect lastBounds) /\
  (Rect.x closestRect <= 0 -> Rect.y closestRect <= 0 ->
   withinMargin 10 closestRect lastBounds ->
   isRectContainedInRect closestRect lastBounds = true) /\
  (Rect.x closestRect = 0 -> Rect.y closestRect = 0 ->
   (isRectContainedInRect closestRect lastBounds = true <->
    withinMargin 10 closestRect lastBounds)).
Proof.
  rewrite isRectContainedInRect_true. unfold withinMargin.
  split; [|split]; intros; try split; intros; lia.
Qed.

(** X2.  A rectangle is accepted as contained in itself exactly when its
    origin is at most 10 to the right of and at most 10 below (0, 0): the
    bounds of a display that lies further right or further down are not
    contained in themselves. *)
Theorem isRectContainedInRect_self (r : Rectangle) :
  isRectContainedInRect r r = true <-> Rect.x r <= 10 /\ Rect.y r <= 10.
Proof. rewrite isRectContainedInRect_true. lia. Qed.

(** X3.  When the origin of [closestRect] lies more than its width plus 20
    to the right, or more than its height plus 20 down, no rectangle of
    non-negative width and height is accepted. *)
Theorem isRectContainedInRect_far_display (closestRect lastBounds : Rectangle) :
  0 <= Rect.width lastBounds -> 0 <= Rect.height lastBounds ->
  Rect.width closestRect + 20 < Rect.x closestRect \/
  Rect.height closestRect + 20 < Rect.y closestRect ->
  isRectContainedInRect closestRect lastBounds = false.
Proof.
  intros Hw Hh Hfar. apply not_true_iff_false. rewrite isRectContainedInRect_true. lia.
Qed.

(** ** More on the lock *)

Section LockOutcomes.
Context (env : Env).

(** The override check issues reads and writes of the lock file only. *)
Lemma check_calls (tc : list Entry) (o : Outcome bool) :
  exec (singleInstanceLockOverridden env) tc o ->
  Forall (fun e => (exists r, e = lockRead env r) \/ (exists r, e = lockWrite env r)) tc.
Proof.
  intros H. apply exec_singleInstanceLockOverridden in H
    as [(e & -> & _)|[(observed & e & -> & _)|(observed & b & -> & _)]];
    repeat (apply Forall_cons; split); try apply Forall_nil; eauto.
Qed.

(** X4.  [makeSingleInstance] never rejects: against every environment it
    resolves, whatever the file system answers.  It resolves to [false]
    exactly when it has called [app.quit()], which it does last. *)
Theorem makeSingleInstance_false_iff_quit (t : list Entry) (o : Outcome bool) :
  exec (makeSingleInstance env) t o ->
  (exists canStay, o = Resolved canStay) /\
  (o = Resolved false <-> Ev Quit tt ∈ t) /\
  (Ev Quit tt ∈ t -> last t = Some (Ev Quit tt)).
Proof.
  intros H. apply exec_makeSingleInstance in H
    as (w & [[-> ->]|(tc & canStay & lastCall & Hc & -> & -> & Hlast)]).
  - split; [eauto|]. split.
    + split; [done|]. intros Hin. unfold lockWrite, lockRequest in Hin.
      repeat (apply elem_of_cons in Hin as [Hin|Hin]; [discriminate|]).
      by apply elem_of_nil in Hin.
    + intros Hin. unfold lockWrite, lockRequest in Hin.
      repeat (apply elem_of_cons in Hin as [Hin|Hin]; [discriminate|]).
      by apply elem_of_nil in Hin.
  - split; [eauto|].
    assert (Ev Quit tt ∉ tc) as Hnot.
    { intros Hin. apply check_calls in Hc. rewrite Forall_forall in Hc.
      destruct (Hc _ Hin) as [[r Hr]|[r Hr]]; discriminate. }
    destruct canStay.
    + destruct Hlast as [granted ->].
      assert (Ev Quit tt ∉ [lockWrite env w; lockRequest false; Ev (Delay 1500) tt] ++
                           tc ++ [lockRequest granted]) as Hno.
      { intros Hin. apply elem_of_app in Hin as [Hin|Hin].
        - unfold lockWrite, lockRequest in Hin.
          repeat (apply elem_of_cons in Hin as [Hin|Hin]; [discriminate|]).
          by apply elem_of_nil in Hin.
        - apply elem_of_app in Hin as [Hin|Hin]; [done|].
          apply list_elem_of_singleton in Hin. discriminate. }
      split; [split; [done|]|]; intros Hin; by apply Hno in Hin.
    + subst lastCall. split.
      * split; [|done]. intros _. apply elem_of_app. right. apply elem_of_app. right.
        by apply list_elem_of_singleton.
      * intros _. by rewrite !app_assoc, last_snoc.
Qed.

(** X5.  The fallback of lines 102-104.  When the lock file cannot be read,
    or cannot be written, [makeSingleInstance] resolves to the answer of
    its first request of the OS lock, as the plain single-instance lock
    would: an instance that is refused quits, whatever version is
    running. *)
Theorem makeSingleInstance_version_agnostic (t : list Entry) (o : Outcome bool) :
  exec (makeSingleInstance env) t o ->
  (forall r, lockRead env r ∈ t -> exists e, r = Failed e) \/
  (forall r, lockWrite env r ∈ t -> exists e, r = Failed e) ->
  exists w granted rest,
    t = lockWrite env w :: lockRequest granted :: rest /\
    o = Resolved granted /\
    (granted = false -> last t = Some (Ev Quit tt)).
Proof.
  intros H Hbad. apply exec_makeSingleInstance in H
    as (w & [[-> ->]|(tc & canStay & lastCall & Hc & -> & -> & Hlast)]).
  - exists w, true, []. done.
  - exists w, false. eexists. split; [reflexivity|].
    assert (canStay = false) as ->.
    { apply exec_singleInstanceLockOverridden in Hc
        as [(e & -> & [= <-])|[(observed & e & -> & [= <-])|(observed & b & -> & _ & _)]];
        [done..|].
      destruct Hbad as [Hbad|Hbad].
      - destruct (Hbad (Ok observed)) as [e He]; [|done].
        apply elem_of_app. right. apply elem_of_app. left. apply elem_of_cons. by left.
      - destruct (Hbad (Ok tt)) as [e He]; [|done].
        apply elem_of_app. right. apply elem_of_app. left.
        apply elem_of_cons. right. apply elem_of_cons. by left. }
    subst lastCall. split; [done|]. intros _. by rewrite !app_assoc, last_snoc.
Qed.
End LockOutcomes.

Section MemLock.
Import Mem.

Opaque effectiveMode octal.

(** The override check on a lock file that can be read and written. *)
Lemma run_check (env : Env) (w : World) (observed : string) (m : Z) :
  files w !! getLockFilePath env = Some (File observed m) ->
  allows m ownerRead = true -> allows m ownerWrite = true ->
  run handle (singleInstanceLockOverridden env) w =
  (Resolved (negb (String.eqb observed (appVersion env))),
   withFiles (<[getLockFilePath env := File (appVersion env) m]> (files w)) w,
   [(w, lockRead env (Ok observed)); (w, lockWrite env (Ok tt))]).
Proof.
  intros Hfile Hr Hw. unfold singleInstanceLockOverridden, mbind, Prog_bind.
  cbn [try_catch await bind run handle fst snd].
  unfold readFile. rewrite Hfile, Hr. cbn [try_catch bind run handle fst snd].
  unfold writeFile. rewrite Hfile, Hw. cbn [try_catch bind run handle fst snd mret Prog_ret].
  reflexivity.
Qed.

(** The same check while a peer is running: the check does not wait, so
    the peer does not come in. *)
Lemma run_check_beside (env peer : Env) (w : World) (observed : string) (m : Z) :
  files w !! getLockFilePath env = Some (File observed m) ->
  allows m ownerRead = true -> allows m ownerWrite = true ->
  run (besidePeer peer) (singleInstanceLockOverridden env) w =
  (Resolved (negb (String.eqb observed (appVersion env))),
   withFiles (<[getLockFilePath env := File (appVersion env) m]> (files w)) w,
   [(w, lockRead env (Ok observed)); (w, lockWrite env (Ok tt))]).
Proof.
  intros Hfile Hr Hw. unfold singleInstanceLockOverridden, mbind, Prog_bind.
  cbn [try_catch await bind run besidePeer handle fst snd].
  unfold readFile. rewrite Hfile, Hr. cbn [try_catch bind run besidePeer handle fst snd].
  unfold writeFile. rewrite Hfile, Hw.
  cbn [try_catch bind run besidePeer handle fst snd mret Prog_ret].
  reflexivity.
Qed.

(** The first step of [makeSingleInstance] on such a lock file. *)
Lemma run_first_write (env : Env) (h : forall X : Type, Call X -> World -> X * World)
    (w : World) (observed : string) (m : Z) :
  (forall p data opts w', h _ (WriteFile p data opts) w' = handle _ (WriteFile p data opts) w') ->
  files w !! getLockFilePath env = Some (File observed m) ->
  allows m ownerWrite = true ->
  run h (try_catch
           (await (WriteFile (getLockFilePath env) (appVersion env)
                     {| w_encoding := "utf8"; w_mode := None |})) noOp) w =
  (Resolved tt, withFiles (<[getLockFilePath env := File (appVersion env) m]> (files w)) w,
   [(w, lockWrite env (Ok tt))]).
Proof.
  intros Hh Hfile Hw. cbn [try_catch await run fst snd]. rewrite Hh.
  cbn [handle fst snd]. unfold writeFile. rewrite Hfile, Hw. reflexivity.
Qed.

(** A check on a lock file that holds the own version leaves it so,
    whatever the permissions of the file. *)
Lemma run_check_keeps_version (env : Env) (w : World) (m : Z) :
  files w !! getLockFilePath env = Some (File (appVersion env) m) ->
  files (final (run handle (singleInstanceLockOverridden env) w)) !! getLockFilePath env =
    Some (File (appVersion env) m) /\
  exists canStay, outcome (run handle (singleInstanceLockOverridden env) w) = Resolved canStay.
Proof.
  intros Hfile. unfold singleInstanceLockOverridden, mbind, Prog_bind.
  cbn [try_catch await bind run handle fst snd].
  unfold readFile. rewrite Hfile.
  destruct (allows m ownerRead); cbn [try_catch bind run handle fst snd outcome final mret Prog_ret].
  - unfold writeFile. rewrite Hfile.
    destruct (allows m ownerWrite);
      cbn [try_catch bind run handle fst snd outcome final mret Prog_ret files withFiles].
    + split; [by rewrite lookup_insert_eq|eauto].
    + split; [done|eauto].
  - split; [done|eauto].
Qed.

Context (env : Env).

(** X6.  On the in-memory file system, with a lock file that can be read
    and written: [singleInstanceLockOverridden] leaves the own version in
    the lock file, so a second check that follows the first reports no
    override, whatever the first one found. *)
Theorem override_is_reported_once (w : World) (observed : string) (m : Z) :
  files w !! getLockFilePath env = Some (File observed m) ->
  allows m ownerRead = true -> allows m ownerWrite = true ->
  let first := run handle (singleInstanceLockOverridden env) w in
  outcome first = Resolved (negb (String.eqb observed (appVersion env))) /\
  outcome (run handle (singleInstanceLockOverridden env) (final first)) = Resolved false /\
  files (final (run handle (singleInstanceLockOverridden env) (final first))) =
    files (final first).
Proof.
  intros Hfile Hr Hw first. subst first. rewrite (run_check env w observed m) by done.
  cbn [outcome final fst snd]. split; [done|].
  rewrite (run_check env _ (appVersion env) m); [| |done..].
  - cbn [outcome final fst snd]. rewrite String.eqb_refl. split; [done|].
    cbn [files withFiles]. by rewrite insert_insert_eq.
  - cbn [files withFiles]. by rewrite lookup_insert_eq.
Qed.

Opaque singleInstanceLockOverridden.

(** X7.  On the in-memory file system, with a lock file that can be read
    and written and nobody else writing to it: an instance that is refused
    the OS lock waits 1500 ms, finds its own version in the lock file,
    calls [app.quit()] and resolves to [false], whatever version the lock
    file held before. *)
Theorem refused_instance_alone_quits (w : World) (observed : string) (m : Z) :
  files w !! getLockFilePath env = Some (File observed m) ->
  allows m ownerRead = true -> allows m ownerWrite = true ->
  hd true (lockGrants w) = false ->
  let r := run handle (makeSingleInstance env) w in
  outcome r = Resolved false /\
  quitted (final r) = true /\
  clock (final r) = clock w + 1500 /\
  files (final r) = <[getLockFilePath env := File (appVersion env) m]> (files w).
Proof.
  intros Hfile Hr Hw Hrefused r. subst r.
  unfold makeSingleInstance, mbind, Prog_bind.
  rewrite run_bind, (run_first_write env handle w observed m) by done.
  cbn zeta. cbn [outcome final history fst snd].
  rewrite run_call_bind. cbn zeta. cbn [handle fst snd lockGrants withFiles].
  rewrite Hrefused. cbn iota.
  rewrite run_call_bind. cbn zeta. cbn [handle fst snd].
  rewrite run_bind. rewrite (run_check env _ (appVersion env) m).
  - cbn zeta. cbn [outcome final history fst snd]. rewrite String.eqb_refl.
    cbn [negb]. cbn [bind call run handle fst snd outcome final history mret Prog_ret
                       quitted clock files withFiles].
    split; [done|]. split; [done|]. split; [done|]. by rewrite insert_insert_eq.
  - cbn [files withFiles]. by rewrite lookup_insert_eq.
  - done.
  - done.
Qed.

(** [makeSingleInstance] after a first write that succeeded. *)
Lemma run_makeSingleInstance_written (w : World) (fs1 : gmap Path Node) :
  writeFile (getLockFilePath env) (appVersion env)
    (effectiveMode None (octal [6; 6; 6]) (umask w)) (files w) = (Ok tt, fs1) ->
  let r := run handle (makeSingleInstance env) w in
  (exists canStay, outcome r = Resolved canStay) /\
  exists m, files (final r) !! getLockFilePath env = Some (File (appVersion env) m).
Proof.
  intros Hwrite r. subst r.
  pose proof Hwrite as Hfs1. apply writeFile_ok in Hfs1 as (m & -> & _).
  unfold makeSingleInstance, mbind, Prog_bind. rewrite run_bind.
  assert (run handle
            (try_catch
               (await (WriteFile (getLockFilePath env) (appVersion env)
                         {| w_encoding := "utf8"; w_mode := None |})) noOp) w =
          (Resolved tt, withFiles (<[getLockFilePath env := File (appVersion env) m]> (files w)) w,
           [(w, lockWrite env (Ok tt))])) as ->.
  { cbn [try_catch await run handle fst snd w_mode]. rewrite Hwrite. reflexivity. }
  cbn zeta. cbn [outcome final history fst snd].
  set (w1 := withFiles (<[getLockFilePath env := File (appVersion env) m]> (files w)) w).
  assert (files w1 !! getLockFilePath env = Some (File (appVersion env) m)) as Hfile
    by apply lookup_insert_eq.
  rewrite run_call_bind. cbn zeta. cbn [handle fst snd].
  destruct (hd true (lockGrants w1)).
  - cbn [run outcome final fst snd mret Prog_ret files]. eauto.
  - rewrite run_call_bind. cbn zeta. cbn [handle fst snd]. rewrite run_bind. cbn zeta.
    match goal with
    | |- context [run handle (singleInstanceLockOverridden env) ?w2] =>
        destruct (run_check_keeps_version env w2 m Hfile) as (Hkept & canStay & Ho)
    end.
    rewrite Ho.
    destruct canStay;
      cbn [bind call run handle fst snd outcome final history mret Prog_ret files withFiles];
      eauto.
Qed.

(** X8.  On the in-memory file system, when the first write of
    [makeSingleInstance] succeeds, the lock file holds the version of the
    instance when [makeSingleInstance] has resolved, on every path: when
    the OS lock is granted at once, and when it is refused and the check
    follows, whatever the permissions of the file let the check do. *)
Theorem lock_file_names_the_last_starter (w : World) :
  let r := run handle (makeSingleInstance env) w in
  head (trace r) = Some (lockWrite env (Ok tt)) ->
  (exists canStay, outcome r = Resolved canStay) /\
  exists m, files (final r) !! getLockFilePath env = Some (File (appVersion env) m).
Proof.
  intros r Hhead.
  destruct (writeFile (getLockFilePath env) (appVersion env)
              (effectiveMode None (octal [6; 6; 6]) (umask w)) (files w)) as [[[]|e] fs1] eqn:E.
  - exact (run_makeSingleInstance_written w fs1 E).
  - exfalso. subst r. revert Hhead.
    unfold makeSingleInstance, mbind, Prog_bind. rewrite run_bind.
    cbn [try_catch await run handle fst snd w_mode]. rewrite E.
    cbn [try_catch noOp run outcome final history trace fst snd app fmap list_fmap head].
    intros Hhead. apply (inj Some), Ev_inj in Hhead. discriminate.
Qed.

(** X9.  The handshake of two instances.  An instance [env] starts while
    [peer] runs, on a lock file that can be read and written, and is
    refused the OS lock.  While it waits, [peer] runs its check.  Both
    checks agree: when the versions differ both answer [true], the starting
    instance resolves to [true] without quitting and [peer] is told that
    the lock was overridden; when the versions are the same both answer
    [false] and the starting instance quits.  The lock file ends with the
    version of the starting instance. *)
Theorem version_handshake (peer : Env) (w : World) (observed : string) (m : Z) :
  tempPath peer = tempPath env ->
  files w !! getLockFilePath env = Some (File observed m) ->
  allows m ownerRead = true -> allows m ownerWrite = true ->
  hd true (lockGrants w) = false ->
  let r := run (besidePeer peer) (makeSingleInstance env) w in
  let differ := negb (String.eqb (appVersion peer) (appVersion env)) in
  outcome r = Resolved differ /\
  quitted (final r) = (quitted w || negb differ) /\
  files (final r) !! getLockFilePath env = Some (File (appVersion env) m) /\
  exists waiting,
    (waiting, Ev (Delay 1500) tt) ∈ history r /\
    outcome (run handle (singleInstanceLockOverridden peer) waiting) = Resolved differ.
Proof.
  intros Htemp Hfile Hr Hw Hrefused r differ. subst r.
  assert (getLockFilePath peer = getLockFilePath env) as Hlock.
  { unfold getLockFilePath. by rewrite Htemp. }
  unfold makeSingleInstance, mbind, Prog_bind.
  rewrite run_bind, (run_first_write env (besidePeer peer) w observed m) by done.
  cbn zeta. cbn [outcome final history fst snd].
  set (w1 := withFiles (<[getLockFilePath env := File (appVersion env) m]> (files w)) w).
  rewrite run_call_bind. cbn zeta. cbn [besidePeer handle fst snd].
  change (lockGrants w1) with (lockGrants w). rewrite Hrefused. cbn iota.
  set (w2 := {| files := files w1; umask := umask w1; entropy := entropy w1;
                lockGrants := tl (lockGrants w); protocolGrants := protocolGrants w1;
                exits := exits w1; settings := settings w1; clock := clock w1;
                quitted := quitted w1 |}).
  assert (files w2 !! getLockFilePath peer = Some (File (appVersion env) m)) as Hfile2.
  { rewrite Hlock. cbn [files w2 w1 withFiles]. by rewrite lookup_insert_eq. }
  rewrite run_call_bind. cbn zeta. cbn [besidePeer].
  pose proof (run_check peer w2 (appVersion env) m Hfile2 Hr Hw) as Hpeer.
  rewrite Hpeer. cbn [final fst snd handle].
  rewrite run_bind. rewrite (run_check_beside env peer _ (appVersion peer) m).
  - cbn zeta. cbn [outcome final history fst snd].
    assert (negb (String.eqb (appVersion env) (appVersion peer)) = differ) as Hsym.
    { unfold differ. by rewrite String.eqb_sym. }
    fold differ. destruct differ eqn:Hd.
    + cbn [bind call run besidePeer handle fst snd outcome final history mret Prog_ret
             quitted clock files withFiles negb].
      split; [done|]. split; [by rewrite orb_false_r|]. split.
      * rewrite Hlock. by rewrite lookup_insert_eq.
      * exists w2. split.
        -- apply elem_of_app. right. apply elem_of_cons. right. apply elem_of_cons. by left.
        -- by rewrite Hpeer, Hsym.
    + cbn [bind call run besidePeer handle fst snd outcome final history mret Prog_ret
             quitted clock files withFiles negb].
      split; [done|]. split; [by rewrite orb_true_r|]. split.
      * rewrite Hlock. by rewrite lookup_insert_eq.
      * exists w2. split.
        -- apply elem_of_app. right. apply elem_of_cons. right. apply elem_of_cons. by left.
        -- by rewrite Hpeer, Hsym.
  - cbn [files withFiles]. rewrite Hlock. by rewrite lookup_insert_eq.
  - done.
  - done.
Qed.
End MemLock.

(** ** More on the in-memory file system *)

Section MemFsMore.
Import Mem.
Implicit Types (fs : gmap Path Node) (p q : Path).

(** [rm] changes nothing that is not at or below [p]. *)
Lemma rm_frame p recursive fs q :
  ~ p `prefix_of` q -> (rm p recursive fs).2 !! q = fs !! q.
Proof.
  intros Hq. unfold rm. destruct (fs !! p) as [[c m|m]|] eqn:E; simpl; [|destruct recursive; simpl|]; try done.
  - apply lookup_delete_ne. intros ->. by apply Hq.
  - destruct (fs !! q) as [n|] eqn:Eq.
    + by apply map_lookup_filter_Some_2.
    + apply map_lookup_filter_None. by left.
Qed.

(** What [mkdirp] adds: directories with the given mode, on the way from
    [base] to the target. *)
Lemma mkdirp_frame mode base rest fs q n :
  (mkdirp mode base rest fs).2 !! q = Some n ->
  fs !! q = Some n \/
  (fs !! q = None /\ n = Dir mode /\ exists pre suf, rest = pre ++ suf /\ pre <> [] /\ q = base ++ pre).
Proof.
  revert base fs. induction rest as [|s rest IH]; intros dn fs; simpl; [auto|].
  destruct (fs !! (dn ++ [s])) as [[c m|m]|] eqn:E; simpl; [auto| |].
  - intros H. apply IH in H as [H|(Hq & -> & pre & suf & -> & Hpre & ->)]; [auto|].
    right. split; [done|]. split; [done|]. exists (s :: pre), suf.
    split; [done|]. split; [done|]. by rewrite <- app_assoc.
  - intros H. apply IH in H as [H|(Hq & -> & pre & suf & -> & Hpre & ->)].
    + destruct (decide (dn ++ [s] = q)) as [<-|Hne].
      * rewrite lookup_insert_eq in H. injection H as <-. right.
        split; [done|]. split; [done|]. exists [s], rest. done.
      * rewrite lookup_insert_ne in H by done. auto.
    + right. rewrite lookup_insert_None in Hq. destruct Hq as [Hq _].
      split; [done|]. split; [done|]. exists (s :: pre), suf.
      split; [done|]. split; [done|]. by rewrite <- app_assoc.
Qed.

(** [mkdirp] succeeds when no file is in the way. *)
Lemma mkdirp_no_file mode base rest fs :
  (forall pre suf c m, rest = pre ++ suf -> pre <> [] -> fs !! (base ++ pre) <> Some (File c m)) ->
  (mkdirp mode base rest fs).1 = Ok tt.
Proof.
  revert base fs. induction rest as [|s rest IH]; intros dn fs Hno; simpl; [done|].
  destruct (fs !! (dn ++ [s])) as [[c m|m]|] eqn:E.
  - by destruct (Hno [s] rest c m).
  - apply IH. intros pre suf c m' -> Hpre.
    rewrite <- app_assoc. by apply (Hno (s :: pre) suf).
  - apply IH. intros pre suf c m' -> Hpre.
    rewrite lookup_insert_ne.
    + rewrite <- app_assoc. by apply (Hno (s :: pre) suf).
    + intros Heq. apply (f_equal length) in Heq. rewrite !length_app in Heq.
      destruct pre; [done|]. simpl in Heq. lia.
Qed.

(** [mkdirp] fails with ENOTDIR when a file lies on the way to the
    target. *)
Lemma mkdirp_file_in_way mode base rest fs pre suf c m :
  rest = pre ++ suf -> pre <> [] -> suf <> [] -> fs !! (base ++ pre) = Some (File c m) ->
  (mkdirp mode base rest fs).1 = Failed (fsError "ENOTDIR") /\
  (mkdirp mode base rest fs).2 !! (base ++ pre) = Some (File c m).
Proof.
  revert base fs pre. induction rest as [|s rest IH]; intros dn fs pre Hsplit Hpre Hsuf Hfile.
  { by destruct pre. }
  destruct pre as [|s' pre]; [done|]. injection Hsplit as <- ->. simpl.
  destruct pre as [|s'' pre].
  - rewrite Hfile. simpl. split; [|done]. by destruct suf.
  - replace (dn ++ s :: s'' :: pre) with ((dn ++ [s]) ++ s'' :: pre) in * by by rewrite <- app_assoc.
    destruct (fs !! (dn ++ [s])) as [[c' m'|m']|] eqn:E; simpl.
    + split; [done|]. done.
    + by apply (IH _ _ (s'' :: pre)).
    + apply (IH _ _ (s'' :: pre)); [done..|].
      rewrite lookup_insert_ne; [done|]. intros Heq. apply (f_equal length) in Heq.
      rewrite !length_app in Heq. simpl in Heq. lia.
Qed.

Lemma isDir_lookup fs p : p <> [] -> isDir fs p = true -> exists m, fs !! p = Some (Dir m).
Proof.
  intros Hp. unfold isDir. destruct p; [done|].
  destruct (fs !! _) as [[c m|m]|]; [done|eauto|done].
Qed.

Lemma lookup_isDir fs p m : fs !! p = Some (Dir m) -> isDir fs p = true.
Proof. unfold isDir. intros ->. by destruct p. Qed.
End MemFsMore.

(** ** The purge and the scratch directory on the in-memory file system *)

Section MemPurge.
Import Mem.
Context (env : Env) (this : DesktopUtils).

Opaque effectiveMode octal.

Lemma below_prefix (name : string) (q : Path) :
  topLvlTmpDir env ++ [name] `prefix_of` q -> below (topLvlTmpDir env) q.
Proof. intros [rest ->]. exists name, rest. by rewrite <- app_assoc. Qed.

(** The sweep touches the files only: the rest of the world stays, and so
    does every node that is not below the top-level directory.  What was
    below a directory that the sweep was given is gone. *)
Lemma run_sweep_frame (names : list string) (w : World) :
  let r := run handle (forOf names (removeEntry env)) w in
  final r = withFiles (files (final r)) w /\
  (forall q, ~ below (topLvlTmpDir env) q -> files (final r) !! q = files w !! q) /\
  (forall name m rest,
      name ∈ names -> files w !! (topLvlTmpDir env ++ [name]) = Some (Dir m) ->
      files (final r) !! (topLvlTmpDir env ++ name :: rest) = None).
Proof.
  revert w. induction names as [|n names IH]; intros w.
  { simpl. split; [by destruct w|]. split; [done|]. intros name m rest Hin. by apply elem_of_nil in Hin. }
  change (forOf (n :: names) (removeEntry env))
    with (bind (removeEntry env n) (fun _ => forOf names (removeEntry env))).
  cbn zeta. rewrite run_bind, run_removeEntry. cbn zeta. cbn [outcome final history fst snd].
  set (w1 := withFiles (rm (path_join (topLvlTmpDir env) [n]) true (files w)).2 w).
  destruct (IH w1) as (Hw & Hframe & Hgone).
  destruct (run_sweep env names w1) as (_ & Hsub & _).
  split; [|split].
  - rewrite Hw. reflexivity.
  - intros q Hq. rewrite Hframe by done. subst w1. cbn [files withFiles].
    apply rm_frame. intros Hpre. by apply Hq, (below_prefix n).
  - intros name m rest Hin Hdir.
    destruct (decide (name = n)) as [->|Hne].
    + eapply lookup_weaken_None; [|exact Hsub]. subst w1. cbn [files withFiles].
      destruct (rm_recursive (path_join (topLvlTmpDir env) [n]) (files w)) as (_ & _ & _ & Hbelow).
      apply (Hbelow m); [done|]. exists rest. unfold path_join. by rewrite <- app_assoc.
    + apply elem_of_cons in Hin as [?|Hin]; [done|]. apply (Hgone name m rest Hin).
      subst w1. cbn [files withFiles]. rewrite rm_frame; [done|].
      intros [suf Hsuf]. unfold path_join in Hsuf. rewrite <- app_assoc in Hsuf.
      apply app_inv_head in Hsuf. by injection Hsuf.
Qed.

(** The purge, by the answer of the listing. *)
Lemma run_deleteTutanotaTempDir (w : World) :
  run handle (deleteTutanotaTempDir env) w =
  match readdir (topLvlTmpDir env) (files w) with
  | Ok names =>
      let r := run handle (forOf names (removeEntry env)) w in
      (Resolved tt, final r, (w, listing env (Ok names)) :: history r)
  | Failed e =>
      (if codeIs e "ENOENT" then Resolved tt else Rejected e, w, [(w, listing env (Failed e))])
  end.
Proof.
  unfold deleteTutanotaTempDir, mbind, Prog_bind.
  fold (topLvlTmpDir env). fold (removeEntry env).
  rewrite run_try_catch, run_await_bind. cbn zeta. cbn [handle fst snd].
  destruct (readdir (topLvlTmpDir env) (files w)) as [names|e].
  - destruct (run_sweep env names w) as (Ho & _ & _).
    cbn [outcome final history fst snd]. rewrite Ho. reflexivity.
  - cbn [outcome final history fst snd].
    destruct (codeIs e "ENOENT"); reflexivity.
Qed.

Lemma lockFile_not_below : ~ below (topLvlTmpDir env) (getLockFilePath env).
Proof.
  intros (name & rest & H). unfold getLockFilePath, topLvlTmpDir, path_join in H.
  rewrite <- app_assoc in H. apply app_inv_head in H. discriminate.
Qed.

Lemma topLvlTmpDir_not_below : ~ below (topLvlTmpDir env) (topLvlTmpDir env).
Proof.
  intros (name & rest & H). apply (f_equal length) in H. rewrite length_app in H.
  simpl in H. lia.
Qed.

(** X10.  On the in-memory file system the purge changes nothing but what
    lies below the top-level directory: every other node keeps its content
    and mode, the top-level directory itself stays, and so does the lock
    file, which [getLockFilePath] puts beside the top-level directory and
    not into it.  Nothing is added, and the rest of the world is as it
    was. *)
Theorem purge_spares_what_is_outside (w : World) :
  let r := run handle (deleteTutanotaTempDir env) w in
  final r = withFiles (files (final r)) w /\
  files (final r) ⊆ files w /\
  (forall q, ~ below (topLvlTmpDir env) q -> files (final r) !! q = files w !! q) /\
  files (final r) !! topLvlTmpDir env = files w !! topLvlTmpDir env /\
  files (final r) !! getLockFilePath env = files w !! getLockFilePath env.
Proof.
  intros r.
  assert (final r = withFiles (files (final r)) w /\
          files (final r) ⊆ files w /\
          (forall q, ~ below (topLvlTmpDir env) q -> files (final r) !! q = files w !! q))
    as (Hrest & Hsub & Hframe).
  { subst r. rewrite run_deleteTutanotaTempDir.
    destruct (readdir (topLvlTmpDir env) (files w)) as [names|e].
    - cbn zeta. cbn [final fst snd].
      destruct (run_sweep_frame names w) as (Hw & Hframe & _).
      destruct (run_sweep env names w) as (_ & Hsub & _). done.
    - cbn [final fst snd]. split; [by destruct w|done]. }
  split; [done|]. split; [done|]. split; [done|]. split.
  - apply Hframe, topLvlTmpDir_not_below.
  - apply Hframe, lockFile_not_below.
Qed.

(** The purge of a top-level directory that is there. *)
Lemma run_purge_dir (w : World) :
  isDir (files w) (topLvlTmpDir env) = true ->
  let r := run handle (deleteTutanotaTempDir env) w in
  outcome r = Resolved tt /\
  final r = withFiles (files (final r)) w /\
  files (final r) ⊆ files w /\
  isDir (files (final r)) (topLvlTmpDir env) = true /\
  (forall name, files (final r) !! (topLvlTmpDir env ++ [name]) = None) /\
  (forall name m rest,
      files w !! (topLvlTmpDir env ++ [name]) = Some (Dir m) ->
      files (final r) !! (topLvlTmpDir env ++ name :: rest) = None).
Proof.
  intros Hdir r. subst r. rewrite run_deleteTutanotaTempDir.
  destruct (readdir_dir _ _ Hdir) as (names & -> & Hnames).
  cbn zeta. cbn [outcome final fst snd].
  destruct (run_sweep_frame names w) as (Hw & Hframe & Hgone).
  destruct (run_sweep env names w) as (_ & Hsub & Hall).
  split; [done|]. split; [done|]. split; [done|]. split; [|split].
  - destruct (isDir_lookup _ _ (topLvlTmpDir_not_root env) Hdir) as [m Hm].
    apply (lookup_isDir _ _ m). rewrite Hframe; [done|apply topLvlTmpDir_not_below].
  - intros name.
    destruct (files w !! (topLvlTmpDir env ++ [name])) as [n|] eqn:Hn.
    + apply Hall, Hnames. by rewrite Hn.
    + eapply lookup_weaken_None; [exact Hn|exact Hsub].
  - intros name m rest Hm. apply (Hgone name m rest); [|done].
    apply Hnames. eauto.
Qed.

Lemma readdir_empty (fs : gmap Path Node) (p : Path) :
  isDir fs p = true -> (forall name, fs !! (p ++ [name]) = None) -> readdir p fs = Ok [].
Proof.
  intros Hdir Hnone. destruct (readdir_dir _ _ Hdir) as (names & -> & Hnames). f_equal.
  destruct names as [|name names]; [done|]. exfalso.
  assert (name ∈ name :: names) as Hin by apply list_elem_of_here.
  apply Hnames in Hin as [n Hn]. by rewrite Hnone in Hn.
Qed.


(** The accessor on a world in which no file is in the way. *)
Lemma run_accessor_ok (w : World) (fs1 : gmap Path Node) :
  mkdirp (scratchMode w) [] (scratchDir env this) (files w) = (Ok tt, fs1) ->
  run handle (getTutanotaTempPath env this) w =
  (Resolved (scratchDir env this), withFiles fs1 w, [(w, scratchMkdir env this (Ok tt))]).
Proof. intros E. rewrite run_getTutanotaTempPath. cbn zeta. by rewrite E. Qed.

(** X12.  On the in-memory file system, after a call of
    [getTutanotaTempPath] that returned [p] and a purge, which removes
    [p], the next call of [getTutanotaTempPath] returns [p] again and [p]
    is there again: a new, empty directory with the mode 0o700 without the
    bits of the umask. *)
Theorem scratch_dir_is_recreated_after_purge (w : World) (p : Path) :
  outcome (run handle (getTutanotaTempPath env this) w) = Resolved p ->
  let w1 := final (run handle (getTutanotaTempPath env this) w) in
  let w2 := final (run handle (deleteTutanotaTempDir env) w1) in
  let r := run handle (getTutanotaTempPath env this) w2 in
  files w2 !! p = None /\
  outcome r = Resolved p /\
  files (final r) !! p = Some (Dir (Z.ldiff (octal [7; 0; 0]) (umask w))) /\
  readdir p (files (final r)) = Ok [].
Proof.
  rewrite run_getTutanotaTempPath. cbn zeta. cbn [outcome final fst snd].
  destruct (mkdirp (scratchMode w) [] (scratchDir env this) (files w)) as [[[]|e] fs1] eqn:E;
    cbn [fst snd]; [|done].
  intros [= <-].
  set (w1 := withFiles fs1 w).
  assert (scratchDir env this = topLvlTmpDir env ++ [randomDirectoryName this]) as Hlayout.
  { unfold scratchDir, topLvlTmpDir, path_join. by rewrite <- app_assoc. }
  assert (forall pre suf, scratchDir env this = pre ++ suf -> pre <> [] ->
            exists m, fs1 !! pre = Some (Dir m)) as Hdirs.
  { intros pre suf Hsplit Hpre. apply isDir_lookup; [done|].
    apply (mkdirp_dirs _ _ _ _ _ E pre suf Hsplit Hpre). }
  destruct (Hdirs (topLvlTmpDir env) [randomDirectoryName this] Hlayout (topLvlTmpDir_not_root env))
    as [mt Htop].
  destruct (Hdirs (scratchDir env this) []) as [ms Hown];
    [by rewrite app_nil_r|apply scratchDir_not_root|].
  destruct (run_purge_dir w1) as (_ & Hw2 & Hsub & _ & Hdirect & Hgone).
  { by apply (lookup_isDir _ _ mt). }
  cbn zeta in Hw2, Hsub, Hdirect, Hgone.
  set (w2 := final (run handle (deleteTutanotaTempDir env) w1)) in *.
  assert (files w2 !! scratchDir env this = None) as Hnone.
  { rewrite Hlayout. apply Hdirect. }
  assert (scratchMode w2 = scratchMode w) as Hmode.
  { rewrite Hw2. reflexivity. }
  assert ((mkdirp (scratchMode w) [] (scratchDir env this) (files w2)).1 = Ok tt) as Hok.
  { apply mkdirp_no_file. intros pre suf c m Hsplit Hpre Hfile.
    destruct (Hdirs pre suf Hsplit Hpre) as [m' Hm'].
    pose proof (lookup_weaken _ _ _ _ Hfile Hsub) as Hfile'. simpl in Hfile'. congruence. }
  destruct (mkdirp (scratchMode w) [] (scratchDir env this) (files w2)) as [res fs3] eqn:E3.
  simpl in Hok. subst res.
  cbn zeta. rewrite (run_accessor_ok w2 fs3) by by rewrite Hmode.
  cbn [outcome final fst snd files withFiles].
  split; [done|]. split; [done|].
  assert (fs3 !! scratchDir env this = Some (Dir (scratchMode w))) as Hnew.
  { destruct (mkdirp_new_mode (scratchMode w) [] (scratchDir env this) (files w2) _ Hnone)
      as [Hn|Hn]; rewrite E3 in Hn; simpl in Hn; [|done].
    destruct (isDir_lookup fs3 (scratchDir env this) (scratchDir_not_root env this)) as [m Hm];
      [|congruence].
    apply (mkdirp_dirs _ _ _ _ _ E3 (scratchDir env this) []);
      [by rewrite app_nil_r|apply scratchDir_not_root]. }
  split; [exact Hnew|].
  apply readdir_empty; [by apply (lookup_isDir _ _ _ Hnew)|]. intros name.
  destruct (fs3 !! (scratchDir env this ++ [name])) as [n|] eqn:Hn; [exfalso|done].
  pose proof Hn as Hn'. replace fs3 with (mkdirp (scratchMode w) [] (scratchDir env this) (files w2)).2 in Hn'
    by by rewrite E3.
  apply mkdirp_frame in Hn' as [Hold|(_ & _ & pre & suf & Hsplit & _ & Hq)].
  - rewrite Hlayout, <- app_assoc in Hold. simpl in Hold.
    rewrite (Hgone _ ms) in Hold; [done|]. by rewrite <- Hlayout.
  - simpl in Hq. apply (f_equal length) in Hsplit, Hq. rewrite !length_app in *.
    simpl in Hq. lia.
Qed.
End MemPurge.

(** ** What the scratch area adds to the in-memory file system *)

Section MemScratch.
Import Mem.
Context (env : Env) (this : DesktopUtils).

Opaque effectiveMode octal.

(** X13.  On the in-memory file system [getTutanotaTempPath] never changes
    a node that is there: a scratch directory or a top-level directory that
    exists keeps its mode, also a mode that is open to group and others.
    What the call adds are directories on the way to the scratch directory,
    each with the mode 0o700 without the bits of the umask.  This holds
    whether the call returns or throws. *)
Theorem accessor_keeps_existing_nodes (w : World) :
  let r := run handle (getTutanotaTempPath env this) w in
  files w ⊆ files (final r) /\
  (forall q n,
      files (final r) !! q = Some n -> files w !! q = None ->
      n = Dir (Z.ldiff (octal [7; 0; 0]) (umask w)) /\ q `prefix_of` scratchDir env this) /\
  (forall m,
      files w !! scratchDir env this = Some (Dir m) ->
      files (final r) !! scratchDir env this = Some (Dir m)).
Proof.
  cbn zeta. rewrite run_getTutanotaTempPath. cbn zeta. cbn [final fst snd files withFiles].
  assert (files w ⊆ (mkdirp (scratchMode w) [] (scratchDir env this) (files w)).2) as Hsub.
  { apply map_subseteq_spec. intros q n Hq. by apply mkdirp_preserves. }
  split; [done|]. split.
  - intros q n Hq Hnew.
    apply mkdirp_frame in Hq as [Hq|(_ & -> & pre & suf & Hsplit & _ & ->)]; [congruence|].
    split; [done|]. exists suf. done.
  - intros m Hm. eapply lookup_weaken; [exact Hm|exact Hsub].
Qed.

(** X14.  On the in-memory file system, a run of [_executeRegistryScript]
    that staged its script under a name that was free removes nothing:
    every node of before is there as it was.  What is new, the staged file
    apart, are directories on the way to the "reg" directory: the "reg"
    directory, when it is new, has the default mode 0o777 without the bits
    of the umask, the directories above it have the mode 0o700 without
    those bits.  When the helper process was started and has exited, the
    staged file is gone: only directories are left behind.  When the helper
    process could not be started, the staged file is left behind as well,
    with the script in it and the mode 0o400 without the bits of the
    umask. *)
Theorem registry_script_leaves_directories_only (script : string) (w : World) (file : Path) :
  outcome (run handle (_writeToDisk env this script) w) = Resolved file ->
  files w !! file = None ->
  let r := run handle (_executeRegistryScript env this script) w in
  files w ⊆ files (final r) /\
  (forall q n,
      files (final r) !! q = Some n -> files w !! q = None -> q <> file ->
      q `prefix_of` regDir env this /\
      n = Dir (Z.ldiff (octal (if decide (q = regDir env this) then [7; 7; 7] else [7; 0; 0]))
                 (umask w))) /\
  (forall status,
      hd (OnExit succeeded) (exits w) = OnExit status -> files (final r) !! file = None) /\
  (forall e,
      hd (OnExit succeeded) (exits w) = OnError e ->
      files (final r) !! file = Some (File script (Z.ldiff (octal [4; 0; 0]) (umask w)))).
Proof.
  intros Hstaged Hfree r. subst r.
  unfold _executeRegistryScript, mbind, Prog_bind. rewrite run_bind. cbn zeta.
  revert Hstaged. rewrite run_writeToDisk. cbn [outcome final history fst snd].
  set (bytes := nextBytes 12 w).
  destruct (mkdirp (scratchMode w) [] (scratchDir env this) (files w))
    as [[[]|e1] fs1] eqn:E1; cbn [fst snd]; [|done].
  destruct (mkdirp (regDirMode w) [] (regDir env this) fs1)
    as [[[]|e2] fs2] eqn:E2; cbn [fst snd]; [|done].
  destruct (writeFile (scriptPath env this bytes) script (scriptMode w) fs2)
    as [[[]|e3] fs3] eqn:E3; cbn [fst snd]; [|done].
  intros [= <-]. cbn [outcome final history fst snd].
  assert (forall q n, fs2 !! q = Some n ->
            files w !! q = Some n \/
            (files w !! q = None /\ q `prefix_of` regDir env this /\
             n = Dir (Z.ldiff (octal (if decide (q = regDir env this) then [7; 7; 7] else [7; 0; 0]))
                        (umask w)))) as Hnew.
  { intros q n Hq.
    replace fs2 with (mkdirp (regDirMode w) [] (regDir env this) fs1).2 in Hq by by rewrite E2.
    apply mkdirp_frame in Hq as [Hq|(Hq1 & -> & pre & suf & Hsplit & Hpre & ->)].
    - replace fs1 with (mkdirp (scratchMode w) [] (scratchDir env this) (files w)).2 in Hq
        by by rewrite E1.
      apply mkdirp_frame in Hq as [Hq|(Hq0 & -> & pre & suf & Hsplit & Hpre & ->)]; [auto|].
      right. split; [done|]. simpl. split.
      + exists (suf ++ ["reg"]). unfold regDir, path_join. rewrite Hsplit. by rewrite <- app_assoc.
      + destruct (decide (pre = regDir env this)) as [Heq|_]; [|done].
        exfalso. apply (f_equal length) in Hsplit, Heq. unfold regDir, path_join in Heq.
        rewrite !length_app in *. simpl in Heq. lia.
    - right. simpl.
      assert (files w !! pre = None) as Hnone.
      { destruct (files w !! pre) as [n|] eqn:Hn; [|done].
        pose proof (mkdirp_preserves (scratchMode w) [] (scratchDir env this) (files w) _ _ Hn) as Hn'.
        rewrite E1 in Hn'. simpl in Hn', Hq1. congruence. }
      split; [done|]. split; [by exists suf|].
      destruct (decide (pre = regDir env this)) as [_|Hne]; [done|]. exfalso.
      assert (isDir fs1 pre = true) as Hdir.
      { assert (exists suf', scratchDir env this = pre ++ suf') as [suf' Hsuf'].
        { unfold regDir, path_join in Hsplit, Hne.
          destruct (decide (suf = [])) as [->|Hsuf]; [by rewrite app_nil_r in Hsplit|].
          destruct (exists_last Hsuf) as (suf' & s & ->).
          rewrite app_assoc in Hsplit. apply app_inj_tail in Hsplit as [Hsplit _]. eauto. }
        apply (mkdirp_dirs _ _ _ _ _ E1 pre suf' Hsuf' Hpre). }
      apply isDir_lookup in Hdir as [m' Hm']; [|done]. simpl in Hq1. congruence. }
  assert (fs2 !! scriptPath env this bytes = None) as Hfile2.
  { destruct (fs2 !! scriptPath env this bytes) as [n|] eqn:Hn; [exfalso|done].
    apply Hnew in Hn as [Hn|(_ & [suf Hpre] & _)]; [congruence|].
    unfold scriptPath, path_join in Hpre. apply (f_equal length) in Hpre.
    rewrite !length_app in Hpre. simpl in Hpre. lia. }
  assert (files w ⊆ fs2) as Hsub.
  { apply map_subseteq_spec. intros q n Hq.
    pose proof (mkdirp_preserves (scratchMode w) [] (scratchDir env this) (files w) _ _ Hq) as Hq1.
    rewrite E1 in Hq1. simpl in Hq1.
    pose proof (mkdirp_preserves (regDirMode w) [] (regDir env this) _ _ _ Hq1) as Hq2.
    by rewrite E2 in Hq2. }
  apply writeFile_ok in E3 as (m & -> & Hm & _). rewrite (Hm Hfile2).
  rewrite run_call_bind. cbn zeta. cbn [handle fst snd files withFiles exits].
  destruct (hd (OnExit succeeded) (exits w)) as [status|e].
  - rewrite run_call_bind. cbn zeta. cbn [handle fst snd files withFiles].
    rewrite (unlink_file _ script (scriptMode w)) by apply lookup_insert_eq. cbn [fst snd].
    rewrite delete_insert_id by done.
    assert (files w ⊆ fs2 /\
            (forall q n,
                fs2 !! q = Some n -> files w !! q = None -> q <> scriptPath env this bytes ->
                q `prefix_of` regDir env this /\
                n = Dir (Z.ldiff (octal (if decide (q = regDir env this) then [7; 7; 7]
                                         else [7; 0; 0])) (umask w))) /\
            (forall status', OnExit status = OnExit status' -> fs2 !! scriptPath env this bytes = None) /\
            (forall e, OnExit status = OnError e ->
                fs2 !! scriptPath env this bytes =
                Some (File script (Z.ldiff (octal [4; 0; 0]) (umask w))))) as Hgoal;
      [|by destruct (bool_decide _)].
    split; [done|]. split; [|split; [done|done]].
    intros q n Hq Hnone _. apply Hnew in Hq as [Hq|(_ & Hpre & ->)]; [congruence|done].
  - cbn [run outcome final history fst snd files withFiles].
    split; [|split; [|split]].
    + etrans; [exact Hsub|]. by apply insert_subseteq.
    + intros q n Hq Hnone Hne. rewrite lookup_insert_ne in Hq by done.
      apply Hnew in Hq as [Hq|(_ & Hpre & ->)]; [congruence|done].
    + done.
    + intros e' _. by rewrite lookup_insert_eq.
Qed.

(** X15.  On the in-memory file system, a regular file in the place of the
    top-level directory is not repaired and not removed: the file stays,
    [getTutanotaTempPath] throws ENOTDIR, [deleteTutanotaTempDir] throws
    ENOTDIR after the failed listing and changes nothing, and
    [_executeRegistryScript] rejects with ENOTDIR after drawing its random
    bytes, before any process is started. *)
Theorem file_in_place_of_top_level_dir (w : World) (content : string) (m : Z) :
  files w !! topLvlTmpDir env = Some (File content m) ->
  outcome (run handle (getTutanotaTempPath env this) w) = Rejected (fsError "ENOTDIR") /\
  files (final (run handle (getTutanotaTempPath env this) w)) !! topLvlTmpDir env =
    Some (File content m) /\
  run handle (deleteTutanotaTempDir env) w =
    (Rejected (fsError "ENOTDIR"), w, [(w, listing env (Failed (fsError "ENOTDIR")))]) /\
  (forall script,
      outcome (run handle (_executeRegistryScript env this script) w) =
        Rejected (fsError "ENOTDIR") /\
      trace (run handle (_executeRegistryScript env this script) w) =
        [Ev (RandomBytes 12) (nextBytes 12 w); scratchMkdir env this (Failed (fsError "ENOTDIR"))]).
Proof.
  intros Hfile.
  assert (scratchDir env this = topLvlTmpDir env ++ [randomDirectoryName this]) as Hlayout.
  { unfold scratchDir, topLvlTmpDir, path_join. by rewrite <- app_assoc. }
  destruct (mkdirp_file_in_way (scratchMode w) [] (scratchDir env this) (files w)
              (topLvlTmpDir env) [randomDirectoryName this] content m Hlayout
              (topLvlTmpDir_not_root env)) as [Hfail Hstays]; [done|done|].
  split; [|split; [|split]].
  - rewrite run_getTutanotaTempPath. cbn zeta. cbn [outcome fst snd]. by rewrite Hfail.
  - rewrite run_getTutanotaTempPath. cbn zeta. cbn [final fst snd files withFiles]. exact Hstays.
  - unfold deleteTutanotaTempDir, mbind, Prog_bind. fold (topLvlTmpDir env).
    rewrite run_try_catch, run_await_bind. cbn zeta. cbn [handle fst snd].
    assert (readdir (topLvlTmpDir env) (files w) = Failed (fsError "ENOTDIR")) as ->.
    { unfold readdir, isDir. rewrite Hfile.
      pose proof (topLvlTmpDir_not_root env). by destruct (topLvlTmpDir env). }
    reflexivity.
  - intros script. unfold _executeRegistryScript, mbind, Prog_bind.
    rewrite run_bind, run_writeToDisk. cbn zeta. rewrite Hfail.
    cbn [outcome final history trace fst snd fmap list_fmap]. done.
Qed.
End MemScratch.

(** ** More on the registrar *)

(** Two splittings of one list at an element that satisfies [P], the
    second one with no such element on either side, are the same. *)
Lemma split_unique {A : Type} (P : A -> bool) (l1 : list A) (a : A) (l2 l1' : list A)
    (a' : A) (l2' : list A) :
  l1 ++ a :: l2 = l1' ++ a' :: l2' -> P a = true ->
  Forall (fun b => P b = false) l1' -> Forall (fun b => P b = false) l2' ->
  l1 = l1' /\ a = a' /\ l2 = l2'.
Proof.
  intros Heq Ha H1 H2. revert l1' Heq H1.
  induction l1 as [|b l1 IH]; intros [|b' l1'] Heq H1; simpl in Heq.
  - by injection Heq as -> ->.
  - injection Heq as -> _. apply Forall_cons in H1 as [Hb _]. congruence.
  - injection Heq as -> <-. rewrite Forall_forall in H2.
    rewrite H2 in Ha; [done|]. apply elem_of_app. right. apply list_elem_of_here.
  - injection Heq as -> Heq. apply Forall_cons in H1 as [_ H1].
    destruct (IH l1' Heq H1) as (-> & -> & ->). done.
Qed.

Section RegistrarMore.
Context (env : Env) (this : DesktopUtils).

Lemma unsettles_exit (file : Path) (e : JsError) (file0 : Path) (status : ExitStatus) :
  ~ unsettles file e (regImport file0 status).
Proof.
  intros [Heq|Heq]; [|discriminate].
  assert (file0 = file) as -> by (by injection Heq). apply Ev_inj in Heq. discriminate.
Qed.

Lemma unsettles_error (file : Path) (e : JsError) (file0 : Path) (e0 : JsError) :
  unsettles file e (regImportFailed file0 e0) -> e0 = e.
Proof.
  intros [Heq|Heq]; [|discriminate].
  assert (file0 = file) as -> by (by injection Heq). apply Ev_inj in Heq. by injection Heq.
Qed.

Lemma unsettles_unlink (file : Path) (e : JsError) (file0 : Path) (unlinked : Result unit) :
  unsettles file e (scriptUnlink file0 unlinked) -> unlinked = Failed e.
Proof.
  intros [Heq|Heq]; [discriminate|].
  assert (file0 = file) as -> by (by injection Heq). by apply Ev_inj in Heq.
Qed.

(** The execution of a script calls neither the protocol client nor the
    settings page.  A helper process that cannot be started, and a staged
    file that cannot be removed, is the last thing that happens, and the
    promise is then not settled. *)
Lemma executeRegistryScript_calls (script : string) (t : list Entry) (o : Outcome unit) :
  exec (_executeRegistryScript env this script) t o ->
  Forall (fun e => isProtocolCall e = false) t /\
  (forall file e entry,
      entry ∈ t -> unsettles file e entry -> last t = Some entry /\ o = Uncaught e) /\
  (forall e, o = Uncaught e -> exists file entry, last t = Some entry /\ unsettles file e entry).
Proof.
  intros H. apply exec_executeRegistryScript in H as (ts & ofile & Hs & H).
  apply exec_writeToDisk in Hs as (bytes & r1 & r2 & r3 & Hs).
  assert (Forall (fun e => isProtocolCall e = false) ts /\
          (forall file e entry, entry ∈ ts -> ~ unsettles file e entry) /\
          forall e, ofile <> Uncaught e) as (Hts & Hnot & Hofile).
  { unfold stagingEnds in Hs.
    destruct r1 as [[]|?]; [destruct r2 as [[]|?]; [destruct r3 as [[]|?]|]|];
      destruct Hs as [-> ->].
    all: split; [repeat constructor|]. all: split; [|done].
    all: intros file err entry Hin Hun;
      repeat (apply elem_of_cons in Hin as [->|Hin]; [by destruct Hun|]);
      by apply elem_of_nil in Hin. }
  destruct ofile as [file0|e0|e0].
  - destruct H as [(status & unlinked & -> & ->)|(e0 & -> & ->)].
    + assert (last (ts ++ [regImport file0 status; scriptUnlink file0 unlinked]) =
              Some (scriptUnlink file0 unlinked)) as Hl.
      { change [regImport file0 status; scriptUnlink file0 unlinked]
          with ([regImport file0 status] ++ [scriptUnlink file0 unlinked]).
        by rewrite app_assoc, last_snoc. }
      split; [|split].
      * apply Forall_app. split; [done|]. repeat constructor.
      * intros file e entry Hin Hun.
        apply elem_of_app in Hin as [Hin|Hin]; [by apply Hnot in Hun|].
        apply elem_of_cons in Hin as [->|Hin]; [by apply unsettles_exit in Hun|].
        apply list_elem_of_singleton in Hin as ->.
        pose proof (unsettles_unlink _ _ _ _ Hun) as ->. done.
      * intros e Ho. exists file0, (scriptUnlink file0 unlinked). split; [done|].
        destruct unlinked as [[]|e'].
        -- unfold importOutcome in Ho. by destruct (bool_decide _).
        -- injection Ho as ->. by right.
    + split; [|split].
      * apply Forall_app. split; [done|]. repeat constructor.
      * intros file e entry Hin Hun.
        apply elem_of_app in Hin as [Hin|Hin]; [by apply Hnot in Hun|].
        apply list_elem_of_singleton in Hin as ->.
        pose proof (unsettles_error _ _ _ _ Hun) as ->. by rewrite last_snoc.
      * intros e [= ->]. exists file0, (regImportFailed file0 e).
        split; [by rewrite last_snoc|by left].
  - destruct H as [-> ->]. split; [done|]. split; [|done].
    intros file e entry Hin Hun. by apply Hnot in Hun.
  - by destruct (Hofile e0).
Qed.

(** The two win32 flows, from the log line on. *)
Lemma exec_register_flow (t : list Entry) (o : Outcome unit) :
  platform env = "win32" ->
  exec (registerAsMailtoHandler env this) t o <->
  exists ts os granted,
    exec (_executeRegistryScript env this (registerScript env)) ts os /\
    win32FlowEnds [registerLog] ts os [setDefault granted] t o.
Proof.
  intros Hwin. rewrite exec_register_win32 by done. split.
  - intros (t' & -> & H). apply exec_doRegister in H as (ts & os & granted & Hs & Hend); [|done].
    exists ts, os, granted. split; [done|].
    destruct os as [a|e|e]; simpl in *.
    + destruct Hend as (r & -> & ->). eauto.
    + by destruct Hend as [-> ->].
    + by destruct Hend as [-> ->].
  - intros (ts & os & granted & Hs & Hend).
    assert (exists t', t = registerLog :: t' /\ win32FlowEnds [] ts os [setDefault granted] t' o)
      as (t' & -> & Hend').
    { destruct os as [a|e|e]; simpl in *.
      - destruct Hend as (r & -> & ->). eexists. split; [reflexivity|]. eauto.
      - destruct Hend as [-> ->]. eauto.
      - destruct Hend as [-> ->]. eauto. }
    exists t'. split; [done|]. apply exec_doRegister; [done|]. eauto.
Qed.

Lemma exec_unregister_flow (t : list Entry) (o : Outcome unit) :
  platform env = "win32" ->
  exec (unregisterAsMailtoHandler env this) t o <->
  exists ts os granted,
    exec (_executeRegistryScript env this (unregisterScript env)) ts os /\
    win32FlowEnds [unregisterLog; removeDefault granted] ts os [] t o.
Proof.
  intros Hwin. rewrite exec_unregister_win32 by done. split.
  - intros (t' & -> & H). apply exec_doUnregister in H as (ts & os & granted & Hs & Hend); [|done].
    exists ts, os, granted. split; [done|].
    destruct os as [a|e|e]; simpl in *.
    + destruct Hend as (r & -> & ->). eauto.
    + by destruct Hend as [-> ->].
    + by destruct Hend as [-> ->].
  - intros (ts & os & granted & Hs & Hend).
    assert (exists t', t = unregisterLog :: t' /\
              win32FlowEnds [removeDefault granted] ts os [] t' o) as (t' & -> & Hend').
    { destruct os as [a|e|e]; simpl in *.
      - destruct Hend as (r & -> & ->). eexists. split; [reflexivity|]. eauto.
      - destruct Hend as [-> ->]. eauto.
      - destruct Hend as [-> ->]. eauto. }
    exists t'. split; [done|]. apply exec_doUnregister; [done|]. eauto.
Qed.

Lemma settingsAttempt_calls (r : Result unit) :
  Forall (fun e => isProtocolCall e = false) (settingsAttempt r) /\
  forall file e entry, entry ∈ settingsAttempt r -> ~ unsettles file e entry.
Proof.
  destruct r as [[]|e0]; (split; [repeat constructor|]); intros file e entry Hin Hun;
    repeat (apply elem_of_cons in Hin as [->|Hin]; [by destruct Hun|]);
    by apply elem_of_nil in Hin.
Qed.

(** X16.  On win32 the answer of [setAsDefaultProtocolClient] and of
    [removeAsDefaultProtocolClient] is not looked at: an execution of
    [registerAsMailtoHandler] or [unregisterAsMailtoHandler] in which the
    OS gave one answer is, with the other answer in its place, an execution
    with the same outcome.  A refusal of the OS goes unnoticed there,
    whereas on darwin it is thrown. *)
Theorem win32_ignores_protocol_answer (t1 t2 : list Entry) (granted granted' : bool)
    (o : Outcome unit) :
  platform env = "win32" ->
  (exec (registerAsMailtoHandler env this) (t1 ++ setDefault granted :: t2) o ->
   exec (registerAsMailtoHandler env this) (t1 ++ setDefault granted' :: t2) o) /\
  (exec (unregisterAsMailtoHandler env this) (t1 ++ removeDefault granted :: t2) o ->
   exec (unregisterAsMailtoHandler env this) (t1 ++ removeDefault granted' :: t2) o).
Proof.
  intros Hwin. split.
  - intros H. apply exec_register_flow in H as (ts & os & g & Hs & Hend); [|done].
    apply exec_register_flow; [done|].
    pose proof (proj1 (executeRegistryScript_calls _ _ _ Hs)) as Hts.
    destruct os as [a|e|e]; simpl in Hend.
    + destruct Hend as (r & Heq & ->).
      change (registerLog :: ts ++ setDefault g :: settingsAttempt r)
        with ((registerLog :: ts) ++ setDefault g :: settingsAttempt r) in Heq.
      apply (split_unique isProtocolCall) in Heq as (-> & _ & ->);
        [|done|by constructor|apply settingsAttempt_calls].
      exists ts, (Resolved a), granted'. split; [done|]. exists r. done.
    + destruct Hend as [Heq ->]. exfalso.
      assert (Forall (fun e => isProtocolCall e = false) (t1 ++ setDefault granted :: t2)) as Hall.
      { rewrite Heq. by constructor. }
      apply Forall_app in Hall as [_ Hall]. by apply Forall_cons in Hall as [? _].
    + destruct Hend as [Heq ->]. exfalso.
      assert (Forall (fun e => isProtocolCall e = false) (t1 ++ setDefault granted :: t2)) as Hall.
      { rewrite Heq. by constructor. }
      apply Forall_app in Hall as [_ Hall]. by apply Forall_cons in Hall as [? _].
  - intros H. apply exec_unregister_flow in H as (ts & os & g & Hs & Hend); [|done].
    apply exec_unregister_flow; [done|].
    pose proof (proj1 (executeRegistryScript_calls _ _ _ Hs)) as Hts.
    exists ts, os, granted'. split; [done|].
    destruct os as [a|e|e]; simpl in Hend |- *.
    + destruct Hend as (r & Heq & ->). exists r. split; [|done].
      change (unregisterLog :: removeDefault g :: ts ++ settingsAttempt r)
        with ([unregisterLog] ++ removeDefault g :: ts ++ settingsAttempt r) in Heq.
      apply (split_unique isProtocolCall) in Heq as (-> & _ & ->);
        [done|done|by repeat constructor|].
      apply Forall_app. split; [done|apply settingsAttempt_calls].
    + destruct Hend as [Heq ->]. split; [|done].
      change (unregisterLog :: removeDefault g :: ts)
        with ([unregisterLog] ++ removeDefault g :: ts) in Heq.
      apply (split_unique isProtocolCall) in Heq as (-> & _ & ->);
        [done|done|by repeat constructor|done].
    + destruct Hend as [Heq ->]. split; [|done].
      change (unregisterLog :: removeDefault g :: ts)
        with ([unregisterLog] ++ removeDefault g :: ts) in Heq.
      apply (split_unique isProtocolCall) in Heq as (-> & _ & ->);
        [done|done|by repeat constructor|done].
Qed.

(** X17.  On win32 the two flows are not symmetric in what a failure
    leaves behind.  [registerAsMailtoHandler] executes its script first: it
    has called [setAsDefaultProtocolClient] exactly when it resolves, so a
    registration that fails has not touched the protocol client.
    [unregisterAsMailtoHandler] calls [removeAsDefaultProtocolClient] first:
    every execution has made that call, also one whose script then
    fails. *)
Theorem win32_failure_leaves_half_done (t : list Entry) (o : Outcome unit) :
  platform env = "win32" ->
  (exec (registerAsMailtoHandler env this) t o ->
   (o = Resolved tt <-> exists granted, setDefault granted ∈ t) /\
   (o <> Resolved tt -> Forall (fun e => isProtocolCall e = false) t)) /\
  (exec (unregisterAsMailtoHandler env this) t o ->
   exists granted t', t = unregisterLog :: removeDefault granted :: t').
Proof.
  intros Hwin. split.
  - intros H. apply exec_register_flow in H as (ts & os & g & Hs & Hend); [|done].
    pose proof (proj1 (executeRegistryScript_calls _ _ _ Hs)) as Hts.
    assert (Forall (fun e => isProtocolCall e = false) (registerLog :: ts)) as Hpre by by constructor.
    destruct os as [a|e|e]; simpl in Hend.
    + destruct Hend as (r & -> & ->). split; [|done]. split; [|done]. intros _. exists g.
      apply elem_of_cons. right. apply elem_of_app. right. apply list_elem_of_here.
    + destruct Hend as [-> ->]. split; [|done]. split; [done|].
      intros [granted Hin]. rewrite Forall_forall in Hpre. by apply Hpre in Hin.
    + destruct Hend as [-> ->]. split; [|done]. split; [done|].
      intros [granted Hin]. rewrite Forall_forall in Hpre. by apply Hpre in Hin.
  - intros H. apply exec_unregister_flow in H as (ts & os & g & Hs & Hend); [|done].
    exists g. destruct os as [a|e|e]; simpl in Hend.
    + destruct Hend as (r & -> & ->). eauto.
    + destruct Hend as [-> ->]. eauto.
    + destruct Hend as [-> ->]. eauto.
Qed.

End RegistrarMore.

(** ** [touch] on the in-memory file system *)

Section MemTouch.
Import Mem MemFd.

Opaque effectiveMode octal.

(** A descriptor that was just opened is closed without failure, and the
    table of descriptors is as before. *)
Lemma close_opened (p : Path) (w : MemFd.World) :
  match opened p w with
  | (Ok fd, w1) => closeSync MemFd.fs fd w1
  | (Failed e, w1) => (Failed e, w1)
  end = (Ok tt, w).
Proof.
  unfold opened. cbn [closeSync MemFd.fs descriptors disk]. rewrite lookup_insert_eq.
  rewrite delete_insert_id.
  - by destruct w.
  - apply not_elem_of_dom, is_fresh.
Qed.

(** [touch], by what is on the way to [path] and at [path]. *)
Lemma touch_cases (path : Path) (w : MemFd.World) :
  touch MemFd.fs path w =
  match path with
  | [] => (Failed (fsError "EISDIR"), w)
  | _ =>
      match walk (files (disk w)) [] (removelast path) with
      | Failed e => (Failed e, w)
      | Ok _ =>
          match files (disk w) !! path with
          | Some (File content mode) =>
              if allows mode ownerWrite then (Ok tt, w) else (Failed (fsError "EACCES"), w)
          | Some (Dir _) => (Failed (fsError "EISDIR"), w)
          | None =>
              if mayAddTo (files (disk w)) (removelast path) then
                (Ok tt,
                 {| disk :=
                      withFiles
                        (<[path := File "" (Z.ldiff (octal [6; 6; 6]) (umask (disk w)))]>
                           (files (disk w)))
                        (disk w);
                    descriptors := descriptors w |})
              else (Failed (fsError "EACCES"), w)
          end
      end
  end.
Proof.
  unfold touch. cbn [openSync MemFd.fs]. change ("a" =? "a")%string with true. cbv iota.
  unfold openForWriting. destruct path as [|s path]; [done|].
  destruct (walk _ _ _) as [[]|e]; [|done].
  destruct (files (disk w) !! (s :: path)) as [[content mode|mode]|] eqn:E; [| done |].
  - destruct (allows mode ownerWrite); [|done]. rewrite close_opened.
    destruct w as [[] ?]. reflexivity.
  - destruct (mayAddTo _ _); [|done]. by rewrite close_opened.
Qed.

(** What the [openSync] of [touch] answers when it fails. *)
Lemma open_for_touch_failed (path : Path) (w : MemFd.World) (e : JsError) :
  (openSync MemFd.fs path "a" w).1 = Failed e <-> (touch MemFd.fs path w).1 = Failed e.
Proof.
  unfold touch. cbn [openSync MemFd.fs]. change ("a" =? "a")%string with true. cbv iota.
  unfold openForWriting.
  destruct path as [|s path]; [cbn [fst snd]; split; intros [= <-]; reflexivity|].
  destruct (walk _ _ _) as [[]|e']; [|cbn [fst snd]; split; intros [= <-]; reflexivity].
  destruct (files (disk w) !! (s :: path)) as [[content mode|mode]|] eqn:E;
    [|cbn [fst snd]; split; intros [= <-]; reflexivity|].
  - destruct (allows mode ownerWrite); [|cbn [fst snd]; split; intros [= <-]; reflexivity].
    rewrite close_opened. unfold opened. cbn [fst snd]. split; intros; discriminate.
  - destruct (mayAddTo _ _); [|cbn [fst snd]; split; intros [= <-]; reflexivity].
    rewrite close_opened. unfold opened. cbn [fst snd]. split; intros; discriminate.
Qed.

(** X19.  On the in-memory file system, after a [touch] that returns the
    file is there.  A file that was there is as it was, content and mode:
    it is opened for appending, not emptied.  A file that was not there is
    new and empty, with the mode 0o666 without the bits of the umask.
    Nothing else changes, and the descriptor that was opened is closed:
    the open descriptors are the ones of before. *)
Theorem touch_makes_sure_the_file_exists (path : Path) (w : MemFd.World) :
  (touch MemFd.fs path w).1 = Ok tt ->
  let w' := (touch MemFd.fs path w).2 in
  (exists content mode, files (disk w') !! path = Some (File content mode)) /\
  (is_Some (files (disk w) !! path) -> w' = w) /\
  (files (disk w) !! path = None ->
   files (disk w') =
     <[path := File "" (Z.ldiff (octal [6; 6; 6]) (umask (disk w)))]> (files (disk w))) /\
  (forall q, q <> path -> files (disk w') !! q = files (disk w) !! q) /\
  descriptors w' = descriptors w.
Proof.
  cbn zeta. rewrite touch_cases. destruct path as [|s path]; [done|].
  destruct (walk _ _ _) as [[]|e]; [|done].
  destruct (files (disk w) !! (s :: path)) as [[content mode|mode]|] eqn:E; [| done |].
  - destruct (allows mode ownerWrite); [|done]. intros _. cbn [fst snd].
    split; [eauto|]. done.
  - destruct (mayAddTo _ _); [|done]. intros _. cbn [fst snd disk descriptors files withFiles].
    split; [rewrite lookup_insert_eq; eauto|]. split; [by intros [? ?]|].
    split; [done|]. split; [|done]. intros q Hq. by rewrite lookup_insert_ne.
Qed.

(** X20.  On the in-memory file system [touch] throws exactly when its
    [openSync] throws, and with that error: [closeSync] is handed the
    descriptor that was just opened and does not fail.  After a [touch]
    that threw nothing has changed, neither the files nor the open
    descriptors. *)
Theorem touch_throws_and_changes_nothing (path : Path) (w : MemFd.World) :
  (forall e,
      (touch MemFd.fs path w).1 = Failed e <-> (openSync MemFd.fs path "a" w).1 = Failed e) /\
  ((touch MemFd.fs path w).1 = Ok tt <-> exists fd, (openSync MemFd.fs path "a" w).1 = Ok fd) /\
  (forall e, (touch MemFd.fs path w).1 = Failed e -> (touch MemFd.fs path w).2 = w).
Proof.
  split; [|split].
  - intros e. symmetry. apply open_for_touch_failed.
  - split.
    + intros Hok. destruct (openSync MemFd.fs path "a" w).1 as [fd|e] eqn:Hopen; [eauto|].
      apply open_for_touch_failed in Hopen. congruence.
    + intros [fd Hopen]. destruct (touch MemFd.fs path w).1 as [[]|e] eqn:Htouch; [done|].
      apply open_for_touch_failed in Htouch. congruence.
  - intros e. rewrite touch_cases. destruct path as [|s path]; [done|].
    destruct (walk _ _ _) as [[]|e']; [|done].
    destruct (files (disk w) !! (s :: path)) as [[content mode|mode]|]; [|done|].
    + by destruct (allows mode ownerWrite).
    + by destruct (mayAddTo _ _).
Qed.
End MemTouch.

(** ** The statements at work on the concrete process and world *)

Lemma makeSingleInstance_algorithm_witness :
  exec (makeSingleInstance (exampleEnv "linux"))
    [lockWrite (exampleEnv "linux") (Failed (Mem.fsError "EACCES")); lockRequest true]
    (Resolved true).
Proof.
  apply (proj1 (makeSingleInstance_algorithm (exampleEnv "linux"))).
  eexists. left. split; reflexivity.
Defined.

Lemma singleInstanceLockOverridden_spec_witness :
  exec (singleInstanceLockOverridden (exampleEnv "linux"))
    [lockRead (exampleEnv "linux") (Ok "3.90.0"); lockWrite (exampleEnv "linux") (Ok tt)]
    (Resolved true).
Proof.
  apply (proj1 (singleInstanceLockOverridden_spec (exampleEnv "linux"))).
  right. right. exists "3.90.0", true.
  split; [reflexivity|]. split; [reflexivity|]. split; [discriminate|reflexivity].
Defined.

Lemma makeSingleInstance_ignores_retry_result_witness :
  "3.90.0" <> appVersion (exampleEnv "linux") /\
  exec (makeSingleInstance (exampleEnv "linux"))
    (refusedThenRetried (exampleEnv "linux") (Ok tt) "3.90.0" false) (Resolved true).
Proof.
  assert ("3.90.0" <> appVersion (exampleEnv "linux")) as Hne by discriminate.
  split; [exact Hne|].
  apply (makeSingleInstance_ignores_retry_result (exampleEnv "linux") (Ok tt) "3.90.0" false
           (Resolved true) Hne).
  reflexivity.
Defined.

Lemma deleteTutanotaTempDir_spec_witness :
  exec (deleteTutanotaTempDir (exampleEnv "linux"))
    [listing (exampleEnv "linux") (Ok ["a"; "b"; "c"]);
     removal (exampleEnv "linux") "a" (Failed (Mem.fsError "ENOENT"));
     removal (exampleEnv "linux") "b" (Failed (Mem.fsError "EACCES"));
     removal (exampleEnv "linux") "c" (Ok tt)]
    (Resolved tt) /\
  exec (deleteTutanotaTempDir (exampleEnv "linux"))
    [listing (exampleEnv "linux") (Ok ["a"; "b"; "c"]);
     removal (exampleEnv "linux") "a" (Failed (Mem.fsError "EBUSY"))]
    (Rejected (Mem.fsError "EBUSY")) /\
  Mem.files exampleWorld !! topLvlTmpDir (exampleEnv "linux") = None /\
  outcome (run Mem.handle (deleteTutanotaTempDir (exampleEnv "linux")) exampleWorld) = Resolved tt.
Proof.
  destruct (deleteTutanotaTempDir_spec (exampleEnv "linux")) as [Hexec Habsent].
  split; [|split; [|split]].
  - apply Hexec. right.
    exists ["a"; "b"; "c"], [Failed (Mem.fsError "ENOENT"); Failed (Mem.fsError "EACCES"); Ok tt].
    split; [reflexivity|]. left. split; [reflexivity|]. split; [|reflexivity].
    repeat constructor.
  - apply Hexec. right. exists ["a"; "b"; "c"], [Failed (Mem.fsError "EBUSY")].
    split; [reflexivity|]. right. exists [], (Mem.fsError "EBUSY").
    split; [reflexivity|]. split; [simpl; lia|]. split; [constructor|]. split; reflexivity.
  - by vm_compute.
  - rewrite Habsent; [reflexivity|by vm_compute].
Defined.

Lemma mailto_platform_dispatch_witness :
  exec (registerAsMailtoHandler (exampleEnv "darwin") exampleThis)
    [registerLog; setDefault false] (Rejected (Error "Could not register as mailto handler")) /\
  exec (unregisterAsMailtoHandler (exampleEnv "darwin") exampleThis)
    [unregisterLog; removeDefault true] (Resolved tt) /\
  exec (registerAsMailtoHandler (exampleEnv "linux") exampleThis)
    [registerLog] (Rejected (Error "Registering protocols on Linux does not work")) /\
  exec (unregisterAsMailtoHandler (exampleEnv "freebsd") exampleThis)
    [unregisterLog] (Rejected (Error "Invalid process.platform: freebsd")).
Proof.
  split; [|split; [|split]].
  - destruct (mailto_platform_dispatch (exampleEnv "darwin") exampleThis
                [registerLog; setDefault false]
                (Rejected (Error "Could not register as mailto handler")))
      as (_ & Hdarwin & _).
    apply (proj1 (Hdarwin eq_refl)). exists false. split; reflexivity.
  - destruct (mailto_platform_dispatch (exampleEnv "darwin") exampleThis
                [unregisterLog; removeDefault true] (Resolved tt))
      as (_ & Hdarwin & _).
    apply (proj2 (Hdarwin eq_refl)). exists true. split; reflexivity.
  - destruct (mailto_platform_dispatch (exampleEnv "linux") exampleThis
                [registerLog] (Rejected (Error "Registering protocols on Linux does not work")))
      as (_ & _ & Hlinux & _).
    apply (proj1 (Hlinux eq_refl)). split; reflexivity.
  - destruct (mailto_platform_dispatch (exampleEnv "freebsd") exampleThis
                [unregisterLog] (Rejected (Error "Invalid process.platform: freebsd")))
      as (_ & _ & _ & Hother).
    apply Hother; [discriminate..|]. split; reflexivity.
Defined.

Lemma settings_page_is_best_effort_witness :
  platform (exampleEnv "win32") = "win32" /\
  exec (registerAsMailtoHandler (exampleEnv "win32") exampleThis) exampleRegistration (Resolved tt).
Proof.
  split; [reflexivity|].
  apply (settings_page_is_best_effort (exampleEnv "win32") exampleThis); [reflexivity|].
  exists (exampleStaging ++ [regImport exampleScript (exitedWith 0); scriptUnlink exampleScript (Ok tt)]),
    (Resolved tt), true.
  split.
  - apply exec_executeRegistryScript. exists exampleStaging, (Resolved exampleScript). split.
    + apply exec_writeToDisk.
      exists (Mem.nextBytes 12 exampleWorld), (Ok tt), (Ok tt), (Ok tt). split; reflexivity.
    + left. exists (exitedWith 0), (Ok tt). split; reflexivity.
  - exists (Failed (Error "no handler for ms-settings")). split; reflexivity.
Defined.

Lemma scratch_accessor_idempotent_witness :
  outcome (run Mem.handle (getTutanotaTempPath (exampleEnv "linux") exampleThis) exampleWorld) =
    Resolved ["tmp"; "tutanota"; "ABAgMEBQYHCAkKCwwNDg_w"] /\
  outcome (run Mem.handle (getTutanotaTempPath (exampleEnv "linux") exampleThis)
             (final (run Mem.handle (getTutanotaTempPath (exampleEnv "linux") exampleThis)
                       exampleWorld))) =
    Resolved ["tmp"; "tutanota"; "ABAgMEBQYHCAkKCwwNDg_w"] /\
  final (run Mem.handle (getTutanotaTempPath (exampleEnv "linux") exampleThis)
           (final (run Mem.handle (getTutanotaTempPath (exampleEnv "linux") exampleThis)
                     exampleWorld))) =
    final (run Mem.handle (getTutanotaTempPath (exampleEnv "linux") exampleThis) exampleWorld).
Proof.
  assert (outcome (run Mem.handle (getTutanotaTempPath (exampleEnv "linux") exampleThis)
                     exampleWorld) =
          Resolved ["tmp"; "tutanota"; "ABAgMEBQYHCAkKCwwNDg_w"]) as Hfirst by by vm_compute.
  split; [exact Hfirst|].
  destruct (scratch_accessor_idempotent (exampleEnv "linux") exampleThis) as (_ & _ & _ & Hagain).
  destruct (Hagain exampleWorld _ Hfirst) as [_ Hsecond].
  rewrite Hsecond. split; reflexivity.
Defined.

Lemma new_artifacts_are_private_witness :
  Mem.files exampleWorld !! exampleScript = None /\
  outcome (run Mem.handle (_writeToDisk (exampleEnv "win32") exampleThis "Windows Registry Editor")
             exampleWorld) = Resolved exampleScript /\
  Mem.files (final (run Mem.handle
                      (_writeToDisk (exampleEnv "win32") exampleThis "Windows Registry Editor")
                      exampleWorld)) !! exampleScript =
    Some (Mem.File "Windows Registry Editor" (octal [4; 0; 0])).
Proof.
  assert (Mem.files exampleWorld !! exampleScript = None) as Hnew by by vm_compute.
  assert (outcome (run Mem.handle
                     (_writeToDisk (exampleEnv "win32") exampleThis "Windows Registry Editor")
                     exampleWorld) = Resolved exampleScript) as Hstaged by by vm_compute.
  split; [exact Hnew|]. split; [exact Hstaged|].
  destruct (new_artifacts_are_private (exampleEnv "win32") exampleThis) as (_ & _ & Hfile).
  destruct (Hfile exampleWorld _ _ Hstaged) as (_ & _ & _ & Hmode).
  destruct (Hmode Hnew) as (m & -> & -> & _). reflexivity.
Defined.

Lemma staged_script_cleanup_witness :
  outcome (run Mem.handle (_writeToDisk (exampleEnv "win32") exampleThis "Windows Registry Editor")
             helperlessWorld) = Resolved exampleScript /\
  hd (OnExit Mem.succeeded) (Mem.exits helperlessWorld) = OnError spawnENOENT /\
  (exists m,
      Mem.files (final (run Mem.handle
                          (_executeRegistryScript (exampleEnv "win32") exampleThis
                             "Windows Registry Editor") helperlessWorld)) !! exampleScript =
      Some (Mem.File "Windows Registry Editor" m)) /\
  outcome (run Mem.handle
             (_executeRegistryScript (exampleEnv "win32") exampleThis "Windows Registry Editor")
             helperlessWorld) = Uncaught spawnENOENT.
Proof.
  assert (outcome (run Mem.handle
                     (_writeToDisk (exampleEnv "win32") exampleThis "Windows Registry Editor")
                     helperlessWorld) = Resolved exampleScript) as Hstaged by by vm_compute.
  assert (hd (OnExit Mem.succeeded) (Mem.exits helperlessWorld) = OnError spawnENOENT) as Herror
    by reflexivity.
  split; [exact Hstaged|]. split; [exact Herror|].
  destruct (staged_script_cleanup (exampleEnv "win32") exampleThis "Windows Registry Editor")
    as (_ & _ & Hfailed & _).
  destruct (Hfailed helperlessWorld _ _ Hstaged Herror) as (_ & Hleft & Ho).
  split; [exact Hleft|exact Ho].
Defined.

Lemma purge_removes_own_scratch_dir_witness :
  outcome (run Mem.handle (getTutanotaTempPath (exampleEnv "linux") exampleThis) exampleWorld) =
    Resolved (scratchDir (exampleEnv "linux") exampleThis) /\
  Mem.files
    (final (run Mem.handle (deleteTutanotaTempDir (exampleEnv "linux"))
              (final (run Mem.handle (getTutanotaTempPath (exampleEnv "linux") exampleThis)
                        exampleWorld)))) !! scratchDir (exampleEnv "linux") exampleThis = None.
Proof.
  assert (outcome (run Mem.handle (getTutanotaTempPath (exampleEnv "linux") exampleThis)
                     exampleWorld) =
          Resolved (scratchDir (exampleEnv "linux") exampleThis)) as Hfirst by by vm_compute.
  split; [exact Hfirst|].
  destruct (purge_removes_own_scratch_dir (exampleEnv "linux") exampleThis) as [Hmem _].
  destruct (Hmem exampleWorld _ Hfirst) as (_ & _ & _ & _ & Hgone). exact Hgone.
Defined.

(** ** The further statements at work *)

Lemma isRectContainedInRect_geometry_witness :
  isRectContainedInRect primaryDisplay exampleWindow = true /\
  withinMargin 10 primaryDisplay exampleWindow.
Proof.
  split; [reflexivity|].
  apply (proj1 (isRectContainedInRect_geometry primaryDisplay exampleWindow));
    [simpl; lia|simpl; lia|reflexivity].
Defined.

Lemma isRectContainedInRect_self_witness :
  isRectContainedInRect primaryDisplay primaryDisplay = true /\
  isRectContainedInRect secondDisplay secondDisplay <> true.
Proof.
  split.
  - apply (isRectContainedInRect_self primaryDisplay). simpl. lia.
  - intros H. apply (isRectContainedInRect_self secondDisplay) in H. simpl in H. lia.
Defined.

Lemma isRectContainedInRect_far_display_witness :
  0 <= Rect.width exampleWindow /\ 0 <= Rect.height exampleWindow /\
  Rect.width thirdDisplay + 20 < Rect.x thirdDisplay /\
  isRectContainedInRect thirdDisplay exampleWindow = false.
Proof.
  assert (0 <= Rect.width exampleWindow) as Hw by (simpl; lia).
  assert (0 <= Rect.height exampleWindow) as Hh by (simpl; lia).
  assert (Rect.width thirdDisplay + 20 < Rect.x thirdDisplay) as Hfar by (simpl; lia).
  split; [exact Hw|]. split; [exact Hh|]. split; [exact Hfar|].
  exact (isRectContainedInRect_far_display thirdDisplay exampleWindow Hw Hh (or_introl Hfar)).
Defined.

Lemma makeSingleInstance_false_iff_quit_witness :
  exec (makeSingleInstance (exampleEnv "linux"))
    (trace (run Mem.handle (makeSingleInstance (exampleEnv "linux")) lockedWorld))
    (Resolved false) /\
  Ev Quit tt ∈ trace (run Mem.handle (makeSingleInstance (exampleEnv "linux")) lockedWorld).
Proof.
  pose proof (run_exec Mem.handle (makeSingleInstance (exampleEnv "linux")) lockedWorld) as H.
  assert (outcome (run Mem.handle (makeSingleInstance (exampleEnv "linux")) lockedWorld) =
          Resolved false) as Ho by by vm_compute.
  rewrite Ho in H. split; [exact H|].
  by apply (makeSingleInstance_false_iff_quit (exampleEnv "linux") _ _ H).
Defined.

Lemma makeSingleInstance_version_agnostic_witness :
  exec (makeSingleInstance (exampleEnv "linux"))
    [lockWrite (exampleEnv "linux") (Failed (Mem.fsError "EACCES")); lockRequest false;
     Ev (Delay 1500) tt; lockRead (exampleEnv "linux") (Failed (Mem.fsError "EACCES")); Ev Quit tt]
    (Resolved false) /\
  exists w granted rest,
    [lockWrite (exampleEnv "linux") (Failed (Mem.fsError "EACCES")); lockRequest false;
     Ev (Delay 1500) tt; lockRead (exampleEnv "linux") (Failed (Mem.fsError "EACCES")); Ev Quit tt] =
      lockWrite (exampleEnv "linux") w :: lockRequest granted :: rest /\
    Resolved false = Resolved granted.
Proof.
  pose proof (run_exec Mem.handle (makeSingleInstance (exampleEnv "linux")) unreadableWorld) as H.
  change (exec (makeSingleInstance (exampleEnv "linux"))
            [lockWrite (exampleEnv "linux") (Failed (Mem.fsError "EACCES")); lockRequest false;
             Ev (Delay 1500) tt; lockRead (exampleEnv "linux") (Failed (Mem.fsError "EACCES"));
             Ev Quit tt]
            (Resolved false)) in H.
  split; [exact H|].
  destruct (makeSingleInstance_version_agnostic (exampleEnv "linux") _ _ H)
    as (w & granted & rest & Ht & Ho & _).
  - left. intros r Hin. unfold lockWrite, lockRequest, lockRead in Hin.
    repeat (apply elem_of_cons in Hin as [Hin|Hin]; [try discriminate|]).
    + apply Ev_inj in Hin. eauto.
    + by apply elem_of_nil in Hin.
  - exists w, granted, rest. split; [exact Ht|exact Ho].
Defined.

Lemma override_is_reported_once_witness :
  outcome (run Mem.handle (singleInstanceLockOverridden (exampleEnv "linux")) lockedWorld) =
    Resolved true /\
  outcome (run Mem.handle (singleInstanceLockOverridden (exampleEnv "linux"))
             (final (run Mem.handle (singleInstanceLockOverridden (exampleEnv "linux"))
                       lockedWorld))) = Resolved false.
Proof.
  destruct (override_is_reported_once (exampleEnv "linux") lockedWorld "3.90.0" (octal [6; 4; 4]))
    as (Hfirst & Hsecond & _); [by vm_compute..|].
  split; [exact Hfirst|exact Hsecond].
Defined.

Lemma refused_instance_alone_quits_witness :
  hd true (Mem.lockGrants lockedWorld) = false /\
  outcome (run Mem.handle (makeSingleInstance (exampleEnv "linux")) lockedWorld) = Resolved false /\
  Mem.quitted (final (run Mem.handle (makeSingleInstance (exampleEnv "linux")) lockedWorld)) = true.
Proof.
  split; [reflexivity|].
  destruct (refused_instance_alone_quits (exampleEnv "linux") lockedWorld "3.90.0" (octal [6; 4; 4]))
    as (Ho & Hq & _); [by vm_compute..|].
  split; [exact Ho|exact Hq].
Defined.

Lemma version_handshake_witness :
  tempPath olderEnv = tempPath (exampleEnv "linux") /\
  outcome (run (besidePeer olderEnv) (makeSingleInstance (exampleEnv "linux")) lockedWorld) =
    Resolved true /\
  Mem.quitted (final (run (besidePeer olderEnv) (makeSingleInstance (exampleEnv "linux"))
                        lockedWorld)) = false.
Proof.
  split; [reflexivity|].
  destruct (version_handshake (exampleEnv "linux") olderEnv lockedWorld "3.90.0" (octal [6; 4; 4]))
    as (Ho & Hq & _); [by vm_compute..|].
  split; [exact Ho|exact Hq].
Defined.

Lemma purge_spares_what_is_outside_witness :
  Mem.files (final (run Mem.handle (deleteTutanotaTempDir (exampleEnv "linux")) lockedWorld))
    !! getLockFilePath (exampleEnv "linux") = Some (Mem.File "3.90.0" (octal [6; 4; 4])).
Proof.
  destruct (purge_spares_what_is_outside (exampleEnv "linux") lockedWorld) as (_ & _ & _ & _ & Hlock).
  rewrite Hlock. by vm_compute.
Defined.


Lemma scratch_dir_is_recreated_after_purge_witness :
  outcome (run Mem.handle (getTutanotaTempPath (exampleEnv "linux") exampleThis) exampleWorld) =
    Resolved (scratchDir (exampleEnv "linux") exampleThis) /\
  outcome
    (run Mem.handle (getTutanotaTempPath (exampleEnv "linux") exampleThis)
       (final (run Mem.handle (deleteTutanotaTempDir (exampleEnv "linux"))
                 (final (run Mem.handle (getTutanotaTempPath (exampleEnv "linux") exampleThis)
                           exampleWorld))))) =
    Resolved (scratchDir (exampleEnv "linux") exampleThis).
Proof.
  assert (outcome (run Mem.handle (getTutanotaTempPath (exampleEnv "linux") exampleThis)
                     exampleWorld) =
          Resolved (scratchDir (exampleEnv "linux") exampleThis)) as Hfirst by by vm_compute.
  split; [exact Hfirst|].
  destruct (scratch_dir_is_recreated_after_purge (exampleEnv "linux") exampleThis exampleWorld _ Hfirst)
    as (_ & Hagain & _).
  exact Hagain.
Defined.

Lemma accessor_keeps_existing_nodes_witness :
  Mem.files (final (run Mem.handle (getTutanotaTempPath (exampleEnv "linux") exampleThis)
                      lockedWorld)) !! ["tmp"] = Some (Mem.Dir (octal [7; 7; 7])).
Proof.
  destruct (accessor_keeps_existing_nodes (exampleEnv "linux") exampleThis lockedWorld)
    as (Hsub & _).
  eapply lookup_weaken; [|exact Hsub]. by vm_compute.
Defined.

Lemma win32_ignores_protocol_answer_witness :
  platform (exampleEnv "win32") = "win32" /\
  exec (registerAsMailtoHandler (exampleEnv "win32") exampleThis)
    ((registerLog :: exampleImport (Ok tt)) ++ setDefault false ::
       settingsAttempt (Failed (Error "no handler for ms-settings")))
    (Resolved tt).
Proof.
  split; [reflexivity|].
  apply (proj1 (win32_ignores_protocol_answer (exampleEnv "win32") exampleThis
                  (registerLog :: exampleImport (Ok tt))
                  (settingsAttempt (Failed (Error "no handler for ms-settings")))
                  true false (Resolved tt) eq_refl)).
  apply exec_register_flow; [reflexivity|].
  exists (exampleImport (Ok tt)), (Resolved tt), true. split.
  - apply exec_executeRegistryScript. exists exampleStaging, (Resolved exampleScript). split.
    + apply exec_writeToDisk.
      exists (Mem.nextBytes 12 exampleWorld), (Ok tt), (Ok tt), (Ok tt). split; reflexivity.
    + left. exists (exitedWith 0), (Ok tt). split; reflexivity.
  - exists (Failed (Error "no handler for ms-settings")). split; reflexivity.
Defined.

Lemma win32_failure_leaves_half_done_witness :
  platform (exampleEnv "win32") = "win32" /\
  exec (unregisterAsMailtoHandler (exampleEnv "win32") exampleThis)
    (trace (run Mem.handle (unregisterAsMailtoHandler (exampleEnv "win32") exampleThis)
              exampleWorld))
    (Rejected (Error "couldn't execute registry script")) /\
  exists granted t',
    trace (run Mem.handle (unregisterAsMailtoHandler (exampleEnv "win32") exampleThis) exampleWorld) =
    unregisterLog :: removeDefault granted :: t'.
Proof.
  split; [reflexivity|].
  pose proof (run_exec Mem.handle (unregisterAsMailtoHandler (exampleEnv "win32") exampleThis)
                exampleWorld) as H.
  assert (outcome (run Mem.handle (unregisterAsMailtoHandler (exampleEnv "win32") exampleThis)
                     exampleWorld) =
          Rejected (Error "couldn't execute registry script")) as Ho by by vm_compute.
  rewrite Ho in H. split; [exact H|].
  exact (proj2 (win32_failure_leaves_half_done (exampleEnv "win32") exampleThis _ _ eq_refl) H).
Defined.


Lemma registry_script_leaves_directories_only_witness :
  outcome (run Mem.handle (_writeToDisk (exampleEnv "win32") exampleThis "Windows Registry Editor")
             exampleWorld) = Resolved exampleScript /\
  Mem.files exampleWorld !! exampleScript = None /\
  Mem.files exampleWorld ⊆
    Mem.files (final (run Mem.handle
                        (_executeRegistryScript (exampleEnv "win32") exampleThis
                           "Windows Registry Editor") exampleWorld)) /\
  Mem.files (final (run Mem.handle
                      (_executeRegistryScript (exampleEnv "win32") exampleThis
                         "Windows Registry Editor") exampleWorld)) !! exampleScript = None /\
  Mem.files (final (run Mem.handle
                      (_executeRegistryScript (exampleEnv "win32") exampleThis
                         "Windows Registry Editor") helperlessWorld)) !! exampleScript =
    Some (Mem.File "Windows Registry Editor" (octal [4; 0; 0])).
Proof.
  assert (outcome (run Mem.handle
                     (_writeToDisk (exampleEnv "win32") exampleThis "Windows Registry Editor")
                     exampleWorld) = Resolved exampleScript) as Hstaged by by vm_compute.
  assert (outcome (run Mem.handle
                     (_writeToDisk (exampleEnv "win32") exampleThis "Windows Registry Editor")
                     helperlessWorld) = Resolved exampleScript) as Hstaged' by by vm_compute.
  assert (Mem.files exampleWorld !! exampleScript = None) as Hfree by by vm_compute.
  split; [exact Hstaged|]. split; [exact Hfree|].
  destruct (registry_script_leaves_directories_only (exampleEnv "win32") exampleThis
              "Windows Registry Editor" exampleWorld exampleScript Hstaged Hfree)
    as (Hsub & _ & Hgone & _).
  destruct (registry_script_leaves_directories_only (exampleEnv "win32") exampleThis
              "Windows Registry Editor" helperlessWorld exampleScript Hstaged' Hfree)
    as (_ & _ & _ & Hleft).
  split; [exact Hsub|]. split.
  - exact (Hgone (killedBy "SIGKILL") eq_refl).
  - rewrite (Hleft spawnENOENT eq_refl). reflexivity.
Defined.

Lemma touch_makes_sure_the_file_exists_witness :
  (touch MemFd.fs ["tmp"; "tutanota"; "stale"; "mail.eml"] lockedFdWorld).1 = Ok tt /\
  (touch MemFd.fs ["tmp"; "tutanota"; "stale"; "mail.eml"] lockedFdWorld).2 = lockedFdWorld /\
  (touch MemFd.fs ["tmp"; "marker"] lockedFdWorld).1 = Ok tt /\
  Mem.files (MemFd.disk (touch MemFd.fs ["tmp"; "marker"] lockedFdWorld).2) !! ["tmp"; "marker"] =
    Some (Mem.File "" (octal [6; 4; 4])).
Proof.
  assert ((touch MemFd.fs ["tmp"; "tutanota"; "stale"; "mail.eml"] lockedFdWorld).1 = Ok tt)
    as Hold by by vm_compute.
  assert ((touch MemFd.fs ["tmp"; "marker"] lockedFdWorld).1 = Ok tt) as Hnew by by vm_compute.
  split; [exact Hold|]. split; [|split; [exact Hnew|]].
  - destruct (touch_makes_sure_the_file_exists _ _ Hold) as (_ & Hsame & _).
    apply Hsame. vm_compute. eauto.
  - destruct (touch_makes_sure_the_file_exists _ _ Hnew) as (_ & _ & Hfresh & _).
    rewrite Hfresh by by vm_compute. by vm_compute.
Defined.

Lemma touch_throws_and_changes_nothing_witness :
  (touch MemFd.fs ["tmp"; "tutanota_desktop_lockfile"; "marker"] lockedFdWorld).1 =
    Failed (Mem.fsError "ENOTDIR") /\
  (touch MemFd.fs ["tmp"; "tutanota_desktop_lockfile"; "marker"] lockedFdWorld).2 = lockedFdWorld /\
  (touch MemFd.fs ["tmp"; "tutanota"; "marker"]
     {| MemFd.disk := readOnlyDirWorld; MemFd.descriptors := ∅ |}).1 =
    Failed (Mem.fsError "EACCES") /\
  (openSync MemFd.fs ["tmp"; "tutanota"; "marker"] "a"
     {| MemFd.disk := readOnlyDirWorld; MemFd.descriptors := ∅ |}).1 =
    Failed (Mem.fsError "EACCES").
Proof.
  assert ((touch MemFd.fs ["tmp"; "tutanota_desktop_lockfile"; "marker"] lockedFdWorld).1 =
          Failed (Mem.fsError "ENOTDIR")) as Hfile by by vm_compute.
  assert ((touch MemFd.fs ["tmp"; "tutanota"; "marker"]
             {| MemFd.disk := readOnlyDirWorld; MemFd.descriptors := ∅ |}).1 =
          Failed (Mem.fsError "EACCES")) as Hdir by by vm_compute.
  split; [exact Hfile|]. split; [|split; [exact Hdir|]].
  - destruct (touch_throws_and_changes_nothing ["tmp"; "tutanota_desktop_lockfile"; "marker"]
                lockedFdWorld) as (_ & _ & Hsame).
    exact (Hsame _ Hfile).
  - destruct (touch_throws_and_changes_nothing ["tmp"; "tutanota"; "marker"]
                {| MemFd.disk := readOnlyDirWorld; MemFd.descriptors := ∅ |}) as (Hopen & _).
    exact (proj1 (Hopen _) Hdir).
Defined.

Lemma file_in_place_of_top_level_dir_witness :
  Mem.files blockedWorld !! topLvlTmpDir (exampleEnv "win32") =
    Some (Mem.File "not a directory" (octal [6; 4; 4])) /\
  outcome (run Mem.handle (getTutanotaTempPath (exampleEnv "win32") exampleThis) blockedWorld) =
    Rejected (Mem.fsError "ENOTDIR") /\
  outcome (run Mem.handle (deleteTutanotaTempDir (exampleEnv "win32")) blockedWorld) =
    Rejected (Mem.fsError "ENOTDIR").
Proof.
  assert (Mem.files blockedWorld !! topLvlTmpDir (exampleEnv "win32") =
          Some (Mem.File "not a directory" (octal [6; 4; 4]))) as Hfile by by vm_compute.
  split; [exact Hfile|].
  destruct (file_in_place_of_top_level_dir (exampleEnv "win32") exampleThis blockedWorld _ _ Hfile)
    as (Hacc & _ & Hpurge & _).
  split; [exact Hacc|]. by rewrite Hpurge.
Defined.

Lemma lock_file_names_the_last_starter_witness :
  head (trace (run Mem.handle (makeSingleInstance (exampleEnv "linux")) exampleWorld)) =
    Some (lockWrite (exampleEnv "linux") (Ok tt)) /\
  exists m,
    Mem.files (final (run Mem.handle (makeSingleInstance (exampleEnv "linux")) exampleWorld))
      !! getLockFilePath (exampleEnv "linux") = Some (Mem.File "3.91.2" m).
Proof.
  assert (head (trace (run Mem.handle (makeSingleInstance (exampleEnv "linux")) exampleWorld)) =
          Some (lockWrite (exampleEnv "linux") (Ok tt))) as Hhead by by vm_compute.
  split; [exact Hhead|].
  exact (proj2 (lock_file_names_the_last_starter (exampleEnv "linux") exampleWorld Hhead)).
Defined.
